(** * OpenRAM characterizer: the delay and power engine

    A shallow embedding of [compiler/characterizer/delay.py] (class [delay]).

    Conventions of the embedding.
    - Python floats are exact rationals ([Q]).  What the code computes is
      stated by the operations it performs, in the order it performs them,
      so that the statement does not depend on how an operation rounds; the
      linearity of the leakage correction is that of the real-valued
      formula.  The time keeping of the sequencer, where rounding shows, is
      also given over any number type and run in binary64
      ([accumulated_times], [float_cycle_times]).  Python ints are [Z], list
      lengths and loop counters are [nat].
    - The object [self] is the record [delay]; a method is a function in the
      state-and-error monad [M] over it.
    - [debug.error] with a non-zero return value and a failed [debug.check]
      abort the run; an uncaught Python exception does the same.  All of them
      are the outcome [Fatal].
    - The stimulus file [self.sf] is the list of the directives written to it,
      each recording the arguments of the call that wrote it.  The external
      circuit simulator is a function [spice] of the stimulus it is run on. *)

From Stdlib Require Import Floats.
From Stdlib Require Import Ascii String QArith Qabs Qminmax ZArith Lia Lqa.
From stdpp Require Import gmap strings list fin_maps pretty.

(** ** Outcomes *)

Inductive result (A : Type) : Type :=
| OK (a : A)
| Fatal (msg : string).
Arguments OK {A} a.
Arguments Fatal {A} msg.

Definition is_ok {A} (r : result A) : bool :=
  match r with OK _ => true | Fatal _ => false end.

(** ** Data model *)

(** A corner: [(process, vdd_voltage, temperature)]. *)
Record corner_t : Type := Corner {
  process : string;
  vdd_voltage : Q;
  temperature : Q
}.

(** A Python value used as [probe_data]: an int, or anything else (kept by
    its [str()] rendering). *)
Inductive pyval : Type :=
| PyInt (z : Z)
| PyOther (repr : string).

(** An argument of [str.format]. *)
Inductive farg : Type :=
| AInt (z : Z)
| ANum (q : Q)
| AStr (s : string).

(** A formatted string: the template as the source spells it, and the
    arguments of [.format]. *)
Record fstr : Type := Fmt { template : string; fargs : list farg }.

(** What one call writes to the stimulus file.  [Text] and [Line] are direct
    [sf.write] calls, the others are the methods of the [stimuli] helper
    with their arguments. *)
Inductive directive : Type :=
| Text (s : string)
| Line (f : fstr)
| CommentLine (c : fstr)
| Include (file : string)
| Supply
| InstSram (abits dbits : nat) (sram_name : string)
| Pwl (sig_name : string) (clk_times : list Q) (values : list Z)
      (period slew setup : Q)
| Pulse (sig_name : string) (v1 v2 offset period t_rise t_fall : Q)
| Constant (sig_name : string) (v_val : Q)
| MeasDelay (meas_name trig_name targ_name : string) (trig_val targ_val : Q)
            (trig_dir targ_dir : string) (trig_td targ_td : Q)
| MeasPower (meas_name : string) (t_initial t_final : Q)
| Control (end_time : Q).

(** A stimulus as the simulator sees it: the corner the [stimuli] object was
    built with, and the file. *)
Record stimulus : Type := Stimulus {
  stim_corner : corner_t;
  stim_lines : list directive
}.

(** A value returned by [parse_spice_list]: a float, or the failure marker
    (the string ["Failed"]). *)
Inductive meas : Type :=
| Num (q : Q)
| Failed.

(** The cycle lists that [create_test_cycles] rebuilds. *)
Record cycles : Type := Cycles {
  t_current : Q;
  cycle_comments : list fstr;
  cycle_times : list Q;
  web_values : list Z;
  oeb_values : list Z;
  csb_values : list Z;
  data_values : list (list Z);
  addr_values : list (list Z)
}.

(** The remembered cycle indices. *)
Record marks_t : Type := Marks {
  write0_cycle : Z;
  read0_cycle : Z;
  idle_cycle : Z;
  write1_cycle : Z;
  read1_cycle : Z
}.

(** The object [self].  [sims] is the history of the stimuli the simulator
    was run on, newest first; its head is what the result file ["timing"]
    holds. *)
Record delay : Type := Delay {
  name : string;
  word_size : nat;
  addr_size : nat;
  sp_file : string;
  corner : corner_t;
  period : Q;
  load : Q;
  slew : Q;
  probe_address : string;
  probe_data : pyval;
  trim_sp_file : string;
  sim_sp_file : string;
  cyc : cycles;
  marks : marks_t;
  sf : list directive;
  stim : corner_t;
  sims : list stimulus
}.

Definition set_period (v : Q) (s : delay) : delay :=
  Delay (name s) (word_size s) (addr_size s) (sp_file s) (corner s) v (load s) (slew s) (probe_address s) (probe_data s) (trim_sp_file s) (sim_sp_file s) (cyc s) (marks s) (sf s) (stim s) (sims s).
Definition set_load (v : Q) (s : delay) : delay :=
  Delay (name s) (word_size s) (addr_size s) (sp_file s) (corner s) (period s) v (slew s) (probe_address s) (probe_data s) (trim_sp_file s) (sim_sp_file s) (cyc s) (marks s) (sf s) (stim s) (sims s).
Definition set_slew (v : Q) (s : delay) : delay :=
  Delay (name s) (word_size s) (addr_size s) (sp_file s) (corner s) (period s) (load s) v (probe_address s) (probe_data s) (trim_sp_file s) (sim_sp_file s) (cyc s) (marks s) (sf s) (stim s) (sims s).
Definition set_probe_fields (a : string) (d : pyval) (s : delay) : delay :=
  Delay (name s) (word_size s) (addr_size s) (sp_file s) (corner s) (period s) (load s) (slew s) a d (trim_sp_file s) (sim_sp_file s) (cyc s) (marks s) (sf s) (stim s) (sims s).
Definition set_trim_sp_file (f : string) (s : delay) : delay :=
  Delay (name s) (word_size s) (addr_size s) (sp_file s) (corner s) (period s) (load s) (slew s) (probe_address s) (probe_data s) f (sim_sp_file s) (cyc s) (marks s) (sf s) (stim s) (sims s).
Definition set_sim_sp_file (f : string) (s : delay) : delay :=
  Delay (name s) (word_size s) (addr_size s) (sp_file s) (corner s) (period s) (load s) (slew s) (probe_address s) (probe_data s) (trim_sp_file s) f (cyc s) (marks s) (sf s) (stim s) (sims s).
Definition set_cyc (c : cycles) (s : delay) : delay :=
  Delay (name s) (word_size s) (addr_size s) (sp_file s) (corner s) (period s) (load s) (slew s) (probe_address s) (probe_data s) (trim_sp_file s) (sim_sp_file s) c (marks s) (sf s) (stim s) (sims s).
Definition set_marks (m : marks_t) (s : delay) : delay :=
  Delay (name s) (word_size s) (addr_size s) (sp_file s) (corner s) (period s) (load s) (slew s) (probe_address s) (probe_data s) (trim_sp_file s) (sim_sp_file s) (cyc s) m (sf s) (stim s) (sims s).
Definition set_sf (f : list directive) (s : delay) : delay :=
  Delay (name s) (word_size s) (addr_size s) (sp_file s) (corner s) (period s) (load s) (slew s) (probe_address s) (probe_data s) (trim_sp_file s) (sim_sp_file s) (cyc s) (marks s) f (stim s) (sims s).
Definition set_stim (c : corner_t) (s : delay) : delay :=
  Delay (name s) (word_size s) (addr_size s) (sp_file s) (corner s) (period s) (load s) (slew s) (probe_address s) (probe_data s) (trim_sp_file s) (sim_sp_file s) (cyc s) (marks s) (sf s) c (sims s).
Definition set_sims (l : list stimulus) (s : delay) : delay :=
  Delay (name s) (word_size s) (addr_size s) (sp_file s) (corner s) (period s) (load s) (slew s) (probe_address s) (probe_data s) (trim_sp_file s) (sim_sp_file s) (cyc s) (marks s) (sf s) (stim s) l.

Definition set_data_values (v : list (list Z)) (c : cycles) : cycles :=
  Cycles (t_current c) (cycle_comments c) (cycle_times c) (web_values c) (oeb_values c) (csb_values c) v (addr_values c).
Definition set_addr_values (v : list (list Z)) (c : cycles) : cycles :=
  Cycles (t_current c) (cycle_comments c) (cycle_times c) (web_values c) (oeb_values c) (csb_values c) (data_values c) v.

Definition set_write0_cycle (i : Z) (m : marks_t) : marks_t :=
  Marks i (read0_cycle m) (idle_cycle m) (write1_cycle m) (read1_cycle m).
Definition set_read0_cycle (i : Z) (m : marks_t) : marks_t :=
  Marks (write0_cycle m) i (idle_cycle m) (write1_cycle m) (read1_cycle m).
Definition set_idle_cycle (i : Z) (m : marks_t) : marks_t :=
  Marks (write0_cycle m) (read0_cycle m) i (write1_cycle m) (read1_cycle m).
Definition set_write1_cycle (i : Z) (m : marks_t) : marks_t :=
  Marks (write0_cycle m) (read0_cycle m) (idle_cycle m) i (read1_cycle m).
Definition set_read1_cycle (i : Z) (m : marks_t) : marks_t :=
  Marks (write0_cycle m) (read0_cycle m) (idle_cycle m) (write1_cycle m) i.

(** ** The monad of methods *)

Definition M (A : Type) : Type := delay -> result (A * delay).

Definition ret {A} (a : A) : M A := fun s => OK (a, s).

Definition bind {A B} (m : M A) (k : A -> M B) : M B :=
  fun s => match m s with
           | OK (a, s') => k a s'
           | Fatal e => Fatal e
           end.

Notation "x <- m ;; k" := (bind m (fun x => k))
  (at level 100, m at next level, right associativity).
Notation "m ;; k" := (bind m (fun _ => k))
  (at level 100, right associativity).

Definition get : M delay := fun s => OK (s, s).
Definition modify (f : delay -> delay) : M unit := fun s => OK (tt, f s).

(** [debug.error(msg, n)] with [n <> 0]. *)
Definition error {A} (msg : string) : M A := fun _ => Fatal msg.

(** [debug.check(cond, msg)]. *)
Definition check (cond : bool) (msg : string) : M unit :=
  if cond then ret tt else error msg.

(** A pure computation that may raise. *)
Definition lift {A} (r : result A) : M A :=
  fun s => match r with OK a => OK (a, s) | Fatal e => Fatal e end.

(** [self.sf.write] and the writing methods of [self.stim]. *)
Definition emit (d : directive) : M unit :=
  modify (fun s => set_sf (sf s ++ [d]) s).

(** ** Python built-ins *)

(** [l[i]] for a Python list: negative indices count from the end, an index
    out of range raises [IndexError]. *)
Definition py_index {A} (l : list A) (i : Z) : result A :=
  let n := Z.of_nat (length l) in
  let j := if (i <? 0)%Z then (n + i)%Z else i in
  if (j <? 0)%Z then Fatal "IndexError"
  else match l !! Z.to_nat j with
       | Some x => OK x
       | None => Fatal "IndexError"
       end.

(** [c * n] for a one-character string [c]. *)
Fixpoint string_repeat (c : ascii) (n : nat) : string :=
  match n with
  | O => EmptyString
  | S n' => String c (string_repeat c n')
  end.

Definition is_bit (c : ascii) : bool := Ascii.eqb c "0" || Ascii.eqb c "1".

Fixpoint is_binary (s : string) : bool :=
  match s with
  | EmptyString => true
  | String c rest => is_bit c && is_binary rest
  end.

Definition is_space (c : ascii) : bool :=
  let n := nat_of_ascii c in
  (n =? 32)%nat || ((9 <=? n)%nat && (n <=? 13)%nat).

Fixpoint lstrip (s : string) : string :=
  match s with
  | String c rest => if is_space c then lstrip rest else s
  | EmptyString => EmptyString
  end.

Fixpoint rstrip (s : string) : string :=
  match s with
  | EmptyString => EmptyString
  | String c rest =>
      match rstrip rest with
      | EmptyString => if is_space c then EmptyString else String c EmptyString
      | r => String c r
      end
  end.

(** The digits of a base-2 literal: binary digits, a single underscore
    allowed between two digits.  [acc] is the value read so far, [after_digit]
    tells whether the previous character was a digit. *)
Fixpoint bin_digits (s : string) (acc : Z) (after_digit : bool) : option Z :=
  match s with
  | EmptyString => if after_digit then Some acc else None
  | String c rest =>
      if Ascii.eqb c "0" then bin_digits rest (2 * acc)%Z true
      else if Ascii.eqb c "1" then bin_digits rest (2 * acc + 1)%Z true
      else if Ascii.eqb c "_" then
             (if after_digit then bin_digits rest acc false else None)
      else None
  end.

(** [int(s, 2)]: surrounding whitespace, an optional sign, an optional
    [0b]/[0B] prefix (an underscore may follow it), then the digits.
    [None] is [ValueError]. *)
Definition py_int2 (s : string) : option Z :=
  let body := rstrip (lstrip s) in
  let '(neg, body) :=
    match body with
    | String c rest =>
        if Ascii.eqb c "-" then (true, rest)
        else if Ascii.eqb c "+" then (false, rest)
        else (false, body)
    | EmptyString => (false, body)
    end in
  let digits :=
    match body with
    | String z (String b rest) =>
        if Ascii.eqb z "0" && (Ascii.eqb b "b" || Ascii.eqb b "B") then
          match rest with
          | String u rest' => if Ascii.eqb u "_" then rest' else rest
          | EmptyString => rest
          end
        else body
    | _ => body
    end in
  match bin_digits digits 0 false with
  | Some v => Some (if neg then (- v)%Z else v)
  | None => None
  end.

(** ** Argument checking *)

Definition check_arguments : M unit :=
  s <- get ;;
  (match py_int2 (probe_address s) with
   | Some _ => ret tt
   | None => error "Probe Address is not of binary form"
   end) ;;
  (if negb (String.length (probe_address s) =? addr_size s)%nat
   then error "Probe Address's number of bits does not correspond to given SRAM"
   else ret tt) ;;
  match probe_data s with
  | PyInt d =>
      if (d >? Z.of_nat (word_size s))%Z || (d <? 0)%Z
      then error "Given probe_data is not an integer to specify a data bit"
      else ret tt
  | PyOther _ =>
      error "Given probe_data is not an integer to specify a data bit"
  end.

(** ** The cycle sequencer *)

(** The loop of [add_data] and of [add_address]: character [index] of the
    string appends its bit to stream [index]; [msg] is the error of a
    character that is neither ['0'] nor ['1'].  A stream that does not exist
    is Python's [IndexError]. *)
Fixpoint append_bits (msg : string) (bits : string) (index : nat)
    (values : list (list Z)) : result (list (list Z)) :=
  match bits with
  | EmptyString => OK values
  | String c rest =>
      if Ascii.eqb c "0" then
        match values !! index with
        | Some v => append_bits msg rest (S index) (<[index := v ++ [0%Z]]> values)
        | None => Fatal "IndexError"
        end
      else if Ascii.eqb c "1" then
        match values !! index with
        | Some v => append_bits msg rest (S index) (<[index := v ++ [1%Z]]> values)
        | None => Fatal "IndexError"
        end
      else Fatal msg
  end.

Definition add_data (data : string) : M unit :=
  s <- get ;;
  check (String.length data =? word_size s)%nat "Invalid data word size." ;;
  v <- lift (append_bits "Non-binary data string" data 0 (data_values (cyc s))) ;;
  modify (fun s => set_cyc (set_data_values v (cyc s)) s).

Definition add_address (address : string) : M unit :=
  s <- get ;;
  check (String.length address =? addr_size s)%nat "Invalid address size." ;;
  v <- lift (append_bits "Non-binary address string" address 0 (addr_values (cyc s))) ;;
  modify (fun s => set_cyc (set_addr_values v (cyc s)) s).

Definition cycle_comment (n : nat) (t : Q) (comment : string) : fstr :=
  Fmt "Cycle {0:2d}\t{1:5.2f}ns:\t{2}" [AInt (Z.of_nat n); ANum t; AStr comment].

(** The first lines of [add_noop], [add_read] and [add_write]: the comment,
    the time stamp, the advance of [t_current] and the three control values
    [web], [oeb], [csb] of the cycle.  [n] is the cycle number the comment
    shows.  The advance is one addition; [keep_time] below is this time
    keeping alone, over any addition. *)
Definition start_cycle (n : nat) (comment : string) (web oeb csb : Z)
    (s : delay) : delay :=
  let c := cyc s in
  set_cyc
    {| t_current := (t_current c + period s)%Q;
       cycle_comments := cycle_comments c ++ [cycle_comment n (t_current c) comment];
       cycle_times := cycle_times c ++ [t_current c];
       web_values := web_values c ++ [web];
       oeb_values := oeb_values c ++ [oeb];
       csb_values := csb_values c ++ [csb];
       data_values := data_values c;
       addr_values := addr_values c |} s.

Definition add_noop (comment address data : string) : M unit :=
  modify (fun s => start_cycle (length (cycle_times (cyc s))) comment 1 1 1 s) ;;
  add_data data ;;
  add_address address.

Definition add_read (comment address data : string) : M unit :=
  modify (fun s => start_cycle (length (cycle_comments (cyc s))) comment 1 0 0 s) ;;
  add_data data ;;
  add_address address.

Definition add_write (comment address data : string) : M unit :=
  modify (fun s => start_cycle (length (cycle_comments (cyc s))) comment 0 1 0 s) ;;
  add_data data ;;
  add_address address.

(** The scratch address: every bit of the probe address flipped. *)
Fixpoint invert_address (a : string) : result string :=
  match a with
  | EmptyString => OK EmptyString
  | String c rest =>
      if Ascii.eqb c "0" then
        match invert_address rest with
        | OK r => OK (String "1" r)
        | Fatal e => Fatal e
        end
      else if Ascii.eqb c "1" then
        match invert_address rest with
        | OK r => OK (String "0" r)
        | Fatal e => Fatal e
        end
      else Fatal "Non-binary address string"
  end.

(** [len(self.cycle_times) - 1]. *)
Definition last_cycle (s : delay) : Z :=
  (Z.of_nat (length (cycle_times (cyc s))) - 1)%Z.

Definition create_test_cycles : M unit :=
  modify (fun s =>
    set_cyc {| t_current := 0%Q; cycle_comments := []; cycle_times := [];
               web_values := []; oeb_values := []; csb_values := [];
               data_values := replicate (word_size s) [];
               addr_values := replicate (addr_size s) [] |} s) ;;
  s <- get ;;
  inverse_address <- lift (invert_address (probe_address s)) ;;
  let data_ones := string_repeat "1" (word_size s) in
  let data_zeros := string_repeat "0" (word_size s) in
  add_noop "Idle cycle (no positive clock edge)" inverse_address data_zeros ;;
  add_write "W data 1 address 0..00" inverse_address data_ones ;;
  add_write "W data 0 address 11..11 to write value" (probe_address s) data_zeros ;;
  modify (fun s => set_marks (set_write0_cycle (last_cycle s) (marks s)) s) ;;
  add_read "R data 1 address 00..00 to set DOUT caps" inverse_address data_zeros ;;
  add_read "R data 0 address 11..11 to check W0 worked" (probe_address s) data_zeros ;;
  modify (fun s => set_marks (set_read0_cycle (last_cycle s) (marks s)) s) ;;
  add_noop "Idle cycle (if read takes >1 cycle)" inverse_address data_zeros ;;
  modify (fun s => set_marks (set_idle_cycle (last_cycle s) (marks s)) s) ;;
  add_write "W data 1 address 11..11 to write value" (probe_address s) data_ones ;;
  modify (fun s => set_marks (set_write1_cycle (last_cycle s) (marks s)) s) ;;
  add_write "W data 0 address 00..00 to clear DIN caps" inverse_address data_zeros ;;
  add_read "R data 0 address 00..00 to clear DOUT caps" inverse_address data_zeros ;;
  add_read "R data 1 address 11..11 to check W1 worked" (probe_address s) data_zeros ;;
  modify (fun s => set_marks (set_read1_cycle (last_cycle s) (marks s)) s) ;;
  add_noop "Idle cycle (if read takes >1 cycle))" (probe_address s) data_zeros.

(** The operation a cycle drives, read off its control values. *)
Inductive op_kind : Type := Idle | Read | Write.

Definition kind_of (csb web oeb : Z) : option op_kind :=
  if (csb =? 1)%Z && (web =? 1)%Z && (oeb =? 1)%Z then Some Idle
  else if (csb =? 0)%Z && (web =? 1)%Z && (oeb =? 0)%Z then Some Read
  else if (csb =? 0)%Z && (web =? 0)%Z && (oeb =? 1)%Z then Some Write
  else None.

(** The kind of cycle [i] of the current cycle lists. *)
Definition cycle_kind (c : cycles) (i : Z) : option op_kind :=
  match py_index (csb_values c) i, py_index (web_values c) i,
        py_index (oeb_values c) i with
  | OK csb, OK web, OK oeb => kind_of csb web oeb
  | _, _, _ => None
  end.

(** ** Closed form of the test program *)

Definition bit_of (c : ascii) : Z := if Ascii.eqb c "0" then 0%Z else 1%Z.

Definition flip_char (c : ascii) : ascii :=
  if Ascii.eqb c "0" then "1"%char else "0"%char.

Fixpoint string_map (f : ascii -> ascii) (s : string) : string :=
  match s with
  | EmptyString => EmptyString
  | String c rest => String (f c) (string_map f rest)
  end.

(** The start times of [n] consecutive cycles, the first one at [t]. *)
Fixpoint edge_times (n : nat) (t p : Q) : list Q :=
  match n with
  | O => []
  | S n' => t :: edge_times n' (t + p)%Q p
  end.

(** Time [t] advanced by [n] periods, one addition per period. *)
Fixpoint advance (n : nat) (t p : Q) : Q :=
  match n with
  | O => t
  | S n' => advance n' (t + p)%Q p
  end.

Definition test_comments : list string :=
  [ "Idle cycle (no positive clock edge)";
    "W data 1 address 0..00";
    "W data 0 address 11..11 to write value";
    "R data 1 address 00..00 to set DOUT caps";
    "R data 0 address 11..11 to check W0 worked";
    "Idle cycle (if read takes >1 cycle)";
    "W data 1 address 11..11 to write value";
    "W data 0 address 00..00 to clear DIN caps";
    "R data 0 address 00..00 to clear DOUT caps";
    "R data 1 address 11..11 to check W1 worked";
    "Idle cycle (if read takes >1 cycle))" ]%string.

Fixpoint number_comments (n : nat) (t p : Q) (l : list string) : list fstr :=
  match l with
  | [] => []
  | c :: l' => cycle_comment n t c :: number_comments (S n) (t + p)%Q p l'
  end.

(** The stream of address bit [c]: the scratch address drives the flipped
    bit, the probe address the bit itself. *)
Definition addr_stream (c : ascii) : list Z :=
  let a := bit_of c in
  let i := bit_of (flip_char c) in
  [i; i; a; i; a; i; a; i; i; a; a].

(** What [create_test_cycles] leaves in the cycle lists for a word of [w]
    bits, a period [p] and a binary probe address. *)
Definition test_cycles (w : nat) (p : Q) (address : string) : cycles :=
  {| t_current := advance 11 0%Q p;
     cycle_comments := number_comments 0 0%Q p test_comments;
     cycle_times := edge_times 11 0%Q p;
     web_values := [1; 0; 0; 1; 1; 1; 0; 0; 1; 1; 1]%Z;
     oeb_values := [1; 1; 1; 0; 0; 1; 1; 1; 0; 0; 1]%Z;
     csb_values := [1; 0; 0; 0; 0; 1; 0; 0; 0; 0; 1]%Z;
     data_values := replicate w [0; 1; 0; 0; 0; 0; 1; 0; 0; 0; 0]%Z;
     addr_values := map addr_stream (list_ascii_of_string address) |}.

Definition test_marks : marks_t :=
  {| write0_cycle := 2; read0_cycle := 4; idle_cycle := 5;
     write1_cycle := 6; read1_cycle := 9 |}.

(** The probe address is a string of ['0'] and ['1'] of the bus width. *)
Definition valid_address (s : delay) : bool :=
  is_binary (probe_address s) && (String.length (probe_address s) =? addr_size s)%nat.

Definition addr_of (scratch : bool) (a : string) : string :=
  if scratch then string_map flip_char a else a.
Definition bit_at (scratch : bool) (c : ascii) : Z :=
  bit_of (if scratch then flip_char c else c).

(** ** The stimulus writer *)

Fixpoint for_each {A} (l : list A) (body : A -> M unit) : M unit :=
  match l with
  | [] => ret tt
  | x :: l' => body x ;; for_each l' body
  end.

(** [str(v)] as [str.format] prints it. *)
Definition py_str (v : pyval) : string :=
  match v with
  | PyInt z => pretty z
  | PyOther repr => repr
  end.

Definition pin (bus : string) (i : nat) : string := bus +:+ "[" +:+ pretty i +:+ "]".

Definition write_generic_stimulus : M unit :=
  emit (Text "* Global Power Supplies") ;;
  emit Supply ;;
  emit (Text "* Instantiation of the SRAM") ;;
  s <- get ;;
  emit (InstSram (addr_size s) (word_size s) (name s)) ;;
  emit (Text "* SRAM output loads") ;;
  for_each (seq 0 (word_size s)) (fun i =>
    emit (Line (Fmt "CD{0} DOUT[{0}] 0 {1}f" [AInt (Z.of_nat i); ANum (load s)]))).

(** [gen_data], [gen_addr] and [gen_control]: one piecewise-linear source per
    pin.  The lists are those of the object when the method starts; writing
    to the file does not change them. *)
Definition gen_data : M unit :=
  s <- get ;;
  for_each (seq 0 (word_size s)) (fun i =>
    v <- lift (py_index (data_values (cyc s)) (Z.of_nat i)) ;;
    emit (Pwl (pin "DIN" i) (cycle_times (cyc s)) v (period s) (slew s) 0.05)).

Definition gen_addr : M unit :=
  s <- get ;;
  for_each (seq 0 (addr_size s)) (fun i =>
    v <- lift (py_index (addr_values (cyc s)) (Z.of_nat i)) ;;
    emit (Pwl (pin "A" i) (cycle_times (cyc s)) v (period s) (slew s) 0.05)).

Definition gen_control : M unit :=
  s <- get ;;
  emit (Pwl "csb" (cycle_times (cyc s)) (csb_values (cyc s)) (period s) (slew s) 0.05) ;;
  emit (Pwl "web" (cycle_times (cyc s)) (web_values (cyc s)) (period s) (slew s) 0.05) ;;
  emit (Pwl "oeb" (cycle_times (cyc s)) (oeb_values (cyc s)) (period s) (slew s) 0.05).

(** [self.cycle_times[i]]. *)
Definition cycle_time (i : Z) : M Q :=
  s <- get ;; lift (py_index (cycle_times (cyc s)) i).

Definition write_delay_measures : M unit :=
  emit (Text "* Measure statements for delay and power") ;;
  s <- get ;;
  for_each (cycle_comments (cyc s)) (fun comment => emit (CommentLine comment)) ;;
  let trig_name := "clk" in
  let targ_name := "DOUT[" +:+ py_str (probe_data s) +:+ "]" in
  let trig_val := (0.5 * vdd_voltage (corner s))%Q in
  let targ_val := trig_val in
  t_read0 <- cycle_time (read0_cycle (marks s)) ;;
  emit (MeasDelay "DELAY_HL" trig_name targ_name trig_val targ_val
                  "RISE" "FALL" t_read0 t_read0) ;;
  t_read1 <- cycle_time (read1_cycle (marks s)) ;;
  emit (MeasDelay "DELAY_LH" trig_name targ_name trig_val targ_val
                  "RISE" "RISE" t_read1 t_read1) ;;
  emit (MeasDelay "SLEW_HL" targ_name targ_name
                  (0.9 * vdd_voltage (corner s))%Q (0.1 * vdd_voltage (corner s))%Q
                  "FALL" "FALL" t_read0 t_read0) ;;
  emit (MeasDelay "SLEW_LH" targ_name targ_name
                  (0.1 * vdd_voltage (corner s))%Q (0.9 * vdd_voltage (corner s))%Q
                  "RISE" "RISE" t_read1 t_read1) ;;
  t_initial <- cycle_time (write0_cycle (marks s)) ;;
  t_final <- cycle_time (write0_cycle (marks s) + 1)%Z ;;
  emit (MeasPower "WRITE0_POWER" t_initial t_final) ;;
  t_initial <- cycle_time (write1_cycle (marks s)) ;;
  t_final <- cycle_time (write1_cycle (marks s) + 1)%Z ;;
  emit (MeasPower "WRITE1_POWER" t_initial t_final) ;;
  t_initial <- cycle_time (read0_cycle (marks s)) ;;
  t_final <- cycle_time (read0_cycle (marks s) + 1)%Z ;;
  emit (MeasPower "READ0_POWER" t_initial t_final) ;;
  t_initial <- cycle_time (read1_cycle (marks s)) ;;
  t_final <- cycle_time (read1_cycle (marks s) + 1)%Z ;;
  emit (MeasPower "READ1_POWER" t_initial t_final).

Definition write_power_measures : M unit :=
  emit (Text "* Measure statements for idle leakage power") ;;
  s <- get ;;
  let t_initial := period s in
  let t_final := (2 * period s)%Q in
  emit (MeasPower "leakage_power" t_initial t_final).

(** [open(temp_stim, "w")]: the file starts empty. *)
Definition open_sf : M unit := modify (set_sf []).

(** [stimuli(self.sf, self.corner)]. *)
Definition new_stimuli : M unit := modify (fun s => set_stim (corner s) s).

Definition write_delay_stimulus : M unit :=
  check_arguments ;;
  create_test_cycles ;;
  open_sf ;;
  s <- get ;;
  emit (Line (Fmt "* Delay stimulus for period of {0}n load={1}fF slew={2}ns"
                  [ANum (period s); ANum (load s); ANum (slew s)])) ;;
  new_stimuli ;;
  emit (Include (trim_sp_file s)) ;;
  write_generic_stimulus ;;
  emit (Text "* Generation of data and address signals") ;;
  gen_data ;;
  gen_addr ;;
  emit (Text "* Generation of control signals") ;;
  gen_control ;;
  emit (Text "* Generation of global clock signal") ;;
  emit (Pulse "CLK" 0 (vdd_voltage (corner s)) (period s) (period s) (slew s) (slew s)) ;;
  write_delay_measures ;;
  t_last <- cycle_time (-1) ;;
  emit (Control (t_last + period s)%Q).

Definition write_power_stimulus (trim : bool) : M unit :=
  check_arguments ;;
  create_test_cycles ;;
  open_sf ;;
  s <- get ;;
  emit (Line (Fmt "* Power stimulus for period of {0}n" [ANum (period s)])) ;;
  new_stimuli ;;
  (if trim then emit (Include (trim_sp_file s)) else emit (Include (sim_sp_file s))) ;;
  write_generic_stimulus ;;
  emit (Text "* Generation of data and address signals") ;;
  for_each (seq 0 (word_size s)) (fun i => emit (Constant (pin "DIN" i) 0)) ;;
  for_each (seq 0 (addr_size s)) (fun i => emit (Constant (pin "A" i) 0)) ;;
  emit (Text "* Generation of control signals") ;;
  emit (Constant "CSb" (vdd_voltage (corner s))) ;;
  emit (Constant "WEb" (vdd_voltage (corner s))) ;;
  emit (Constant "OEb" (vdd_voltage (corner s))) ;;
  emit (Text "* Generation of global clock signal") ;;
  emit (Constant "CLK" 0) ;;
  write_power_measures ;;
  emit (Control (2 * period s)%Q).

(** [self.stim.run_sim()]: the simulator runs on the file just written. *)
Definition run_sim : M unit :=
  modify (fun s => set_sims (Stimulus (stim s) (sf s) :: sims s) s).

(** ** Closed form of the stimulus files *)

(** [emits m s L]: whatever the file holds, the method [m] run on the object
    [s] succeeds and its only effect is to append the lines [L] to the file. *)
Definition emits (m : M unit) (s : delay) (L : list directive) : Prop :=
  forall P, m (set_sf P s) = OK (tt, set_sf (P ++ L) s).

Definition generic_lines (s : delay) : list directive :=
  [ Text "* Global Power Supplies"; Supply;
    Text "* Instantiation of the SRAM";
    InstSram (addr_size s) (word_size s) (name s);
    Text "* SRAM output loads" ] ++
  map (fun i => Line (Fmt "CD{0} DOUT[{0}] 0 {1}f" [AInt (Z.of_nat i); ANum (load s)]))
      (seq 0 (word_size s)).

Definition data_lines (s : delay) : list directive :=
  imap (fun i v => Pwl (pin "DIN" i) (cycle_times (cyc s)) v (period s) (slew s) 0.05)
       (data_values (cyc s)).

Definition addr_lines (s : delay) : list directive :=
  imap (fun i v => Pwl (pin "A" i) (cycle_times (cyc s)) v (period s) (slew s) 0.05)
       (addr_values (cyc s)).

Definition control_lines (s : delay) : list directive :=
  [ Pwl "csb" (cycle_times (cyc s)) (csb_values (cyc s)) (period s) (slew s) 0.05;
    Pwl "web" (cycle_times (cyc s)) (web_values (cyc s)) (period s) (slew s) 0.05;
    Pwl "oeb" (cycle_times (cyc s)) (oeb_values (cyc s)) (period s) (slew s) 0.05 ].

(** The measure statements of the test program: [t k] is the start of
    cycle [k]. *)
Definition measure_lines (s : delay) : list directive :=
  let t k := advance k 0 (period s) in
  let targ_name := "DOUT[" +:+ py_str (probe_data s) +:+ "]" in
  let half := (0.5 * vdd_voltage (corner s))%Q in
  [ Text "* Measure statements for delay and power" ] ++
  map CommentLine (cycle_comments (cyc s)) ++
  [ MeasDelay "DELAY_HL" "clk" targ_name half half "RISE" "FALL" (t 4%nat) (t 4%nat);
    MeasDelay "DELAY_LH" "clk" targ_name half half "RISE" "RISE" (t 9%nat) (t 9%nat);
    MeasDelay "SLEW_HL" targ_name targ_name
      (0.9 * vdd_voltage (corner s))%Q (0.1 * vdd_voltage (corner s))%Q
      "FALL" "FALL" (t 4%nat) (t 4%nat);
    MeasDelay "SLEW_LH" targ_name targ_name
      (0.1 * vdd_voltage (corner s))%Q (0.9 * vdd_voltage (corner s))%Q
      "RISE" "RISE" (t 9%nat) (t 9%nat);
    MeasPower "WRITE0_POWER" (t 2%nat) (t 3%nat);
    MeasPower "WRITE1_POWER" (t 6%nat) (t 7%nat);
    MeasPower "READ0_POWER" (t 4%nat) (t 5%nat);
    MeasPower "READ1_POWER" (t 9%nat) (t 10%nat) ].

(** The state holds the cycle lists of the test program at its own period. *)
Definition has_test_cycles (s : delay) : Prop :=
  cycle_times (cyc s) = edge_times 11 0 (period s) /\ marks s = test_marks.

Definition power_measure_lines (s : delay) : list directive :=
  [ Text "* Measure statements for idle leakage power";
    MeasPower "leakage_power" (period s) (2 * period s)%Q ].

(** [check_arguments] only looks: it leaves the object as it is. *)
Definition args_ok (s : delay) : bool := is_ok (check_arguments s).

(** What [check_arguments] and [create_test_cycles] together demand. *)
Definition probe_ok (s : delay) : bool := args_ok s && valid_address s.

(** The object once [create_test_cycles] has run. *)
Definition with_test_cycles (s : delay) : delay :=
  set_marks test_marks
    (set_cyc (test_cycles (word_size s) (period s) (probe_address s)) s).

Definition delay_lines (s : delay) : list directive :=
  [ Line (Fmt "* Delay stimulus for period of {0}n load={1}fF slew={2}ns"
              [ANum (period s); ANum (load s); ANum (slew s)]);
    Include (trim_sp_file s) ] ++
  generic_lines s ++
  [ Text "* Generation of data and address signals" ] ++
  data_lines s ++ addr_lines s ++
  [ Text "* Generation of control signals" ] ++
  control_lines s ++
  [ Text "* Generation of global clock signal";
    Pulse "CLK" 0 (vdd_voltage (corner s)) (period s) (period s) (slew s) (slew s) ] ++
  measure_lines s ++
  [ Control (advance 10 0 (period s) + period s)%Q ].

Definition power_lines (trim : bool) (s : delay) : list directive :=
  [ Line (Fmt "* Power stimulus for period of {0}n" [ANum (period s)]);
    Include (if trim then trim_sp_file s else sim_sp_file s) ] ++
  generic_lines s ++
  [ Text "* Generation of data and address signals" ] ++
  map (fun i => Constant (pin "DIN" i) 0) (seq 0 (word_size s)) ++
  map (fun i => Constant (pin "A" i) 0) (seq 0 (addr_size s)) ++
  [ Text "* Generation of control signals";
    Constant "CSb" (vdd_voltage (corner s));
    Constant "WEb" (vdd_voltage (corner s));
    Constant "OEb" (vdd_voltage (corner s));
    Text "* Generation of global clock signal";
    Constant "CLK" 0 ] ++
  power_measure_lines s ++
  [ Control (2 * period s)%Q ].

(** The object once the stimulus file is open: the test program is built
    and the [stimuli] helper is bound to the corner. *)
Definition staged (s : delay) : delay :=
  set_stim (corner s) (with_test_cycles s).

(** The object once [write_delay_stimulus] has run. *)
Definition delay_written (s : delay) : delay :=
  set_sf (delay_lines (staged s)) (staged s).

(** The object once [write_power_stimulus] has run. *)
Definition power_written (trim : bool) (s : delay) : delay :=
  set_sf (power_lines trim (staged s)) (staged s).

(** ** Helpers of [charutils] and Python values of the orchestrator *)

(** Modelled from the spec: [relative_compare] of [charutils], which is not
    among the sources.  Two values are close when
    [|a - b| <= error_tolerance * max(|a|, |b|)]. *)
Definition relative_compare (value1 value2 error_tolerance : Q) : bool :=
  Qle_bool (Qabs (value1 - value2))
           (error_tolerance * Qmax (Qabs value1) (Qabs value2)).

(** [a > b] on floats. *)
Definition Qgtb (a b : Q) : bool := negb (Qle_bool a b).

(** [m * k] for a parsed value: the failure marker is a string, and a string
    times a float raises [TypeError]. *)
Definition scale (m : meas) (k : Q) : M Q :=
  match m with
  | Num q => ret (q * k)%Q
  | Failed => error "TypeError"
  end.

(** [d[key]] for a dict kept as the list of its items in insertion order. *)
Fixpoint dict_get (d : list (string * Q)) (key : string) : result Q :=
  match d with
  | [] => Fatal "KeyError"
  | (k, v) :: d' => if String.eqb k key then OK v else dict_get d' key
  end.

(** [max(l)]: [ValueError] on the empty list. *)
Definition py_max (l : list Q) : result Q :=
  match l with
  | [] => Fatal "ValueError"
  | x :: l' => OK (fold_left (fun m y => if Qgtb y m then y else m) l' x)
  end.

(** [needle in s] for strings. *)
Fixpoint contains (needle s : string) : bool :=
  String.prefix needle s ||
  match s with
  | EmptyString => false
  | String _ rest => contains needle rest
  end.

(** A value of the characterization table: a number or a list of numbers. *)
Inductive cval : Type :=
| Scalar (q : Q)
| Lst (l : list Q).

(** [char_data[k].append(v)]. *)
Definition dict_append (char_data : gmap string cval) (k : string) (v : Q)
    : result (gmap string cval) :=
  match char_data !! k with
  | Some (Lst l) => OK (<[k := Lst (l ++ [v])]> char_data)
  | Some (Scalar _) => Fatal "AttributeError"
  | None => Fatal "KeyError"
  end.

(** The power figure put in the table: the trimmed array's leakage out, the
    full array's leakage in. *)
Definition leakage_corrected (v trim_array_leakage full_array_leakage : Q) : Q :=
  (v - trim_array_leakage + full_array_leakage)%Q.

(** The loop over [delay_results.items()] in [analyze]. *)
Fixpoint append_results (trim_array_leakage full_array_leakage : Q)
    (delay_results : list (string * Q)) (char_data : gmap string cval)
    : result (gmap string cval) :=
  match delay_results with
  | [] => OK char_data
  | (k, v) :: rest =>
      match
        (if contains "power" k
         then dict_append char_data k
                (leakage_corrected v trim_array_leakage full_array_leakage)
         else dict_append char_data k v)
      with
      | OK char_data' =>
          append_results trim_array_leakage full_array_leakage rest char_data'
      | Fatal e => Fatal e
      end
  end.

(** A loop that threads a value: [for x in l: acc = body(acc, x)]. *)
Fixpoint foldM {A S} (body : S -> A -> M S) (l : list A) (acc : S) : M S :=
  match l with
  | [] => ret acc
  | x :: l' => acc' <- body acc x ;; foldM body l' acc'
  end.

(** The analytical models of the [sram] object handed to
    [analytical_delay]: [(delay, slew)] in ps and [(dynamic, leakage)] in nW. *)
Record sram_model : Type := SramModel {
  sram_analytical_delay : Q -> Q -> Q * Q;
  sram_analytical_power : string -> Q -> Q -> Q -> Q * Q
}.

(** ** The time keeping of the sequencer, over any number type *)

(** What a cycle does to [(t_current, cycle_times)]: the time stamp of the
    cycle is [t_current], which then advances by the period. *)
Definition keep_time {T} (add : T -> T -> T) (period : T) (st : T * list T)
    : T * list T :=
  (add (fst st) period, snd st ++ [fst st]).

(** [t_current] after [i] cycles: [i] additions of the period to zero, from
    the left. *)
Fixpoint time_after {T} (add : T -> T -> T) (zero period : T) (i : nat) : T :=
  match i with
  | O => zero
  | S i' => add (time_after add zero period i') period
  end.

(** [cycle_times] after [n] cycles from [t_current = 0] and no cycle. *)
Definition accumulated_times {T} (add : T -> T -> T) (zero period : T) (n : nat)
    : list T :=
  snd (Nat.iter n (keep_time add period) (zero, [])).

(** The time stamps of the eleven cycles of the test program in binary64,
    the arithmetic of the code. *)
Definition float_cycle_times (period : float) : list float :=
  accumulated_times PrimFloat.add 0%float period 11.

(** ** Predicates on the object *)

(** The probe points the stimulus writers accept: an address that is a
    non-empty string of ['0'] and ['1'] of the bus width, and a data bit that
    is an int from 0 to [word_size]. *)
Definition accepted_probe (s : delay) : Prop :=
  is_binary (probe_address s) = true /\
  probe_address s <> EmptyString /\
  String.length (probe_address s) = addr_size s /\
  exists d, probe_data s = PyInt d /\ (0 <= d <= Z.of_nat (word_size s))%Z.

(** The cycle lists hold [n] cycles for [w] data pins and [a] address pins:
    every control list and every stream has [n] entries. *)
Definition aligned (w a n : nat) (c : cycles) : Prop :=
  length (cycle_comments c) = n /\ length (cycle_times c) = n /\
  length (web_values c) = n /\ length (oeb_values c) = n /\
  length (csb_values c) = n /\
  length (data_values c) = w /\ Forall (fun v => length v = n) (data_values c) /\
  length (addr_values c) = a /\ Forall (fun v => length v = n) (addr_values c).

(** The values the pins of a bus carry in cycle [i]: [streams[k][i]] for
    every pin [k]. *)
Definition bus_at (streams : list (list Z)) (i : Z) : list (result Z) :=
  map (fun v => py_index v i) streams.

(** The bits of a string of ['0'] and ['1'], one per pin. *)
Definition bits_of (a : string) : list (result Z) :=
  map (fun c => OK (bit_of c)) (list_ascii_of_string a).

(** The lines written with a bare [sf.write] of a formatted string, among
    some lines of a stimulus. *)
Fixpoint formatted_lines (l : list directive) : list fstr :=
  match l with
  | [] => []
  | Line f :: l' => f :: formatted_lines l'
  | _ :: l' => formatted_lines l'
  end.

(** ** A test bench: a small SRAM and a mock simulator *)

(** The clock period a delay stimulus was written for: the period of its
    CLK pulse. *)
Fixpoint clk_period (l : list directive) : option Q :=
  match l with
  | [] => None
  | Pulse _ _ _ _ p _ _ :: _ => Some p
  | _ :: l' => clk_period l'
  end.

(** A mock simulator.  On a delay stimulus whose clock period is below
    [valid_from] every measurement fails; otherwise the delays are 0.15 ns
    below the period [slow_below] and 0.1 ns from it on, the slews 0.02 ns
    and the powers 0.42 mW.  On a power stimulus the leakage is 0.08 mW for
    the full netlist ["sram.sp"] and 0.05 mW for any other. *)
Definition mock (valid_from slow_below : Q) (st : stimulus) (key : string) : meas :=
  match clk_period (stim_lines st) with
  | Some p =>
      if Qle_bool valid_from p then
        if String.prefix "delay" key
        then (if Qle_bool slow_below p then Num 0.1e-9 else Num 0.15e-9)
        else if String.prefix "slew" key then Num 0.02e-9
        else Num 0.42e-3
      else Failed
  | None =>
      if String.eqb key "leakage_power"
      then (if existsb (fun d => match d with
                                 | Include f => String.eqb f "sram.sp"
                                 | _ => false
                                 end) (stim_lines st)
            then Num 0.08e-3 else Num 0.05e-3)
      else Failed
  end.

(** A freshly constructed object for an SRAM of one data bit and two
    address bits at the corner (TT, 1 V, 25 C): period, load and slew are 0
    and no probe is set. *)
Definition bench_sram : delay :=
  {| name := "sram"; word_size := 1; addr_size := 2; sp_file := "sram.sp";
     corner := {| process := "TT"; vdd_voltage := 1; temperature := 25 |};
     period := 0; load := 0; slew := 0;
     probe_address := ""; probe_data := PyOther "";
     trim_sp_file := ""; sim_sp_file := "";
     cyc := Cycles 0 [] [] [] [] [] [] [];
     marks := Marks 0 0 0 0 0;
     sf := []; stim := {| process := ""; vdd_voltage := 0; temperature := 0 |};
     sims := [] |}.

(** The same object with the probe point (address 11, bit 0) set and the
    load and slew of the single sweep point (1.0 fF, 0.05 ns). *)
Definition bench_probed : delay :=
  set_slew 0.05 (set_load 1 (set_trim_sp_file "reduced.sp"
    (set_sim_sp_file "sram.sp" (set_probe_fields "11" (PyInt 0) bench_sram)))).

(** The object a run leaves, and the value it returns. *)
Definition run_state {A} (r : result (A * delay)) : delay :=
  match r with OK (_, s) => s | Fatal _ => bench_sram end.

Definition run_value {A} (default : A) (r : result (A * delay)) : A :=
  match r with OK (a, _) => a | Fatal _ => default end.

(** An analytical model for the bench: the delay is the slew plus the load,
    the output slew is the input slew, and the dynamic power is the load
    (the leakage the supply voltage). *)
Definition bench_model : sram_model :=
  {| sram_analytical_delay := fun slew load => ((slew + load)%Q, slew);
     sram_analytical_power := fun _ vdd _ load => (load, vdd) |}.

(** A simulator whose delays and slews are 0.1 ns and whose power
    measurements fail. *)
Definition mock_no_power (st : stimulus) (key : string) : meas :=
  if String.prefix "delay" key || String.prefix "slew" key then Num 0.1e-9 else Failed.

(** A simulator that measures 0 under every name. *)
Definition mock_zero (st : stimulus) (key : string) : meas := Num 0.

(** * The simulator, the two searches and the orchestrator *)

Section Characterizer.

(** The simulator and the result parser: the value measured under a name
    when the simulator is run on a stimulus. *)
Variable spice : stimulus -> string -> meas.
(** [tech.spice["feasible_period"]]. *)
Variable tech_feasible_period : Q.
(** [round_time] of [charutils]. *)
Variable round_time : Q -> Q.
(** [OPTS.openram_temp] and [OPTS.trim_netlist]. *)
Variable openram_temp : string.
Variable trim_netlist : bool.

Definition set_load_slew (load slew : Q) : M unit :=
  modify (set_load load) ;; modify (set_slew slew).

(** [parse_spice_list(filename, key)] reads what the last simulation
    wrote. *)
Definition parse_spice_list (filename key : string) : M meas :=
  s <- get ;;
  match sims s with
  | st :: _ => ret (spice st key)
  | [] => error "no result file"
  end.

Definition check_valid_delays (delay_tuple : meas * meas * meas * meas) : M bool :=
  let '(delay_hl, delay_lh, slew_hl, slew_lh) := delay_tuple in
  s <- get ;;
  match delay_hl, delay_lh, slew_lh, slew_hl with
  | Num delay_hl, Num delay_lh, Num slew_lh, Num slew_hl =>
      let delay_hl := (delay_hl * 1e9)%Q in
      let delay_lh := (delay_lh * 1e9)%Q in
      let slew_hl := (slew_hl * 1e9)%Q in
      let slew_lh := (slew_lh * 1e9)%Q in
      if Qgtb delay_hl (period s) || Qgtb delay_lh (period s)
         || Qgtb slew_hl (period s) || Qgtb slew_lh (period s)
      then ret false
      else ret true
  | _, _, _, _ => ret false
  end.

Definition run_delay_simulation : M (bool * list (string * Q)) :=
  write_delay_stimulus ;;
  run_sim ;;
  delay_hl <- parse_spice_list "timing" "delay_hl" ;;
  delay_lh <- parse_spice_list "timing" "delay_lh" ;;
  slew_hl <- parse_spice_list "timing" "slew_hl" ;;
  slew_lh <- parse_spice_list "timing" "slew_lh" ;;
  let delays := (delay_hl, delay_lh, slew_hl, slew_lh) in
  read0_power <- parse_spice_list "timing" "read0_power" ;;
  write0_power <- parse_spice_list "timing" "write0_power" ;;
  read1_power <- parse_spice_list "timing" "read1_power" ;;
  write1_power <- parse_spice_list "timing" "write1_power" ;;
  valid <- check_valid_delays delays ;;
  if negb valid then ret (false, [])
  else
    delay_hl <- scale delay_hl 1e9 ;;
    delay_lh <- scale delay_lh 1e9 ;;
    slew_hl <- scale slew_hl 1e9 ;;
    slew_lh <- scale slew_lh 1e9 ;;
    read0_power <- scale read0_power 1e3 ;;
    read1_power <- scale read1_power 1e3 ;;
    write0_power <- scale write0_power 1e3 ;;
    write1_power <- scale write1_power 1e3 ;;
    ret (true, [ ("delay_hl", delay_hl); ("delay_lh", delay_lh);
                 ("slew_hl", slew_hl); ("slew_lh", slew_lh);
                 ("read0_power", read0_power); ("read1_power", read1_power);
                 ("write0_power", write0_power); ("write1_power", write1_power) ]).

Definition run_power_simulation : M (Q * Q) :=
  write_power_stimulus false ;;
  run_sim ;;
  leakage_power <- parse_spice_list "timing" "leakage_power" ;;
  check (match leakage_power with Failed => false | Num _ => true end)
        "Could not measure leakage power." ;;
  write_power_stimulus true ;;
  run_sim ;;
  trim_leakage_power <- parse_spice_list "timing" "leakage_power" ;;
  check (match trim_leakage_power with Failed => false | Num _ => true end)
        "Could not measure leakage power." ;;
  leakage_power <- scale leakage_power 1e3 ;;
  trim_leakage_power <- scale trim_leakage_power 1e3 ;;
  ret (leakage_power, trim_leakage_power).

(** The loop of [find_feasible_period]; [time_out] is the counter before
    its decrement. *)
Fixpoint feasible_period_loop (time_out : nat) (feasible_period : Q) : M (Q * Q) :=
  match time_out with
  | O => error "Timed out, could not find a feasible period."
  | S time_out =>
      if (time_out <=? 0)%nat
      then error "Timed out, could not find a feasible period."
      else
        modify (set_period feasible_period) ;;
        r <- run_delay_simulation ;;
        let '(success, results) := r in
        if negb success
        then feasible_period_loop time_out (2 * feasible_period)%Q
        else
          feasible_delay_lh <- lift (dict_get results "delay_lh") ;;
          feasible_slew_lh <- lift (dict_get results "slew_lh") ;;
          feasible_delay_hl <- lift (dict_get results "delay_hl") ;;
          feasible_slew_hl <- lift (dict_get results "slew_hl") ;;
          modify (set_period feasible_period) ;;
          ret (feasible_delay_lh, feasible_delay_hl)
  end.

Definition find_feasible_period : M (Q * Q) :=
  feasible_period_loop 8 tech_feasible_period.

Definition try_period (feasible_delay_lh feasible_delay_hl : Q) : M bool :=
  write_delay_stimulus ;;
  run_sim ;;
  delay_hl <- parse_spice_list "timing" "delay_hl" ;;
  delay_lh <- parse_spice_list "timing" "delay_lh" ;;
  slew_hl <- parse_spice_list "timing" "slew_hl" ;;
  slew_lh <- parse_spice_list "timing" "slew_lh" ;;
  s <- get ;;
  match delay_hl, delay_lh, slew_lh, slew_hl with
  | Num delay_hl, Num delay_lh, Num slew_lh, Num slew_hl =>
      let delay_hl := (delay_hl * 1e9)%Q in
      let delay_lh := (delay_lh * 1e9)%Q in
      let slew_hl := (slew_hl * 1e9)%Q in
      let slew_lh := (slew_lh * 1e9)%Q in
      if Qgtb delay_hl (period s) || Qgtb delay_lh (period s)
         || Qgtb slew_hl (period s) || Qgtb slew_lh (period s)
      then ret false
      else if negb (relative_compare delay_lh feasible_delay_lh 0.05) then ret false
      else if negb (relative_compare delay_hl feasible_delay_hl 0.05) then ret false
      else ret true
  | _, _, _, _ => ret false
  end.

(** The loop of [find_min_period]; [time_out] is the counter before its
    decrement. *)
Fixpoint min_period_loop (time_out : nat) (feasible_delay_lh feasible_delay_hl : Q)
    (ub_period lb_period : Q) : M Q :=
  match time_out with
  | O => error "Timed out, could not converge on minimum period."
  | S time_out =>
      if (time_out <=? 0)%nat
      then error "Timed out, could not converge on minimum period."
      else
        let target_period := (0.5 * (ub_period + lb_period))%Q in
        modify (set_period target_period) ;;
        ok <- try_period feasible_delay_lh feasible_delay_hl ;;
        let ub_period := if ok then target_period else ub_period in
        let lb_period := if ok then lb_period else target_period in
        if relative_compare ub_period lb_period 0.05
        then ret ub_period
        else min_period_loop time_out feasible_delay_lh feasible_delay_hl
                             ub_period lb_period
  end.

Definition find_min_period (feasible_delay_lh feasible_delay_hl : Q) : M Q :=
  s <- get ;;
  min_period_loop 25 feasible_delay_lh feasible_delay_hl (period s) 0.

(** The trimming collaborator itself is outside the model: only the file
    names it leaves are kept. *)
Definition prepare_netlist : M unit :=
  (if trim_netlist
   then modify (set_trim_sp_file (openram_temp +:+ "reduced.sp"))
   else modify (set_trim_sp_file (openram_temp +:+ "sram.sp"))) ;;
  modify (set_sim_sp_file (openram_temp +:+ "sram.sp")).

Definition set_probe (probe_address : string) (probe_data : pyval) : M unit :=
  modify (set_probe_fields probe_address probe_data) ;;
  prepare_netlist.

Definition measurement_names : list string :=
  [ "delay_lh"; "delay_hl"; "slew_lh"; "slew_hl"; "read0_power";
    "read1_power"; "write0_power"; "write1_power"; "leakage_power" ]%string.

(** Step 4 of [analyze]: the two nested loops. *)
Definition sweep (trim_array_leakage full_array_leakage : Q)
    (slews loads : list Q) (char_data : gmap string cval)
    : M (gmap string cval) :=
  foldM (fun char_data slew =>
    foldM (fun char_data load =>
      set_load_slew load slew ;;
      r <- run_delay_simulation ;;
      let '(success, delay_results) := r in
      check success "Couldn't run a simulation." ;;
      lift (append_results trim_array_leakage full_array_leakage
                           delay_results char_data))
      loads char_data)
    slews char_data.

Definition analyze (probe_address : string) (probe_data : pyval)
    (slews loads : list Q) : M (gmap string cval) :=
  let char_data : gmap string cval := ∅ in
  set_probe probe_address probe_data ;;
  max_load <- lift (py_max loads) ;;
  modify (set_load max_load) ;;
  max_slew <- lift (py_max slews) ;;
  modify (set_slew max_slew) ;;
  feasible <- find_feasible_period ;;
  let '(feasible_delay_lh, feasible_delay_hl) := feasible in
  check (Qgtb feasible_delay_lh 0) "Negative delay may not be possible" ;;
  check (Qgtb feasible_delay_hl 0) "Negative delay may not be possible" ;;
  max_load <- lift (py_max loads) ;;
  max_slew <- lift (py_max slews) ;;
  set_load_slew max_load max_slew ;;
  min_period <- find_min_period feasible_delay_lh feasible_delay_hl ;;
  let char_data := <["min_period" := Scalar (round_time min_period)]> char_data in
  let char_data :=
    fold_left (fun cd m => <[m := Lst []]> cd) measurement_names char_data in
  leak <- run_power_simulation ;;
  let '(full_array_leakage, trim_array_leakage) := leak in
  let char_data := <["leakage_power" := Scalar full_array_leakage]> char_data in
  sweep trim_array_leakage full_array_leakage slews loads char_data.

(** The loops of [analytical_delay] thread the four lists and the loop
    variable [load], which the code reads after the loops. *)
Definition analytical_delay (sram : sram_model) (slews loads : list Q)
    : M (gmap string cval) :=
  acc <- foldM (fun acc slew' =>
           foldM (fun acc load' =>
             let '(delay_lh, delay_hl, slew_lh, slew_hl, _) := acc in
             set_load_slew load' slew' ;;
             s <- get ;;
             let bank_delay := sram_analytical_delay sram (slew s) (load s) in
             ret (delay_lh ++ [(fst bank_delay / 1e3)%Q],
                  delay_hl ++ [(fst bank_delay / 1e3)%Q],
                  slew_lh ++ [(snd bank_delay / 1e3)%Q],
                  slew_hl ++ [(snd bank_delay / 1e3)%Q],
                  Some load'))
             loads acc)
           slews ([], [], [], [], None) ;;
  let '(delay_lh, delay_hl, slew_lh, slew_hl, last_load) := acc in
  match last_load with
  | None => error "NameError: name 'load' is not defined"
  | Some load =>
      s <- get ;;
      let power := sram_analytical_power sram (process (corner s))
                     (vdd_voltage (corner s)) (temperature (corner s)) load in
      let dynamic := (fst power / 1e6)%Q in
      let leakage := (snd power / 1e6)%Q in
      ret (<["leakage_power" := Scalar leakage]>
          (<["write1_power" := Scalar dynamic]>
          (<["write0_power" := Scalar dynamic]>
          (<["read1_power" := Scalar dynamic]>
          (<["read0_power" := Scalar dynamic]>
          (<["slew_hl" := Lst slew_hl]>
          (<["slew_lh" := Lst slew_lh]>
          (<["delay_hl" := Lst delay_hl]>
          (<["delay_lh" := Lst delay_lh]>
          (<["min_period" := Scalar 0]> ∅))))))))))
  end.

(** *** Closed forms of one simulation *)

(** The fields a stimulus is built from. *)
Definition inputs (s : delay) :=
  (name s, word_size s, addr_size s, corner s, period s, load s, slew s,
   probe_address s, probe_data s, trim_sp_file s, sim_sp_file s).

(** The stimulus [write_delay_stimulus] writes for the object [s]. *)
Definition delay_stimulus (s : delay) : stimulus :=
  Stimulus (corner s) (delay_lines (staged s)).

(** The stimulus [write_power_stimulus] writes for the object [s]. *)
Definition power_stimulus (trim : bool) (s : delay) : stimulus :=
  Stimulus (corner s) (power_lines trim (staged s)).

(** The object once [write_delay_stimulus] and [run_sim] have run. *)
Definition simulated (s : delay) : delay :=
  set_sims (delay_stimulus s :: sims s) (delay_written s).

(** The object once [write_power_stimulus] and [run_sim] have run. *)
Definition power_simulated (trim : bool) (s : delay) : delay :=
  set_sims (power_stimulus trim s :: sims s) (power_written trim s).

(** The test of [check_valid_delays] on four parsed values. *)
Definition delays_valid (period : Q) (delay_hl delay_lh slew_hl slew_lh : meas) : bool :=
  match delay_hl, delay_lh, slew_lh, slew_hl with
  | Num delay_hl, Num delay_lh, Num slew_lh, Num slew_hl =>
      negb (Qgtb (delay_hl * 1e9) period || Qgtb (delay_lh * 1e9) period
            || Qgtb (slew_hl * 1e9) period || Qgtb (slew_lh * 1e9) period)
  | _, _, _, _ => false
  end.

(** What [run_delay_simulation] returns for the object [s]. *)
Definition delay_outcome (s : delay) : result (bool * list (string * Q)) :=
  let m := spice (delay_stimulus s) in
  if negb (delays_valid (period s) (m "delay_hl") (m "delay_lh")
                        (m "slew_hl") (m "slew_lh"))
  then OK (false, [])
  else
    match m "delay_hl", m "delay_lh", m "slew_hl", m "slew_lh",
          m "read0_power", m "read1_power", m "write0_power", m "write1_power" with
    | Num delay_hl, Num delay_lh, Num slew_hl, Num slew_lh,
      Num read0_power, Num read1_power, Num write0_power, Num write1_power =>
        OK (true, [ ("delay_hl", delay_hl * 1e9); ("delay_lh", delay_lh * 1e9);
                    ("slew_hl", slew_hl * 1e9); ("slew_lh", slew_lh * 1e9);
                    ("read0_power", read0_power * 1e3);
                    ("read1_power", read1_power * 1e3);
                    ("write0_power", write0_power * 1e3);
                    ("write1_power", write1_power * 1e3) ])%Q
    | _, _, _, _, _, _, _, _ => Fatal "TypeError"
    end.

(** The test of [try_period] for the object [s]. *)
Definition period_ok (feasible_delay_lh feasible_delay_hl : Q) (s : delay) : bool :=
  let m := spice (delay_stimulus s) in
  match m "delay_hl", m "delay_lh", m "slew_lh", m "slew_hl" with
  | Num delay_hl, Num delay_lh, Num slew_lh, Num slew_hl =>
      negb (Qgtb (delay_hl * 1e9) (period s) || Qgtb (delay_lh * 1e9) (period s)
            || Qgtb (slew_hl * 1e9) (period s) || Qgtb (slew_lh * 1e9) (period s))
      && relative_compare (delay_lh * 1e9) feasible_delay_lh 0.05
      && relative_compare (delay_hl * 1e9) feasible_delay_hl 0.05
  | _, _, _, _ => false
  end.

(** The period of attempt [k] of the feasibility search that starts at
    [p]: doubled [k] times. *)
Fixpoint doubled (k : nat) (p : Q) : Q :=
  match k with
  | O => p
  | S k' => doubled k' (2 * p)%Q
  end.

(** The validity test of [run_delay_simulation] at period [p]. *)
Definition attempt_valid (s : delay) (p : Q) : bool :=
  let st := delay_stimulus (set_period p s) in
  delays_valid p (spice st "delay_hl") (spice st "delay_lh")
                 (spice st "slew_hl") (spice st "slew_lh").

(** *** The sweep of [analyze] *)

(** The keys of the dict [run_delay_simulation] returns. *)
Definition result_keys : list string :=
  [ "delay_hl"; "delay_lh"; "slew_hl"; "slew_lh";
    "read0_power"; "read1_power"; "write0_power"; "write1_power" ]%string.

(** The entry that one simulation adds to column [k] of the table: a delay
    or a slew in ns as measured, a power in mW with the leakage replaced. *)
Definition column_entry (trim_array_leakage full_array_leakage : Q)
    (k : string) (st : stimulus) : option Q :=
  match spice st k with
  | Num raw =>
      Some (if contains "power" k
            then leakage_corrected (raw * 1e3) trim_array_leakage full_array_leakage
            else (raw * 1e9)%Q)
  | Failed => None
  end.

(** [cd'] is [cd] with one entry per stimulus of [stims] appended to each
    column of [result_keys], and nothing else changed. *)
Definition table_extends (trim_array_leakage full_array_leakage : Q)
    (cd cd' : gmap string cval) (stims : list stimulus) : Prop :=
  (forall k, In k result_keys ->
     forall l, cd !! k = Some (Lst l) ->
     exists vals,
       cd' !! k = Some (Lst (l ++ vals)) /\
       map (column_entry trim_array_leakage full_array_leakage k) stims = map Some vals) /\
  (forall k, ~ In k result_keys -> cd' !! k = cd !! k).

(** Every column of [result_keys] is a list. *)
Definition has_columns (cd : gmap string cval) : Prop :=
  forall k, In k result_keys -> exists l, cd !! k = Some (Lst l).

(** The (slew, load) pairs in the order the two loops visit them: slew is
    the outer loop, load the inner one. *)
Definition sweep_pairs (slews loads : list Q) : list (Q * Q) :=
  flat_map (fun slew => map (fun load => (slew, load)) loads) slews.

(** The stimulus of the sweep point [(slew, load)] for the object [s]. *)
Definition sweep_stimulus (s : delay) (point : Q * Q) : stimulus :=
  delay_stimulus (set_slew (fst point) (set_load (snd point) s)).

(** Two objects that differ at most in load, slew and what a simulation
    rebuilds. *)
Definition same_setup (s s' : delay) : Prop :=
  forall l sl, inputs (set_slew sl (set_load l s')) = inputs (set_slew sl (set_load l s)).

(** Two objects that differ at most in the period and what a simulation
    rebuilds. *)
Definition same_probe (s s' : delay) : Prop :=
  forall p, inputs (set_period p s') = inputs (set_period p s).

(** *** The orchestrator *)

(** The table of [analyze] when the sweep starts. *)
Definition initial_table (min_period full_array_leakage : Q) : gmap string cval :=
  <["leakage_power" := Scalar full_array_leakage]>
    (fold_left (fun cd m => <[m := Lst []]> cd) measurement_names
       (<["min_period" := Scalar (round_time min_period)]> ∅)).

(** The object once [set_probe] has run. *)
Definition probed (probe_address : string) (probe_data : pyval) (s : delay) : delay :=
  set_sim_sp_file (openram_temp +:+ "sram.sp")
    (set_trim_sp_file (openram_temp +:+ (if trim_netlist then "reduced.sp" else "sram.sp"))
       (set_probe_fields probe_address probe_data s)).

(** *** The cycle sequencer and the stimulus files *)

(** The power-measurement windows among some lines of a stimulus. *)
Fixpoint power_windows (l : list directive) : list (string * Q * Q) :=
  match l with
  | [] => []
  | MeasPower n a b :: l' => (n, a, b) :: power_windows l'
  | _ :: l' => power_windows l'
  end.

(** The window [[cycle_times[i], cycle_times[i+1]]] named [n]. *)
Definition window_at (c : cycles) (n : string) (i : Z) : result (string * Q * Q) :=
  match py_index (cycle_times c) i, py_index (cycle_times c) (i + 1) with
  | OK a, OK b => OK (n, a, b)
  | Fatal e, _ => Fatal e
  | _, Fatal e => Fatal e
  end.

(** *** The analytical fallback *)

(** The loop variable [load] after the inner loop over [loads]. *)
Definition load_after (loads : list Q) (before : option Q) : option Q :=
  match last loads with
  | Some l => Some l
  | None => before
  end.

(** The entries of the analytical delay and slew columns, in ns. *)
Definition analytical_delays (sram : sram_model) (slews loads : list Q) : list Q :=
  map (fun point => (fst (sram_analytical_delay sram (fst point) (snd point)) / 1e3)%Q)
      (sweep_pairs slews loads).

Definition analytical_slews (sram : sram_model) (slews loads : list Q) : list Q :=
  map (fun point => (snd (sram_analytical_delay sram (fst point) (snd point)) / 1e3)%Q)
      (sweep_pairs slews loads).

Fixpoint load_after_sweep (slews loads : list Q) (before : option Q) : option Q :=
  match slews with
  | [] => before
  | _ :: slews' => load_after_sweep slews' loads (load_after loads before)
  end.

(** * Properties *)

Lemma is_bit_cases c : is_bit c = true -> c = "0"%char \/ c = "1"%char.
Proof.
  unfold is_bit. intros H. apply orb_true_iff in H as [H|H];
    apply Ascii.eqb_eq in H; auto.
Qed.

Lemma length_string_map f s : String.length (string_map f s) = String.length s.
Proof. induction s; simpl; congruence. Qed.

Lemma chars_string_map f s :
  list_ascii_of_string (string_map f s) = map f (list_ascii_of_string s).
Proof. induction s; simpl; congruence. Qed.

Lemma length_chars s : length (list_ascii_of_string s) = String.length s.
Proof. induction s; simpl; congruence. Qed.

Lemma length_string_repeat c n : String.length (string_repeat c n) = n.
Proof. induction n; simpl; congruence. Qed.

Lemma chars_string_repeat c n :
  list_ascii_of_string (string_repeat c n) = replicate n c.
Proof. induction n; simpl; congruence. Qed.

Lemma is_binary_string_repeat c n : is_bit c = true -> is_binary (string_repeat c n) = true.
Proof. intros H. induction n; simpl; [reflexivity | now rewrite H]. Qed.

Lemma is_binary_flip s : is_binary s = true -> is_binary (string_map flip_char s) = true.
Proof.
  induction s as [|c s IH]; simpl; [reflexivity|].
  intros H. apply andb_true_iff in H as [Hc Hs].
  rewrite (IH Hs), andb_true_r.
  destruct (is_bit_cases _ Hc); subst; reflexivity.
Qed.

Lemma invert_address_ok a :
  is_binary a = true -> invert_address a = OK (string_map flip_char a).
Proof.
  induction a as [|c a IH]; simpl; [reflexivity|].
  intros H. apply andb_true_iff in H as [Hc Ha].
  rewrite (IH Ha).
  destruct (is_bit_cases _ Hc); subst; reflexivity.
Qed.

Lemma invert_address_binary a r : invert_address a = OK r -> is_binary a = true.
Proof.
  revert r. induction a as [|c a IH]; simpl; [reflexivity|].
  intros r. unfold is_bit.
  destruct (Ascii.eqb c "0"); simpl.
  - destruct (invert_address a); [eauto | discriminate].
  - destruct (Ascii.eqb c "1"); simpl; [|discriminate].
    destruct (invert_address a); [eauto | discriminate].
Qed.

(** The loop of [add_data]/[add_address] on a binary string as long as the
    streams that remain: stream [j] gets the bit of character [j]. *)
Lemma append_bits_binary msg bits :
  forall (pre vals : list (list Z)),
    is_binary bits = true ->
    String.length bits = length vals ->
    append_bits msg bits (length pre) (pre ++ vals) =
    OK (pre ++ zip_with (fun v c => v ++ [bit_of c]) vals (list_ascii_of_string bits)).
Proof.
  induction bits as [|c bits IH]; intros pre vals Hb Hl.
  - destruct vals; [|discriminate]. reflexivity.
  - destruct vals as [|v vals]; [discriminate|].
    simpl in Hb. apply andb_true_iff in Hb as [Hc Hb].
    simpl in Hl. injection Hl as Hl.
    assert (Hlook : (pre ++ v :: vals) !! length pre = Some v)
      by apply list_lookup_middle, eq_refl.
    assert (Hins : forall x, <[length pre := x]> (pre ++ v :: vals) = (pre ++ [x]) ++ vals).
    { intros x. rewrite insert_app_r_alt by lia.
      rewrite Nat.sub_diag. simpl. now rewrite <- app_assoc. }
    assert (Hlen : forall x : list Z, S (length pre) = length (pre ++ [x])).
    { intros x. rewrite length_app. simpl. lia. }
    destruct (is_bit_cases _ Hc); subst c; simpl; rewrite Hlook, Hins.
    + rewrite (Hlen (v ++ [0%Z])), (IH _ vals Hb Hl), <- app_assoc. reflexivity.
    + rewrite (Hlen (v ++ [1%Z])), (IH _ vals Hb Hl), <- app_assoc. reflexivity.
Qed.

Lemma append_bits_all msg bits (vals : list (list Z)) :
  is_binary bits = true ->
  String.length bits = length vals ->
  append_bits msg bits 0 vals =
  OK (zip_with (fun v c => v ++ [bit_of c]) vals (list_ascii_of_string bits)).
Proof. intros Hb Hl. apply (append_bits_binary msg bits [] vals Hb Hl). Qed.

Lemma append_bits_is_binary msg bits :
  forall index vals r, append_bits msg bits index vals = OK r -> is_binary bits = true.
Proof.
  induction bits as [|c bits IH]; intros index vals r; simpl; [reflexivity|].
  unfold is_bit.
  destruct (Ascii.eqb c "0"); simpl.
  - destruct (vals !! index); [eauto | discriminate].
  - destruct (Ascii.eqb c "1"); simpl; [|discriminate].
    destruct (vals !! index); [eauto | discriminate].
Qed.

Lemma zip_with_replicate {A B C} (f : A -> B -> C) n a b :
  zip_with f (replicate n a) (replicate n b) = replicate n (f a b).
Proof. induction n; simpl; congruence. Qed.

Lemma zip_with_map_map {A B C D} (g : B -> C -> D) (f : A -> B) (h : A -> C) l :
  zip_with g (map f l) (map h l) = map (fun x => g (f x) (h x)) l.
Proof. induction l; simpl; congruence. Qed.

Lemma add_data_ok s w c l :
  w = word_size s ->
  is_bit c = true ->
  data_values (cyc s) = replicate w l ->
  add_data (string_repeat c w) s =
  OK (tt, set_cyc (set_data_values (replicate w (l ++ [bit_of c])) (cyc s)) s).
Proof.
  intros -> Hc Hd. unfold add_data, bind, get, check.
  rewrite length_string_repeat, Nat.eqb_refl. unfold ret, lift, modify.
  rewrite append_bits_all, Hd, chars_string_repeat, zip_with_replicate.
  - reflexivity.
  - now apply is_binary_string_repeat.
  - now rewrite length_string_repeat, Hd, length_replicate.
Qed.

Lemma add_address_ok s (f : ascii -> list Z) (h : ascii -> ascii) a b :
  is_binary b = true ->
  String.length b = addr_size s ->
  list_ascii_of_string b = map h (list_ascii_of_string a) ->
  addr_values (cyc s) = map f (list_ascii_of_string a) ->
  add_address b s =
  OK (tt, set_cyc (set_addr_values
                     (map (fun x => f x ++ [bit_of (h x)]) (list_ascii_of_string a))
                     (cyc s)) s).
Proof.
  intros Hb Hl Hh Ha. unfold add_address, bind, get, check.
  rewrite Hl, Nat.eqb_refl. unfold ret, lift, modify.
  rewrite append_bits_all, Ha, Hh, zip_with_map_map.
  - reflexivity.
  - exact Hb.
  - rewrite Ha, length_map, <- (length_map h), <- Hh, length_chars. reflexivity.
Qed.

(** One cycle of the test program: the common start, then the data word
    [c * word_size] and the address [b]. *)
Lemma cycle_ok (n : delay -> nat) comment web oeb csb s c l f h a b :
  is_bit c = true ->
  is_binary b = true ->
  String.length b = addr_size s ->
  list_ascii_of_string b = map h (list_ascii_of_string a) ->
  data_values (cyc s) = replicate (word_size s) l ->
  addr_values (cyc s) = map f (list_ascii_of_string a) ->
  (modify (fun s => start_cycle (n s) comment web oeb csb s) ;;
   add_data (string_repeat c (word_size s)) ;;
   add_address b) s =
  OK (tt, set_cyc
            {| t_current := (t_current (cyc s) + period s)%Q;
               cycle_comments :=
                 cycle_comments (cyc s) ++ [cycle_comment (n s) (t_current (cyc s)) comment];
               cycle_times := cycle_times (cyc s) ++ [t_current (cyc s)];
               web_values := web_values (cyc s) ++ [web];
               oeb_values := oeb_values (cyc s) ++ [oeb];
               csb_values := csb_values (cyc s) ++ [csb];
               data_values := replicate (word_size s) (l ++ [bit_of c]);
               addr_values :=
                 map (fun x => f x ++ [bit_of (h x)]) (list_ascii_of_string a) |} s).
Proof.
  intros Hc Hb Hl Hh Hd Ha.
  unfold bind at 1. unfold modify at 1. cbv beta iota. unfold bind at 1.
  rewrite (add_data_ok (start_cycle (n s) comment web oeb csb s) (word_size s) c l
             eq_refl Hc Hd).
  cbv beta iota.
  etransitivity;
    [ apply (add_address_ok _ f h a b Hb); [exact Hl | exact Hh | exact Ha]
    | reflexivity ].
Qed.

Lemma valid_address_spec s :
  valid_address s = true <->
  is_binary (probe_address s) = true /\ String.length (probe_address s) = addr_size s.
Proof.
  unfold valid_address. rewrite andb_true_iff, Nat.eqb_eq. reflexivity.
Qed.

Lemma bind_ok {A B} (m : M A) (k : A -> M B) s a s' r :
  m s = OK (a, s') -> k a s' = r -> bind m k s = r.
Proof. intros Hm Hk. unfold bind. now rewrite Hm. Qed.

Lemma chars_addr_of scratch a :
  list_ascii_of_string (addr_of scratch a) =
  map (fun c => if scratch then flip_char c else c) (list_ascii_of_string a).
Proof.
  destruct scratch; simpl; [apply chars_string_map | symmetry; apply map_id].
Qed.

Lemma is_binary_addr_of scratch a : is_binary a = true -> is_binary (addr_of scratch a) = true.
Proof. destruct scratch; simpl; [apply is_binary_flip | trivial]. Qed.

Lemma length_addr_of scratch a : String.length (addr_of scratch a) = String.length a.
Proof. destruct scratch; simpl; [apply length_string_map | trivial]. Qed.

Lemma test_cycle_ok (n : delay -> nat) comment web oeb csb scratch s w c l f a :
  w = word_size s ->
  is_bit c = true ->
  is_binary a = true ->
  String.length a = addr_size s ->
  data_values (cyc s) = replicate w l ->
  addr_values (cyc s) = map f (list_ascii_of_string a) ->
  (modify (fun s => start_cycle (n s) comment web oeb csb s) ;;
   add_data (string_repeat c w) ;;
   add_address (addr_of scratch a)) s =
  OK (tt, set_cyc
            {| t_current := (t_current (cyc s) + period s)%Q;
               cycle_comments :=
                 cycle_comments (cyc s) ++ [cycle_comment (n s) (t_current (cyc s)) comment];
               cycle_times := cycle_times (cyc s) ++ [t_current (cyc s)];
               web_values := web_values (cyc s) ++ [web];
               oeb_values := oeb_values (cyc s) ++ [oeb];
               csb_values := csb_values (cyc s) ++ [csb];
               data_values := replicate w (l ++ [bit_of c]);
               addr_values :=
                 map (fun x => f x ++ [bit_at scratch x]) (list_ascii_of_string a) |} s).
Proof.
  intros -> Hc Hb Hl Hd Ha.
  apply (cycle_ok n comment web oeb csb s c l f _ a (addr_of scratch a)); auto.
  - now apply is_binary_addr_of.
  - now rewrite length_addr_of.
  - apply chars_addr_of.
Qed.

Lemma replicate_length_map {A B} (l : list A) (x : B) :
  replicate (length l) x = map (fun _ => x) l.
Proof. induction l; simpl; congruence. Qed.

Ltac norm_state :=
  cbn [name word_size addr_size sp_file corner period load slew probe_address
       probe_data trim_sp_file sim_sp_file cyc marks sf stim sims
       t_current cycle_comments cycle_times web_values oeb_values csb_values
       data_values addr_values write0_cycle read0_cycle idle_cycle write1_cycle
       read1_cycle set_cyc set_marks set_write0_cycle set_read0_cycle
       set_idle_cycle set_write1_cycle set_read1_cycle last_cycle
       app length].

Ltac step_cycle scratch :=
  eapply bind_ok;
  [ first [ unfold add_noop | unfold add_read | unfold add_write ];
    eapply (test_cycle_ok _ _ _ _ _ scratch);
    [ reflexivity | reflexivity | eassumption | eassumption | reflexivity | reflexivity ]
  | cbv beta; norm_state ].

Ltac step_mark := eapply bind_ok; [ reflexivity | cbv beta; norm_state ].

(** The test program on a valid probe address: it cannot fail, and the cycle
    lists and the remembered indices are the closed form above. *)
Lemma create_test_cycles_ok s :
  valid_address s = true ->
  create_test_cycles s =
  OK (tt, set_marks test_marks
            (set_cyc (test_cycles (word_size s) (period s) (probe_address s)) s)).
Proof.
  intros Hv. apply valid_address_spec in Hv as [Hb Hl].
  unfold create_test_cycles.
  eapply bind_ok; [reflexivity|]. cbv beta.
  eapply bind_ok; [reflexivity|]. cbv beta.
  change (word_size (set_cyc _ s)) with (word_size s).
  change (probe_address (set_cyc _ s)) with (probe_address s).
  eapply bind_ok.
  { unfold lift. rewrite (invert_address_ok _ Hb). reflexivity. }
  cbv beta zeta.
  rewrite <- Hl, <- length_chars, replicate_length_map.
  step_cycle true. step_cycle true. step_cycle false. step_mark.
  step_cycle true. step_cycle false. step_mark.
  step_cycle true. step_mark.
  step_cycle false. step_mark.
  step_cycle true. step_cycle true. step_cycle false. step_mark.
  unfold add_noop.
  etransitivity.
  { eapply (test_cycle_ok _ _ _ _ _ false);
    [ reflexivity | reflexivity | eassumption | eassumption | reflexivity | reflexivity ]. }
  reflexivity.
Qed.

Lemma bind_inv {A B} (m : M A) (k : A -> M B) s r :
  bind m k s = OK r -> exists a s', m s = OK (a, s') /\ k a s' = OK r.
Proof.
  unfold bind. destruct (m s) as [[a s']|e]; [eauto | discriminate].
Qed.

Lemma add_data_inv d s r :
  add_data d s = OK r -> exists v, r = (tt, set_cyc (set_data_values v (cyc s)) s).
Proof.
  unfold add_data, bind, get, check, lift, modify, ret, error.
  destruct (String.length d =? word_size s)%nat; [|discriminate].
  destruct (append_bits _ d 0 _); [|discriminate].
  intros [= <-]. eauto.
Qed.

Lemma add_address_inv b s r :
  add_address b s = OK r -> is_binary b = true /\ String.length b = addr_size s.
Proof.
  unfold add_address, bind, get, check, lift, modify, ret, error.
  destruct (String.length b =? addr_size s)%nat eqn:El; [|discriminate].
  destruct (append_bits _ b 0 _) eqn:Eb; [|discriminate].
  intros _. split; [eapply append_bits_is_binary, Eb | now apply Nat.eqb_eq].
Qed.

(** The test program succeeds only on a valid probe address. *)
Lemma create_test_cycles_valid s r :
  create_test_cycles s = OK r -> valid_address s = true.
Proof.
  unfold create_test_cycles. intros H.
  apply bind_inv in H as (u1 & s1 & [= <- <-] & H1).
  apply bind_inv in H1 as (s2 & s3 & [= <- <-] & H2).
  apply bind_inv in H2 as (inv & s4 & Hinv & H3).
  unfold lift in Hinv.
  change (probe_address (set_cyc _ s)) with (probe_address s) in Hinv.
  destruct (invert_address (probe_address s)) as [inv'|] eqn:Ei; [|discriminate].
  injection Hinv as <- <-.
  pose proof (invert_address_binary _ _ Ei) as Hb.
  rewrite (invert_address_ok _ Hb) in Ei. injection Ei as <-.
  apply bind_inv in H3 as ([] & s5 & Hnoop & _).
  unfold add_noop in Hnoop.
  apply bind_inv in Hnoop as (u6 & s6 & [= <- <-] & Hnoop1).
  apply bind_inv in Hnoop1 as ([] & s7 & Hd & Ha).
  apply add_data_inv in Hd as (v & [= ->]).
  apply add_address_inv in Ha as [_ Hl].
  rewrite length_string_map in Hl.
  apply valid_address_spec. split; [exact Hb | exact Hl].
Qed.

Lemma create_test_cycles_invalid s :
  valid_address s = false -> exists e, create_test_cycles s = Fatal e.
Proof.
  intros Hv. destruct (create_test_cycles s) as [r|e] eqn:E; [|eauto].
  apply create_test_cycles_valid in E. congruence.
Qed.

Lemma set_sf_id s : set_sf (sf s) s = s.
Proof. destruct s; reflexivity. Qed.

Lemma for_each_emit {A} (f : A -> directive) (l : list A) s :
  for_each l (fun x => emit (f x)) s = OK (tt, set_sf (sf s ++ map f l) s).
Proof.
  revert s. induction l as [|x l IH]; intros s; simpl.
  - unfold ret. now rewrite app_nil_r, set_sf_id.
  - unfold bind, emit, modify. rewrite IH.
    cbn [sf set_sf]. rewrite <- app_assoc. reflexivity.
Qed.

(** Element [i] of a list that is long enough. *)
Lemma py_index_middle {A} (l1 l2 : list A) x :
  py_index (l1 ++ x :: l2) (Z.of_nat (length l1)) = OK x.
Proof.
  assert (E : (Z.of_nat (length l1) <? 0)%Z = false) by (apply Z.ltb_ge; lia).
  unfold py_index. cbv zeta. rewrite E, E.
  rewrite Nat2Z.id, list_lookup_middle by reflexivity. reflexivity.
Qed.

Lemma for_each_emit_index {A} (f : nat -> A -> directive) (l1 l2 : list A) s :
  for_each (seq (length l1) (length l2))
    (fun i => v <- lift (py_index (l1 ++ l2) (Z.of_nat i)) ;; emit (f i v)) s =
  OK (tt, set_sf (sf s ++ imap (fun i => f (length l1 + i)%nat) l2) s).
Proof.
  revert l1 s. induction l2 as [|x l2 IH]; intros l1 s; simpl.
  - unfold ret. now rewrite app_nil_r, set_sf_id.
  - unfold bind at 1. unfold bind at 1. unfold lift at 1.
    rewrite py_index_middle. unfold emit at 1, modify at 1.
    replace (l1 ++ x :: l2) with ((l1 ++ [x]) ++ l2) by now rewrite <- app_assoc.
    replace (S (length l1)) with (length (l1 ++ [x])) by (rewrite length_app; simpl; lia).
    rewrite IH. cbn [sf set_sf]. rewrite <- app_assoc. simpl.
    rewrite Nat.add_0_r.
    erewrite (imap_ext _ ((fun i => f (length l1 + i)%nat) ∘ S)); [reflexivity|].
    intros i y _. simpl. rewrite length_app. simpl. f_equal. lia.
Qed.

Lemma emits_emit d s : emits (emit d) s [d].
Proof. intros P. reflexivity. Qed.

Lemma emits_bind m1 m2 s L1 L2 :
  emits m1 s L1 -> emits m2 s L2 -> emits (m1 ;; m2) s (L1 ++ L2).
Proof.
  intros H1 H2 P. unfold bind. rewrite H1, H2. now rewrite <- app_assoc.
Qed.

Lemma emits_get (k : delay -> M unit) s L :
  (forall P, emits (k (set_sf P s)) s L) -> emits (s0 <- get ;; k s0) s L.
Proof. intros H P. unfold bind, get. apply H. Qed.

Lemma emits_cycle_time i (k : Q -> M unit) s t L :
  py_index (cycle_times (cyc s)) i = OK t ->
  emits (k t) s L ->
  emits (t <- cycle_time i ;; k t) s L.
Proof.
  intros Hi H P. unfold cycle_time, bind, get, lift.
  change (cyc (set_sf P s)) with (cyc s). rewrite Hi. apply H.
Qed.

Lemma emits_for_each {A} (f : A -> directive) (l : list A) s :
  emits (for_each l (fun x => emit (f x))) s (map f l).
Proof. intros P. exact (for_each_emit f l (set_sf P s)). Qed.

Lemma emits_for_each_index {A} (f : nat -> A -> directive) (l : list A) s :
  emits (for_each (seq 0 (length l))
           (fun i => v <- lift (py_index l (Z.of_nat i)) ;; emit (f i v))) s
        (imap f l).
Proof. intros P. exact (for_each_emit_index f [] l (set_sf P s)). Qed.

Lemma emits_run m s L P s' :
  emits m s L -> s' = set_sf (P ++ L) s -> m (set_sf P s) = OK (tt, s').
Proof. intros H ->. apply H. Qed.

Lemma write_generic_stimulus_emits s :
  emits write_generic_stimulus s (generic_lines s).
Proof.
  unfold write_generic_stimulus, generic_lines.
  apply (emits_bind _ _ _ [_]); [apply emits_emit|].
  apply (emits_bind _ _ _ [_]); [apply emits_emit|].
  apply (emits_bind _ _ _ [_]); [apply emits_emit|].
  apply emits_get; intros P.
  apply (emits_bind _ _ _ [_]); [apply emits_emit|].
  apply (emits_bind _ _ _ [_]); [apply emits_emit|].
  apply emits_for_each.
Qed.

Lemma gen_data_emits s :
  length (data_values (cyc s)) = word_size s -> emits gen_data s (data_lines s).
Proof.
  intros H. unfold gen_data, data_lines. apply emits_get; intros P.
  change (word_size (set_sf P s)) with (word_size s). rewrite <- H.
  apply emits_for_each_index.
Qed.

Lemma gen_addr_emits s :
  length (addr_values (cyc s)) = addr_size s -> emits gen_addr s (addr_lines s).
Proof.
  intros H. unfold gen_addr, addr_lines. apply emits_get; intros P.
  change (addr_size (set_sf P s)) with (addr_size s). rewrite <- H.
  apply emits_for_each_index.
Qed.

Lemma gen_control_emits s : emits gen_control s (control_lines s).
Proof.
  unfold gen_control, control_lines. apply emits_get; intros P.
  apply (emits_bind _ _ _ [_]); [apply emits_emit|].
  apply (emits_bind _ _ _ [_]); [apply emits_emit|].
  apply emits_emit.
Qed.

Lemma write_delay_measures_emits s :
  has_test_cycles s -> emits write_delay_measures s (measure_lines s).
Proof.
  intros [Ht Hm]. unfold write_delay_measures, measure_lines.
  apply emits_bind; [apply emits_emit|].
  apply emits_get; intros P.
  apply emits_bind; [apply emits_for_each|].
  cbv zeta. change (marks (set_sf P s)) with (marks s). rewrite Hm.
  cbn [read0_cycle read1_cycle write0_cycle write1_cycle test_marks].
  repeat first
    [ apply emits_emit
    | apply (emits_bind _ _ _ [_]); [apply emits_emit|]
    | eapply emits_cycle_time; [rewrite Ht; reflexivity|] ].
Qed.

Lemma write_power_measures_emits s :
  emits write_power_measures s (power_measure_lines s).
Proof.
  unfold write_power_measures, power_measure_lines.
  apply (emits_bind _ _ _ [_]); [apply emits_emit|].
  apply emits_get; intros P. apply emits_emit.
Qed.

Lemma check_arguments_state s r : check_arguments s = OK r -> r = (tt, s).
Proof.
  unfold check_arguments, bind, get, ret, error.
  destruct (py_int2 (probe_address s)); [|discriminate].
  destruct (negb (String.length (probe_address s) =? addr_size s)%nat); [discriminate|].
  destruct (probe_data s) as [d|]; [|discriminate].
  destruct ((d >? Z.of_nat (word_size s))%Z || (d <? 0)%Z); [discriminate|].
  now intros [= <-].
Qed.

Lemma args_ok_true s : args_ok s = true -> check_arguments s = OK (tt, s).
Proof.
  unfold args_ok. destruct (check_arguments s) as [r|e] eqn:E; [|discriminate].
  now rewrite (check_arguments_state _ _ E).
Qed.

Lemma args_ok_false s : args_ok s = false -> exists e, check_arguments s = Fatal e.
Proof.
  unfold args_ok. destruct (check_arguments s) as [r|e]; [discriminate | eauto].
Qed.

Lemma has_test_cycles_with s : has_test_cycles (with_test_cycles s).
Proof. split; reflexivity. Qed.

Lemma has_test_cycles_staged s : has_test_cycles (staged s).
Proof. split; reflexivity. Qed.

(** [write_delay_stimulus] on a good probe point. *)
Lemma write_delay_stimulus_ok s :
  probe_ok s = true -> write_delay_stimulus s = OK (tt, delay_written s).
Proof.
  intros H. apply andb_true_iff in H as [Ha Hv].
  unfold write_delay_stimulus.
  eapply bind_ok; [apply (args_ok_true _ Ha)|].
  eapply bind_ok; [apply (create_test_cycles_ok _ Hv)|].
  fold (with_test_cycles s).
  eapply bind_ok; [reflexivity|].
  eapply bind_ok; [reflexivity|]. cbv beta.
  eapply bind_ok; [reflexivity|].
  eapply bind_ok; [reflexivity|].
  apply (emits_run _ (staged s) (tl (delay_lines (staged s)))
           [hd (Text "") (delay_lines (staged s))]); [|reflexivity].
  unfold delay_lines. cbn [tl app].
  apply (emits_bind _ _ _ [_]); [apply emits_emit|].
  apply emits_bind; [apply write_generic_stimulus_emits|].
  apply (emits_bind _ _ _ [_]); [apply emits_emit|].
  apply emits_bind; [apply gen_data_emits; apply length_replicate|].
  apply emits_bind.
  { apply gen_addr_emits. cbn. rewrite length_map, length_chars.
    now apply valid_address_spec in Hv. }
  apply (emits_bind _ _ _ [_]); [apply emits_emit|].
  apply emits_bind; [apply gen_control_emits|].
  apply (emits_bind _ _ _ [_]); [apply emits_emit|].
  apply (emits_bind _ _ _ [_]); [apply emits_emit|].
  apply emits_bind; [apply write_delay_measures_emits; apply has_test_cycles_staged|].
  (eapply emits_cycle_time; [reflexivity|]).
  apply emits_emit.
Qed.

Lemma write_power_stimulus_ok trim s :
  probe_ok s = true -> write_power_stimulus trim s = OK (tt, power_written trim s).
Proof.
  intros H. apply andb_true_iff in H as [Ha Hv].
  unfold write_power_stimulus.
  eapply bind_ok; [apply (args_ok_true _ Ha)|].
  eapply bind_ok; [apply (create_test_cycles_ok _ Hv)|].
  fold (with_test_cycles s).
  eapply bind_ok; [reflexivity|].
  eapply bind_ok; [reflexivity|]. cbv beta.
  eapply bind_ok; [reflexivity|].
  eapply bind_ok; [reflexivity|].
  apply (emits_run _ (staged s) (tl (power_lines trim (staged s)))
           [hd (Text "") (power_lines trim (staged s))]); [|reflexivity].
  unfold power_lines. cbn [tl app].
  apply (emits_bind _ _ _ [_]); [destruct trim; apply emits_emit|].
  apply emits_bind; [apply write_generic_stimulus_emits|].
  apply (emits_bind _ _ _ [_]); [apply emits_emit|].
  apply emits_bind; [apply emits_for_each|].
  apply emits_bind; [apply emits_for_each|].
  apply (emits_bind _ _ _ [_]); [apply emits_emit|].
  apply (emits_bind _ _ _ [_]); [apply emits_emit|].
  apply (emits_bind _ _ _ [_]); [apply emits_emit|].
  apply (emits_bind _ _ _ [_]); [apply emits_emit|].
  apply (emits_bind _ _ _ [_]); [apply emits_emit|].
  apply (emits_bind _ _ _ [_]); [apply emits_emit|].
  apply emits_bind; [apply write_power_measures_emits|].
  apply emits_emit.
Qed.

Lemma write_delay_stimulus_probe s r :
  write_delay_stimulus s = OK r -> probe_ok s = true.
Proof.
  unfold write_delay_stimulus. intros H.
  apply bind_inv in H as (u & s1 & Hc & H1).
  pose proof (check_arguments_state _ _ Hc) as [= -> ->].
  apply bind_inv in H1 as (u1 & s2 & Ht & _).
  unfold probe_ok, args_ok. rewrite Hc. simpl.
  eapply create_test_cycles_valid, Ht.
Qed.

Lemma write_power_stimulus_probe trim s r :
  write_power_stimulus trim s = OK r -> probe_ok s = true.
Proof.
  unfold write_power_stimulus. intros H.
  apply bind_inv in H as (u & s1 & Hc & H1).
  pose proof (check_arguments_state _ _ Hc) as [= -> ->].
  apply bind_inv in H1 as (u1 & s2 & Ht & _).
  unfold probe_ok, args_ok. rewrite Hc. simpl.
  eapply create_test_cycles_valid, Ht.
Qed.

Lemma delay_stimulus_inputs s s' :
  inputs s = inputs s' -> delay_stimulus s = delay_stimulus s'.
Proof.
  destruct s, s'. unfold inputs. cbn. intros [= -> -> -> -> -> -> -> -> -> -> ->].
  reflexivity.
Qed.

Lemma power_stimulus_inputs trim s s' :
  inputs s = inputs s' -> power_stimulus trim s = power_stimulus trim s'.
Proof.
  destruct s, s'. unfold inputs. cbn. intros [= -> -> -> -> -> -> -> -> -> -> ->].
  reflexivity.
Qed.

Lemma probe_ok_fields s s' :
  probe_address s = probe_address s' -> addr_size s = addr_size s' ->
  probe_data s = probe_data s' -> word_size s = word_size s' ->
  probe_ok s = probe_ok s'.
Proof.
  intros Hpa Ha Hpd Hw.
  unfold probe_ok, args_ok, valid_address, check_arguments, bind, get, ret, error.
  rewrite Hpa, Ha, Hpd, Hw.
  destruct (py_int2 _); [|reflexivity].
  destruct (negb _); [reflexivity|].
  destruct (probe_data s') as [d|]; [|reflexivity].
  destruct (_ || _); reflexivity.
Qed.

Lemma probe_ok_inputs s s' : inputs s = inputs s' -> probe_ok s = probe_ok s'.
Proof.
  unfold inputs. intros [= Hn Hw Ha Hc Hp Hl Hs Hpa Hpd Ht Hsi].
  now apply probe_ok_fields.
Qed.

Lemma probe_ok_set_period p s : probe_ok (set_period p s) = probe_ok s.
Proof. now apply probe_ok_fields. Qed.

Lemma probe_ok_set_load v s : probe_ok (set_load v s) = probe_ok s.
Proof. now apply probe_ok_fields. Qed.

Lemma probe_ok_set_slew v s : probe_ok (set_slew v s) = probe_ok s.
Proof. now apply probe_ok_fields. Qed.

Lemma write_and_run s :
  probe_ok s = true -> (write_delay_stimulus ;; run_sim) s = OK (tt, simulated s).
Proof.
  intros H. eapply bind_ok; [apply (write_delay_stimulus_ok _ H)|]. reflexivity.
Qed.

Lemma parse_simulated k st s :
  sims s = st :: tl (sims s) ->
  parse_spice_list "timing" k s = OK (spice st k, s).
Proof. unfold parse_spice_list, bind, get, ret. now intros ->. Qed.

Lemma check_valid_delays_spec a b c d s :
  check_valid_delays (a, b, c, d) s = OK (delays_valid (period s) a b c d, s).
Proof.
  unfold check_valid_delays, delays_valid, bind, get, ret.
  destruct a, b, c, d; try reflexivity.
  destruct (_ || _); reflexivity.
Qed.

Lemma run_delay_simulation_ok s :
  probe_ok s = true ->
  run_delay_simulation s =
  match delay_outcome s with
  | OK r => OK (r, simulated s)
  | Fatal e => Fatal e
  end.
Proof.
  intros H. unfold run_delay_simulation.
  eapply bind_ok; [apply (write_delay_stimulus_ok _ H)|].
  eapply bind_ok; [reflexivity|]. fold (delay_stimulus s). fold (simulated s).
  do 8 (eapply bind_ok; [apply (parse_simulated _ (delay_stimulus s)); reflexivity|]).
  eapply bind_ok; [apply check_valid_delays_spec|].
  unfold delay_outcome. change (period (simulated s)) with (period s).
  destruct (delays_valid _ _ _ _ _) eqn:Ev; [|reflexivity].
  cbn [negb].
  unfold delays_valid in Ev.
  destruct (spice _ "delay_hl"); [|discriminate].
  destruct (spice _ "delay_lh"); [|discriminate].
  destruct (spice _ "slew_lh"); [|discriminate].
  destruct (spice _ "slew_hl"); [|discriminate].
  unfold scale, bind, ret, error.
  destruct (spice _ "read0_power"); [|reflexivity].
  destruct (spice _ "read1_power"); [|reflexivity].
  destruct (spice _ "write0_power"); [|reflexivity].
  destruct (spice _ "write1_power"); reflexivity.
Qed.

Lemma run_delay_simulation_probe s r :
  run_delay_simulation s = OK r -> probe_ok s = true.
Proof.
  unfold run_delay_simulation. intros H.
  apply bind_inv in H as (u & s1 & Hw & _).
  eapply write_delay_stimulus_probe, Hw.
Qed.

Lemma try_period_ok a b s :
  probe_ok s = true -> try_period a b s = OK (period_ok a b s, simulated s).
Proof.
  intros H. unfold try_period.
  eapply bind_ok; [apply (write_delay_stimulus_ok _ H)|].
  eapply bind_ok; [reflexivity|]. fold (delay_stimulus s). fold (simulated s).
  do 4 (eapply bind_ok; [apply (parse_simulated _ (delay_stimulus s)); reflexivity|]).
  eapply bind_ok; [reflexivity|].
  unfold period_ok. change (period (simulated s)) with (period s).
  destruct (spice _ "delay_hl"); [|reflexivity].
  destruct (spice _ "delay_lh"); [|reflexivity].
  destruct (spice _ "slew_lh"); [|reflexivity].
  destruct (spice _ "slew_hl"); [|reflexivity].
  destruct (_ || _); [reflexivity|].
  destruct (relative_compare (_ * _) a _); [|reflexivity].
  destruct (relative_compare (_ * _) b _); reflexivity.
Qed.

Lemma try_period_probe a b s r : try_period a b s = OK r -> probe_ok s = true.
Proof.
  unfold try_period. intros H.
  apply bind_inv in H as (u & s1 & Hw & _).
  eapply write_delay_stimulus_probe, Hw.
Qed.

Lemma inputs_simulated s : inputs (simulated s) = inputs s.
Proof. reflexivity. Qed.

Lemma inputs_set_period p s s' :
  inputs s = inputs s' -> inputs (set_period p s) = inputs (set_period p s').
Proof. unfold inputs. cbn. intros [= -> -> -> -> _ -> -> -> -> -> ->]. reflexivity. Qed.

Lemma period_ok_inputs a b s s' :
  inputs s = inputs s' -> period_ok a b s = period_ok a b s'.
Proof.
  intros H. unfold period_ok. rewrite (delay_stimulus_inputs _ _ H).
  assert (Hp : period s = period s') by (unfold inputs in H; congruence).
  now rewrite Hp.
Qed.

(** *** The two searches *)

Lemma relative_compare_refl x tol :
  (0 <= tol)%Q -> relative_compare x x tol = true.
Proof.
  intros Ht. unfold relative_compare. apply Qle_bool_iff.
  assert (E : (x - x == 0)%Q) by ring.
  rewrite E. change (Qabs 0) with 0%Q.
  apply Qmult_le_0_compat; [exact Ht|].
  apply Qle_trans with (Qabs x); [apply Qabs_nonneg | apply Q.le_max_l].
Qed.

Lemma dict_get_delay_outcome s res :
  delay_outcome s = OK (true, res) ->
  exists delay_hl delay_lh slew_hl slew_lh,
    spice (delay_stimulus s) "delay_hl" = Num delay_hl /\
    spice (delay_stimulus s) "delay_lh" = Num delay_lh /\
    spice (delay_stimulus s) "slew_hl" = Num slew_hl /\
    spice (delay_stimulus s) "slew_lh" = Num slew_lh /\
    delays_valid (period s) (Num delay_hl) (Num delay_lh) (Num slew_hl) (Num slew_lh) = true /\
    dict_get res "delay_lh" = OK (delay_lh * 1e9)%Q /\
    dict_get res "slew_lh" = OK (slew_lh * 1e9)%Q /\
    dict_get res "delay_hl" = OK (delay_hl * 1e9)%Q /\
    dict_get res "slew_hl" = OK (slew_hl * 1e9)%Q.
Proof.
  unfold delay_outcome. cbv zeta.
  destruct (delays_valid _ _ _ _ _) eqn:Ev; [|discriminate]. cbn [negb].
  destruct (spice _ "delay_hl") as [a|]; [|discriminate].
  destruct (spice _ "delay_lh") as [b|]; [|discriminate].
  destruct (spice _ "slew_hl") as [c|]; [|discriminate].
  destruct (spice _ "slew_lh") as [d|]; [|discriminate].
  destruct (spice _ "read0_power"); [|discriminate].
  destruct (spice _ "read1_power"); [|discriminate].
  destruct (spice _ "write0_power"); [|discriminate].
  destruct (spice _ "write1_power"); [|discriminate].
  intros [= <-]. exists a, b, c, d. repeat split; auto.
Qed.

(** A successful feasibility search leaves a good probe point and a period
    at which [try_period] against the returned delays succeeds. *)
Lemma feasible_period_loop_feasible time_out :
  forall p s a b s',
    feasible_period_loop time_out p s = OK ((a, b), s') ->
    probe_ok s' = true /\ period_ok a b s' = true.
Proof.
  induction time_out as [|n IH]; intros p s a b s' H; [discriminate|].
  cbn [feasible_period_loop] in H.
  destruct (n <=? 0)%nat; [discriminate|].
  apply bind_inv in H as (u & s1 & [= <- <-] & H1).
  apply bind_inv in H1 as ([success results] & s2 & Hr & H2).
  pose proof (run_delay_simulation_probe _ _ Hr) as Hp.
  rewrite (run_delay_simulation_ok _ Hp) in Hr.
  destruct (delay_outcome (set_period p s)) as [r|] eqn:Eo; [|discriminate].
  injection Hr as -> <-.
  destruct success; cbn [negb] in H2; [|eapply IH, H2].
  apply dict_get_delay_outcome in Eo
    as (dhl & dlh & shl & slh & E1 & E2 & E3 & E4 & Ev & G1 & G2 & G3 & G4).
  unfold lift, bind, modify, ret in H2. rewrite G1, G2, G3, G4 in H2.
  injection H2 as <- <- <-.
  assert (Hi : inputs (set_period p (simulated (set_period p s))) =
               inputs (set_period p s)) by reflexivity.
  split.
  - now rewrite (probe_ok_inputs _ _ Hi).
  - rewrite (period_ok_inputs _ _ _ _ Hi). unfold period_ok.
    rewrite E1, E2, E3, E4. unfold delays_valid in Ev. rewrite Ev.
    now rewrite !relative_compare_refl.
Qed.

(** The invariant of the binary search: the upper bound is a period at
    which [try_period] succeeds. *)
Lemma min_period_loop_feasible time_out a b :
  forall ub lb s m s',
    probe_ok s = true ->
    period_ok a b (set_period ub s) = true ->
    min_period_loop time_out a b ub lb s = OK (m, s') ->
    probe_ok s' = true /\ period_ok a b (set_period m s') = true.
Proof.
  induction time_out as [|n IH]; intros ub lb s m s' Hp Hub H; [discriminate|].
  cbn [min_period_loop] in H.
  destruct (n <=? 0)%nat; [discriminate|].
  apply bind_inv in H as (u & s1 & [= <- <-] & H1).
  apply bind_inv in H1 as (ok & s2 & Ht & H2).
  assert (Hp1 : probe_ok (set_period (0.5 * (ub + lb)) s) = true).
  { now rewrite probe_ok_set_period. }
  rewrite (try_period_ok _ _ _ Hp1) in Ht. injection Ht as <- <-.
  set (t := (0.5 * (ub + lb))%Q) in *.
  assert (Hp2 : probe_ok (simulated (set_period t s)) = true).
  { rewrite <- Hp1. now apply probe_ok_inputs. }
  assert (Hub' : period_ok a b
                   (set_period (if period_ok a b (set_period t s) then t else ub)
                               (simulated (set_period t s))) = true).
  { destruct (period_ok a b (set_period t s)) eqn:Eok.
    - rewrite <- Eok. now apply period_ok_inputs.
    - rewrite <- Hub. now apply period_ok_inputs. }
  cbv zeta in H2.
  destruct (relative_compare _ _ _).
  - injection H2 as <- <-. split; [exact Hp2 | exact Hub'].
  - eapply IH; [exact Hp2 | exact Hub' | exact H2].
Qed.

Lemma Qgtb_false a b : Qgtb a b = false <-> (a <= b)%Q.
Proof.
  unfold Qgtb. rewrite negb_false_iff. apply Qle_bool_iff.
Qed.

Lemma period_ok_spec a b s :
  period_ok a b s = true <->
  exists delay_hl delay_lh slew_hl slew_lh,
    spice (delay_stimulus s) "delay_hl" = Num delay_hl /\
    spice (delay_stimulus s) "delay_lh" = Num delay_lh /\
    spice (delay_stimulus s) "slew_hl" = Num slew_hl /\
    spice (delay_stimulus s) "slew_lh" = Num slew_lh /\
    (delay_hl * 1e9 <= period s)%Q /\ (delay_lh * 1e9 <= period s)%Q /\
    (slew_hl * 1e9 <= period s)%Q /\ (slew_lh * 1e9 <= period s)%Q /\
    relative_compare (delay_lh * 1e9) a 0.05 = true /\
    relative_compare (delay_hl * 1e9) b 0.05 = true.
Proof.
  unfold period_ok. cbv zeta. split.
  - destruct (spice _ "delay_hl") as [dhl|]; [|discriminate].
    destruct (spice _ "delay_lh") as [dlh|]; [|discriminate].
    destruct (spice _ "slew_lh") as [slh|]; [|discriminate].
    destruct (spice _ "slew_hl") as [shl|]; [|discriminate].
    rewrite !andb_true_iff, negb_true_iff, !orb_false_iff, !Qgtb_false.
    intros [[[[[H1 H2] H3] H4] H5] H6].
    exists dhl, dlh, shl, slh. repeat split; assumption.
  - intros (dhl & dlh & shl & slh & -> & -> & -> & -> & H1 & H2 & H3 & H4 & H5 & H6).
    rewrite !andb_true_iff, negb_true_iff, !orb_false_iff, !Qgtb_false.
    repeat split; assumption.
Qed.

Lemma find_min_period_eq a b s :
  find_min_period a b s = min_period_loop 25 a b (period s) 0 s.
Proof. reflexivity. Qed.

(** C2.  The upper bound of the binary search is a feasible period
    throughout.  When [find_feasible_period] returns the reference delays,
    [try_period] against them succeeds at the period it leaves, which is
    the upper bound at loop entry; and whatever period [find_min_period]
    then returns, a fresh [try_period] at that period succeeds: the
    returned minimum period never fails the validity, period and 5%
    tolerance checks against the feasible reference delays. *)
Theorem find_min_period_returns_feasible s a b s1 :
  find_feasible_period s = OK ((a, b), s1) ->
  (exists s', try_period a b s1 = OK (true, s')) /\
  (forall m s2,
      find_min_period a b s1 = OK (m, s2) ->
      exists s3, try_period a b (set_period m s2) = OK (true, s3)).
Proof.
  intros Hf.
  apply (feasible_period_loop_feasible 8 tech_feasible_period) in Hf as [Hp Hok].
  split.
  - exists (simulated s1). now rewrite (try_period_ok _ _ _ Hp), Hok.
  - intros m s2 Hm. rewrite find_min_period_eq in Hm.
    assert (Hub : period_ok a b (set_period (period s1) s1) = true).
    { rewrite <- Hok. now apply period_ok_inputs. }
    destruct (min_period_loop_feasible _ _ _ _ _ _ _ _ Hp Hub Hm) as [Hp2 Hok2].
    exists (simulated (set_period m s2)).
    rewrite try_period_ok by now rewrite probe_ok_set_period.
    now rewrite Hok2.
Qed.

(** C3.  [try_period] returns success exactly when the four measurements
    of the simulation it has just run are numbers, each of them (in ns) is
    at most the trial period, and the two delays (not the slews) are within
    5% of their feasible references.  One iteration of the binary search
    tries the midpoint of the bounds; on success the midpoint is the new
    upper bound, on failure the new lower bound. *)
Theorem try_period_decides_bounds a b :
  (forall s ok s',
      try_period a b s = OK (ok, s') ->
      exists st, sims s' = st :: sims s /\
        (ok = true <->
         exists delay_hl delay_lh slew_hl slew_lh,
           spice st "delay_hl" = Num delay_hl /\
           spice st "delay_lh" = Num delay_lh /\
           spice st "slew_hl" = Num slew_hl /\
           spice st "slew_lh" = Num slew_lh /\
           (delay_hl * 1e9 <= period s)%Q /\ (delay_lh * 1e9 <= period s)%Q /\
           (slew_hl * 1e9 <= period s)%Q /\ (slew_lh * 1e9 <= period s)%Q /\
           relative_compare (delay_lh * 1e9) a 0.05 = true /\
           relative_compare (delay_hl * 1e9) b 0.05 = true)) /\
  (forall time_out ub lb s ok s',
      let target_period := (0.5 * (ub + lb))%Q in
      try_period a b (set_period target_period s) = OK (ok, s') ->
      min_period_loop (S (S time_out)) a b ub lb s =
      (let ub' := if ok then target_period else ub in
       let lb' := if ok then lb else target_period in
       if relative_compare ub' lb' 0.05 then OK (ub', s')
       else min_period_loop (S time_out) a b ub' lb' s')).
Proof.
  split.
  - intros s ok s' H.
    pose proof (try_period_probe _ _ _ _ H) as Hp.
    rewrite (try_period_ok _ _ _ Hp) in H. injection H as <- <-.
    exists (delay_stimulus s). split; [reflexivity|]. apply period_ok_spec.
  - intros n ub lb s ok s' t H.
    cbn [min_period_loop Nat.leb]. fold t.
    unfold bind at 1. unfold modify at 1. unfold bind at 1. rewrite H.
    cbv zeta. destruct (relative_compare _ _ _); reflexivity.
Qed.

Lemma delay_outcome_inputs s s' :
  inputs s = inputs s' -> delay_outcome s = delay_outcome s'.
Proof.
  intros H. unfold delay_outcome. rewrite (delay_stimulus_inputs _ _ H).
  assert (Hp : period s = period s') by (unfold inputs in H; congruence).
  now rewrite Hp.
Qed.

Lemma attempt_invalid_outcome s p :
  attempt_valid s p = false -> delay_outcome (set_period p s) = OK (false, []).
Proof.
  unfold attempt_valid, delay_outcome. cbv zeta.
  change (period (set_period p s)) with p. now intros ->.
Qed.

(** A measurement that is not a number makes the attempt invalid. *)
Lemma attempt_invalid_of_failed s p key :
  In key ["delay_hl"; "delay_lh"; "slew_hl"; "slew_lh"]%string ->
  spice (delay_stimulus (set_period p s)) key = Failed ->
  attempt_valid s p = false.
Proof.
  unfold attempt_valid, delays_valid. cbv zeta. intros Hin Hf.
  destruct (spice _ "delay_hl") eqn:E1; [|reflexivity].
  destruct (spice _ "delay_lh") eqn:E2; [|reflexivity].
  destruct (spice _ "slew_lh") eqn:E3; [|reflexivity].
  destruct (spice _ "slew_hl") eqn:E4; [|reflexivity].
  exfalso. destruct Hin as [<-|[<-|[<-|[<-|[]]]]]; congruence.
Qed.

Lemma attempt_valid_inputs s s' p :
  inputs (set_period p s) = inputs (set_period p s') ->
  attempt_valid s p = attempt_valid s' p.
Proof.
  intros H. unfold attempt_valid. now rewrite (delay_stimulus_inputs _ _ H).
Qed.

Lemma feasible_period_loop_step n p s :
  probe_ok s = true ->
  feasible_period_loop (S (S n)) p s =
  match delay_outcome (set_period p s) with
  | OK (false, _) =>
      feasible_period_loop (S n) (2 * p)%Q (simulated (set_period p s))
  | OK (true, results) =>
      match dict_get results "delay_lh", dict_get results "slew_lh",
            dict_get results "delay_hl", dict_get results "slew_hl" with
      | OK a, OK _, OK b, OK _ =>
          OK ((a, b), set_period p (simulated (set_period p s)))
      | Fatal e, _, _, _ => Fatal e
      | _, Fatal e, _, _ => Fatal e
      | _, _, Fatal e, _ => Fatal e
      | _, _, _, Fatal e => Fatal e
      end
  | Fatal e => Fatal e
  end.
Proof.
  intros Hp. cbn [feasible_period_loop Nat.leb].
  unfold bind at 1. unfold modify at 1. unfold bind at 1.
  rewrite run_delay_simulation_ok by now rewrite probe_ok_set_period.
  destruct (delay_outcome (set_period p s)) as [[[] res]|e]; try reflexivity.
  cbn [negb]. unfold bind, lift, modify, ret.
  destruct (dict_get res "delay_lh"); [|reflexivity].
  destruct (dict_get res "slew_lh"); [|reflexivity].
  destruct (dict_get res "delay_hl"); [|reflexivity].
  destruct (dict_get res "slew_hl"); reflexivity.
Qed.

Lemma feasible_period_loop_exhausted n :
  forall p s,
    probe_ok s = true ->
    (forall i, (i < n)%nat -> attempt_valid s (doubled i p) = false) ->
    feasible_period_loop (S n) p s =
    Fatal "Timed out, could not find a feasible period.".
Proof.
  induction n as [|n IH]; intros p s Hp Hall; [reflexivity|].
  rewrite (feasible_period_loop_step _ _ _ Hp).
  rewrite (attempt_invalid_outcome s p) by (apply (Hall 0%nat); lia).
  apply IH.
  - rewrite <- Hp. apply probe_ok_fields; reflexivity.
  - intros i Hi.
    rewrite (attempt_valid_inputs _ s) by reflexivity.
    apply (Hall (S i)). lia.
Qed.

Lemma feasible_period_loop_found n :
  forall k p s res,
    probe_ok s = true ->
    (k < n)%nat ->
    (forall i, (i < k)%nat -> attempt_valid s (doubled i p) = false) ->
    delay_outcome (set_period (doubled k p) s) = OK (true, res) ->
    exists a b s',
      feasible_period_loop (S n) p s = OK ((a, b), s') /\
      dict_get res "delay_lh" = OK a /\ dict_get res "delay_hl" = OK b /\
      period s' = doubled k p /\
      length (sims s') = (length (sims s) + S k)%nat.
Proof.
  induction n as [|n IH]; intros k p s res Hp Hk Hall Hres; [lia|].
  rewrite (feasible_period_loop_step _ _ _ Hp).
  destruct k as [|k].
  - cbn [doubled] in Hres. rewrite Hres.
    destruct (dict_get_delay_outcome _ _ Hres)
      as (dhl & dlh & shl & slh & _ & _ & _ & _ & _ & G1 & G2 & G3 & G4).
    rewrite G1, G2, G3, G4.
    eexists _, _, _. repeat split; try reflexivity.
    cbn. lia.
  - rewrite (attempt_invalid_outcome s p) by (apply (Hall 0%nat); lia).
    destruct (IH k (2 * p)%Q (simulated (set_period p s)) res)
      as (a & b & s' & Hl & Ga & Gb & Hper & Hlen).
    + rewrite <- Hp. apply probe_ok_fields; reflexivity.
    + lia.
    + intros i Hi. rewrite (attempt_valid_inputs _ s) by reflexivity.
      apply (Hall (S i)). lia.
    + rewrite <- Hres. apply delay_outcome_inputs. reflexivity.
    + exists a, b, s'. repeat split; try assumption.
      rewrite Hlen. cbn. lia.
Qed.

(** C5, as the code has it.  [find_feasible_period] starts at the nominal
    period of the technology and doubles the period after every attempt
    whose measurements are not all valid.  It simulates at most seven
    times: when one of the first seven attempts (number [k], counted from 0)
    is the first valid one, the search returns the two reference delays of
    that simulation, leaves the period doubled [k] times and has run
    [k + 1] simulations; when all seven are invalid it ends in the fatal
    time-out error, so it always terminates. *)
Theorem find_feasible_period_budget s :
  probe_ok s = true ->
  (forall k res,
      (k < 7)%nat ->
      (forall i, (i < k)%nat ->
                 attempt_valid s (doubled i tech_feasible_period) = false) ->
      delay_outcome (set_period (doubled k tech_feasible_period) s) = OK (true, res) ->
      exists a b s',
        find_feasible_period s = OK ((a, b), s') /\
        dict_get res "delay_lh" = OK a /\ dict_get res "delay_hl" = OK b /\
        period s' = doubled k tech_feasible_period /\
        length (sims s') = (length (sims s) + S k)%nat) /\
  ((forall i, (i < 7)%nat ->
              attempt_valid s (doubled i tech_feasible_period) = false) ->
   find_feasible_period s = Fatal "Timed out, could not find a feasible period.").
Proof.
  intros Hp. split.
  - intros k res Hk Hall Hres.
    exact (feasible_period_loop_found 7 k tech_feasible_period s res Hp Hk Hall Hres).
  - intros Hall.
    exact (feasible_period_loop_exhausted 7 tech_feasible_period s Hp Hall).
Qed.

Lemma table_extends_nil trim full cd : table_extends trim full cd cd [].
Proof.
  split; [|reflexivity].
  intros k _ l Hl. exists []. now rewrite app_nil_r.
Qed.

Lemma table_extends_app trim full cd1 cd2 cd3 st1 st2 :
  table_extends trim full cd1 cd2 st1 ->
  table_extends trim full cd2 cd3 st2 ->
  table_extends trim full cd1 cd3 (st1 ++ st2).
Proof.
  intros [H1 H1'] [H2 H2']. split.
  - intros k Hk l Hl.
    destruct (H1 k Hk l Hl) as (v1 & E1 & M1).
    destruct (H2 k Hk _ E1) as (v2 & E2 & M2).
    exists (v1 ++ v2). split.
    + now rewrite app_assoc.
    + now rewrite !map_app, M1, M2.
  - intros k Hk. now rewrite H2', H1'.
Qed.

Lemma has_columns_extends trim full cd cd' stims :
  has_columns cd -> table_extends trim full cd cd' stims -> has_columns cd'.
Proof.
  intros Hc [H _] k Hk. destruct (Hc k Hk) as [l Hl].
  destruct (H k Hk l Hl) as (v & E & _). eauto.
Qed.

Lemma dict_append_ok (cd : gmap string cval) k v l :
  cd !! k = Some (Lst l) -> dict_append cd k v = OK (<[k := Lst (l ++ [v])]> cd).
Proof. unfold dict_append. now intros ->. Qed.

(** The loop over the items of a successful simulation's results. *)
Lemma append_results_extends trim full s res (cd : gmap string cval) :
  has_columns cd ->
  delay_outcome s = OK (true, res) ->
  exists cd',
    append_results trim full res cd = OK cd' /\
    table_extends trim full cd cd' [delay_stimulus s].
Proof.
  intros Hc Ho. unfold delay_outcome in Ho. cbv zeta in Ho.
  destruct (delays_valid _ _ _ _ _); [|discriminate]. cbn [negb] in Ho.
  destruct (spice _ "delay_hl") as [a|] eqn:Ea; [|discriminate].
  destruct (spice _ "delay_lh") as [b|] eqn:Eb; [|discriminate].
  destruct (spice _ "slew_hl") as [c|] eqn:Ec; [|discriminate].
  destruct (spice _ "slew_lh") as [d|] eqn:Ed; [|discriminate].
  destruct (spice _ "read0_power") as [e|] eqn:Ee; [|discriminate].
  destruct (spice _ "read1_power") as [f|] eqn:Ef; [|discriminate].
  destruct (spice _ "write0_power") as [g|] eqn:Eg; [|discriminate].
  destruct (spice _ "write1_power") as [h|] eqn:Eh; [|discriminate].
  injection Ho as <-.
  destruct (Hc "delay_hl") as [la Ha]; [unfold result_keys; simpl; tauto|].
  destruct (Hc "delay_lh") as [lb Hb]; [unfold result_keys; simpl; tauto|].
  destruct (Hc "slew_hl") as [lc Hlc]; [unfold result_keys; simpl; tauto|].
  destruct (Hc "slew_lh") as [ld Hd]; [unfold result_keys; simpl; tauto|].
  destruct (Hc "read0_power") as [le He]; [unfold result_keys; simpl; tauto|].
  destruct (Hc "read1_power") as [lf Hf]; [unfold result_keys; simpl; tauto|].
  destruct (Hc "write0_power") as [lg Hg]; [unfold result_keys; simpl; tauto|].
  destruct (Hc "write1_power") as [lh Hh]; [unfold result_keys; simpl; tauto|].
  eexists. split.
  - cbn [append_results].
    repeat match goal with
    | |- context [contains "power" ?k] =>
        let b := eval vm_compute in (contains "power" k) in
        change (contains "power" k) with b; cbv iota
    end.
    erewrite dict_append_ok by (rewrite ?lookup_insert_ne by discriminate; eassumption).
    erewrite dict_append_ok by (rewrite ?lookup_insert_ne by discriminate; eassumption).
    erewrite dict_append_ok by (rewrite ?lookup_insert_ne by discriminate; eassumption).
    erewrite dict_append_ok by (rewrite ?lookup_insert_ne by discriminate; eassumption).
    erewrite dict_append_ok by (rewrite ?lookup_insert_ne by discriminate; eassumption).
    erewrite dict_append_ok by (rewrite ?lookup_insert_ne by discriminate; eassumption).
    erewrite dict_append_ok by (rewrite ?lookup_insert_ne by discriminate; eassumption).
    erewrite dict_append_ok by (rewrite ?lookup_insert_ne by discriminate; eassumption).
    reflexivity.
  - split.
    + intros k Hk l Hl. unfold column_entry. cbn [map].
      unfold result_keys in Hk. cbn [In] in Hk.
      destruct Hk as [<-|[<-|[<-|[<-|[<-|[<-|[<-|[<-|[]]]]]]]]];
        rewrite ?lookup_insert_ne by discriminate;
        rewrite lookup_insert_eq;
        match goal with
        | |- context [contains "power" ?k] =>
            let b := eval vm_compute in (contains "power" k) in
            change (contains "power" k) with b; cbv iota
        end;
        match goal with
        | H : cd !! _ = Some (Lst ?l0), Hl : cd !! _ = Some (Lst l) |- _ =>
            rewrite H in Hl; injection Hl as <-
        end;
        rewrite ?Ea, ?Eb, ?Ec, ?Ed, ?Ee, ?Ef, ?Eg, ?Eh;
        eexists; split; reflexivity.
    + intros k Hk. unfold result_keys in Hk. cbn [In] in Hk.
      rewrite !lookup_insert_ne; [reflexivity|..]; intros <-; tauto.
Qed.

Lemma same_setup_refl s : same_setup s s.
Proof. intros l sl. reflexivity. Qed.

Lemma same_setup_trans s1 s2 s3 :
  same_setup s1 s2 -> same_setup s2 s3 -> same_setup s1 s3.
Proof. intros H1 H2 l sl. now rewrite H2, H1. Qed.

Lemma same_setup_period s s' : same_setup s s' -> period s' = period s.
Proof. intros H. specialize (H 0%Q 0%Q). unfold inputs in H. cbn in H. congruence. Qed.

Lemma sweep_stimulus_setup s s' point :
  same_setup s s' -> sweep_stimulus s' point = sweep_stimulus s point.
Proof. intros H. apply delay_stimulus_inputs, H. Qed.

Lemma probe_ok_setup s s' : same_setup s s' -> probe_ok s' = probe_ok s.
Proof.
  intros H. specialize (H 0%Q 0%Q). unfold inputs in H. cbn in H.
  injection H as Hn Hw Ha Hc Hp Hpa Hpd Ht Hsi.
  now apply probe_ok_fields.
Qed.

(** One pass of the inner loop body. *)
Lemma sweep_body_spec trim full slew load (cd : gmap string cval) s cd' s' :
  has_columns cd ->
  (set_load_slew load slew ;;
   r <- run_delay_simulation ;;
   let '(success, delay_results) := r in
   check success "Couldn't run a simulation." ;;
   lift (append_results trim full delay_results cd)) s = OK (cd', s') ->
  s' = simulated (set_slew slew (set_load load s)) /\
  table_extends trim full cd cd' [sweep_stimulus s (slew, load)].
Proof.
  intros Hc H.
  apply bind_inv in H as (u & s1 & [= <- <-] & H1).
  apply bind_inv in H1 as ([success res] & s2 & Hr & H2).
  pose proof (run_delay_simulation_probe _ _ Hr) as Hp.
  rewrite (run_delay_simulation_ok _ Hp) in Hr.
  destruct (delay_outcome _) as [r|] eqn:Eo; [|discriminate].
  injection Hr as -> <-.
  apply bind_inv in H2 as (u2 & s3 & Hchk & H3).
  destruct success; [|discriminate]. injection Hchk as <- <-.
  destruct (append_results_extends trim full _ _ _ Hc Eo) as (cd1 & Ea & Ht).
  unfold lift in H3. rewrite Ea in H3. injection H3 as <- <-.
  split; [reflexivity | exact Ht].
Qed.

Lemma sweep_loads_spec trim full slew loads :
  forall (cd : gmap string cval) s cd' s',
    has_columns cd ->
    foldM (fun char_data load =>
             set_load_slew load slew ;;
             r <- run_delay_simulation ;;
             let '(success, delay_results) := r in
             check success "Couldn't run a simulation." ;;
             lift (append_results trim full delay_results char_data))
          loads cd s = OK (cd', s') ->
    same_setup s s' /\
    sims s' = rev (map (fun load => sweep_stimulus s (slew, load)) loads) ++ sims s /\
    table_extends trim full cd cd'
      (map (fun load => sweep_stimulus s (slew, load)) loads).
Proof.
  induction loads as [|load loads IH]; intros cd s cd' s' Hc H.
  - injection H as <- <-. split; [apply same_setup_refl|].
    split; [reflexivity | apply table_extends_nil].
  - cbn [foldM] in H. apply bind_inv in H as (cd1 & s1 & Hb & H1).
    apply sweep_body_spec in Hb as [-> Ht]; [|exact Hc].
    apply IH in H1 as (Hs & Hsims & Ht2);
      [|exact (has_columns_extends _ _ _ _ _ Hc Ht)].
    assert (Hs1 : same_setup s (simulated (set_slew slew (set_load load s))))
      by (intros l sl; reflexivity).
    assert (Hm : map (fun l => sweep_stimulus (simulated (set_slew slew (set_load load s)))
                                 (slew, l)) loads =
                 map (fun l => sweep_stimulus s (slew, l)) loads).
    { apply map_ext. intros l. now apply sweep_stimulus_setup. }
    rewrite Hm in Hsims, Ht2.
    split; [exact (same_setup_trans _ _ _ Hs1 Hs)|]. split.
    + rewrite Hsims. cbn [map rev]. rewrite <- app_assoc. reflexivity.
    + exact (table_extends_app _ _ _ _ _ [_] _ Ht Ht2).
Qed.

Lemma sweep_spec trim full loads slews :
  forall (cd : gmap string cval) s cd' s',
    has_columns cd ->
    sweep trim full slews loads cd s = OK (cd', s') ->
    same_setup s s' /\
    sims s' = rev (map (sweep_stimulus s) (sweep_pairs slews loads)) ++ sims s /\
    table_extends trim full cd cd' (map (sweep_stimulus s) (sweep_pairs slews loads)).
Proof.
  unfold sweep.
  induction slews as [|slew slews IH]; intros cd s cd' s' Hc H.
  - injection H as <- <-. split; [apply same_setup_refl|].
    split; [reflexivity | apply table_extends_nil].
  - cbn [foldM] in H. apply bind_inv in H as (cd1 & s1 & Hin & H1).
    apply sweep_loads_spec in Hin as (Hs1 & Hsims1 & Ht1); [|exact Hc].
    apply IH in H1 as (Hs & Hsims & Ht2);
      [|exact (has_columns_extends _ _ _ _ _ Hc Ht1)].
    assert (Hm : map (sweep_stimulus s1) (sweep_pairs slews loads) =
                 map (sweep_stimulus s) (sweep_pairs slews loads)).
    { apply map_ext. intros pt. now apply sweep_stimulus_setup. }
    rewrite Hm in Hsims, Ht2.
    cbn [sweep_pairs flat_map]. fold (sweep_pairs slews loads).
    rewrite map_app, map_map. cbn [fst snd].
    split; [exact (same_setup_trans _ _ _ Hs1 Hs)|]. split.
    + rewrite Hsims, Hsims1, rev_app_distr, <- app_assoc. reflexivity.
    + exact (table_extends_app _ _ _ _ _ _ _ Ht1 Ht2).
Qed.

Lemma same_probe_trans s1 s2 s3 :
  same_probe s1 s2 -> same_probe s2 s3 -> same_probe s1 s3.
Proof. intros H1 H2 p. now rewrite H2, H1. Qed.

Lemma same_probe_load_slew s s' :
  same_probe s s' -> load s' = load s /\ slew s' = slew s.
Proof.
  intros H. specialize (H 0%Q). unfold inputs in H. cbn in H.
  injection H as Hn Hw Ha Hc Hl Hs Hpa Hpd Ht Hsi. auto.
Qed.

Lemma feasible_period_loop_same time_out :
  forall p s r s', feasible_period_loop time_out p s = OK (r, s') -> same_probe s s'.
Proof.
  induction time_out as [|n IH]; intros p s r s' H; [discriminate|].
  cbn [feasible_period_loop] in H.
  destruct (n <=? 0)%nat; [discriminate|].
  apply bind_inv in H as (u & s1 & [= <- <-] & H1).
  apply bind_inv in H1 as ([success results] & s2 & Hr & H2).
  pose proof (run_delay_simulation_probe _ _ Hr) as Hp.
  rewrite (run_delay_simulation_ok _ Hp) in Hr.
  destruct (delay_outcome (set_period p s)) as [o|]; [|discriminate].
  injection Hr as -> <-.
  destruct success; cbn [negb] in H2.
  - unfold lift, bind, modify, ret in H2.
    destruct (dict_get results "delay_lh"); [|discriminate].
    destruct (dict_get results "slew_lh"); [|discriminate].
    destruct (dict_get results "delay_hl"); [|discriminate].
    destruct (dict_get results "slew_hl"); [|discriminate].
    injection H2 as <- <-. intros q. reflexivity.
  - apply IH in H2. intros q. rewrite H2. reflexivity.
Qed.

Lemma min_period_loop_same time_out a b :
  forall ub lb s m s', min_period_loop time_out a b ub lb s = OK (m, s') -> same_probe s s'.
Proof.
  induction time_out as [|n IH]; intros ub lb s m s' H; [discriminate|].
  cbn [min_period_loop] in H.
  destruct (n <=? 0)%nat; [discriminate|].
  apply bind_inv in H as (u & s1 & [= <- <-] & H1).
  apply bind_inv in H1 as (ok & s2 & Ht & H2).
  pose proof (try_period_probe _ _ _ _ Ht) as Hp.
  rewrite (try_period_ok _ _ _ Hp) in Ht. injection Ht as <- <-.
  cbv zeta in H2.
  destruct (relative_compare _ _ _).
  - injection H2 as <- <-. intros q. reflexivity.
  - apply IH in H2. intros q. rewrite H2. reflexivity.
Qed.

Lemma run_power_simulation_spec s r s' :
  run_power_simulation s = OK (r, s') ->
  exists full_raw trim_raw,
    spice (power_stimulus false s) "leakage_power" = Num full_raw /\
    spice (power_stimulus true s) "leakage_power" = Num trim_raw /\
    r = (full_raw * 1e3, trim_raw * 1e3)%Q /\
    s' = power_simulated true (power_simulated false s).
Proof.
  unfold run_power_simulation. intros H.
  apply bind_inv in H as (u1 & s1 & Hw & H1).
  pose proof (write_power_stimulus_probe _ _ _ Hw) as Hp.
  rewrite (write_power_stimulus_ok _ _ Hp) in Hw. injection Hw as <- <-.
  apply bind_inv in H1 as (u2 & s2 & [= <- <-] & H2).
  fold (power_stimulus false s) in H2. fold (power_simulated false s) in H2.
  apply bind_inv in H2 as (lk & s3 & Hlk & H3).
  rewrite (parse_simulated _ (power_stimulus false s)) in Hlk by reflexivity.
  injection Hlk as <- <-.
  apply bind_inv in H3 as (u3 & s4 & Hc & H4).
  destruct (spice (power_stimulus false s) "leakage_power") as [full_raw|] eqn:Ef;
    [|discriminate].
  injection Hc as <- <-.
  apply bind_inv in H4 as (u4 & s5 & Hw2 & H5).
  assert (Hp2 : probe_ok (power_simulated false s) = true).
  { rewrite <- Hp. apply probe_ok_fields; reflexivity. }
  assert (Est : power_stimulus true (power_simulated false s) = power_stimulus true s)
    by (apply power_stimulus_inputs; reflexivity).
  remember (power_simulated false s) as sA eqn:EsA.
  rewrite (write_power_stimulus_ok _ _ Hp2) in Hw2. injection Hw2 as <- <-.
  apply bind_inv in H5 as (u5 & s6 & [= <- <-] & H6).
  fold (power_stimulus true sA) in H6. fold (power_simulated true sA) in H6.
  apply bind_inv in H6 as (lk2 & s7 & Hlk2 & H7).
  rewrite (parse_simulated _ (power_stimulus true sA)) in Hlk2 by reflexivity.
  injection Hlk2 as <- <-.
  rewrite Est in H7.
  apply bind_inv in H7 as (u6 & s8 & Hc2 & H8).
  destruct (spice (power_stimulus true s) "leakage_power") as [trim_raw|] eqn:Et;
    [|discriminate].
  injection Hc2 as <- <-.
  injection H8 as <- <-.
  exists full_raw, trim_raw. repeat split; reflexivity.
Qed.

Lemma set_probe_ok pa pd s : set_probe pa pd s = OK (tt, probed pa pd s).
Proof. unfold set_probe, prepare_netlist, probed. destruct trim_netlist; reflexivity. Qed.

Lemma initial_table_column m full k :
  In k result_keys -> initial_table m full !! k = Some (Lst []).
Proof.
  intros Hk. unfold result_keys in Hk. cbn [In] in Hk.
  unfold initial_table, measurement_names. cbn [fold_left].
  destruct Hk as [<-|[<-|[<-|[<-|[<-|[<-|[<-|[<-|[]]]]]]]]];
    rewrite ?lookup_insert_ne by discriminate; apply lookup_insert_eq.
Qed.

Lemma has_columns_initial m full : has_columns (initial_table m full).
Proof. intros k Hk. exists []. now apply initial_table_column. Qed.

(** The steps of a run of [analyze] that returns. *)
Lemma analyze_steps pa pd slews loads s table s' :
  analyze pa pd slews loads s = OK (table, s') ->
  exists max_load max_slew a b s4 m s6 full_raw trim_raw,
    py_max loads = OK max_load /\ py_max slews = OK max_slew /\
    find_feasible_period (set_slew max_slew (set_load max_load (probed pa pd s)))
      = OK ((a, b), s4) /\
    find_min_period a b (set_slew max_slew (set_load max_load s4)) = OK (m, s6) /\
    spice (power_stimulus false s6) "leakage_power" = Num full_raw /\
    spice (power_stimulus true s6) "leakage_power" = Num trim_raw /\
    sweep (trim_raw * 1e3)%Q (full_raw * 1e3)%Q slews loads
          (initial_table m (full_raw * 1e3)%Q)
          (power_simulated true (power_simulated false s6)) = OK (table, s').
Proof.
  unfold analyze. intros H.
  apply bind_inv in H as (u0 & s1 & Hsp & H1).
  rewrite set_probe_ok in Hsp. injection Hsp as <- <-.
  apply bind_inv in H1 as (ml & s2 & Hml & H2).
  unfold lift in Hml. destruct (py_max loads) as [ml'|] eqn:Eml; [|discriminate].
  injection Hml as <- <-.
  apply bind_inv in H2 as (u1 & s3 & [= <- <-] & H3).
  apply bind_inv in H3 as (ms & s3' & Hms & H4).
  unfold lift in Hms. destruct (py_max slews) as [ms'|] eqn:Ems; [|discriminate].
  injection Hms as <- <-.
  apply bind_inv in H4 as (u2 & s3'' & [= <- <-] & H5).
  apply bind_inv in H5 as ([a b] & s4 & Hf & H6).
  apply bind_inv in H6 as (u3 & s4' & Hc1 & H7).
  unfold check in Hc1. destruct (Qgtb a 0); [|discriminate]. injection Hc1 as <- <-.
  apply bind_inv in H7 as (u4 & s4'' & Hc2 & H8).
  unfold check in Hc2. destruct (Qgtb b 0); [|discriminate]. injection Hc2 as <- <-.
  apply bind_inv in H8 as (ml2 & s4a & [= <- <-] & H9).
  apply bind_inv in H9 as (ms2 & s4b & [= <- <-] & H10).
  apply bind_inv in H10 as (u5 & s5 & [= <- <-] & H11).
  apply bind_inv in H11 as (m & s6 & Hm & H12).
  apply bind_inv in H12 as ([full trim] & s7 & Hpw & H13).
  apply run_power_simulation_spec in Hpw as (full_raw & trim_raw & Efull & Etrim & [= -> ->] & ->).
  exists ml', ms', a, b, s4, m, s6, full_raw, trim_raw.
  repeat split; try assumption.
Qed.

Lemma Forall2_map_left {A B C} (R : B -> C -> Prop) (f : A -> B) l l' :
  Forall2 R (map f l) l' -> Forall2 (fun x y => R (f x) y) l l'.
Proof.
  revert l'. induction l as [|x l IH]; intros l' H; inversion H; subst;
    constructor; auto.
Qed.

Lemma column_entries_power trim full k stims vals :
  contains "power" k = true ->
  map (column_entry trim full k) stims = map Some vals ->
  exists raws,
    Forall2 (fun st raw => spice st k = Num raw) stims raws /\
    vals = map (fun raw => leakage_corrected (raw * 1e3) trim full) raws.
Proof.
  intros Hk. revert vals.
  induction stims as [|st stims IH]; intros [|v vals] H; try discriminate.
  - exists []. split; [constructor | reflexivity].
  - cbn [map] in H. injection H as Hv Hrest.
    destruct (IH _ Hrest) as (raws & Hf & ->).
    unfold column_entry in Hv. rewrite Hk in Hv.
    destruct (spice st k) as [raw|] eqn:Er; [|discriminate].
    injection Hv as <-.
    exists (raw :: raws). split; [now constructor | reflexivity].
Qed.

Lemma column_entries_time trim full k stims vals :
  contains "power" k = false ->
  map (column_entry trim full k) stims = map Some vals ->
  exists raws,
    Forall2 (fun st raw => spice st k = Num raw) stims raws /\
    vals = map (fun raw => (raw * 1e9)%Q) raws.
Proof.
  intros Hk. revert vals.
  induction stims as [|st stims IH]; intros [|v vals] H; try discriminate.
  - exists []. split; [constructor | reflexivity].
  - cbn [map] in H. injection H as Hv Hrest.
    destruct (IH _ Hrest) as (raws & Hf & ->).
    unfold column_entry in Hv. rewrite Hk in Hv.
    destruct (spice st k) as [raw|] eqn:Er; [|discriminate].
    injection Hv as <-.
    exists (raw :: raws). split; [now constructor | reflexivity].
Qed.

(** What a run of [analyze] that returns leaves in the table and in the
    object: the sweep has simulated the points of [sweep_pairs] in order,
    at the period the object was left with, and each column holds one entry
    per point. *)
Lemma analyze_sweep pa pd slews loads s table s' :
  analyze pa pd slews loads s = OK (table, s') ->
  exists max_load max_slew m full_raw trim_raw history,
    py_max loads = OK max_load /\ py_max slews = OK max_slew /\
    spice (power_stimulus false (set_slew max_slew (set_load max_load s')))
          "leakage_power" = Num full_raw /\
    spice (power_stimulus true (set_slew max_slew (set_load max_load s')))
          "leakage_power" = Num trim_raw /\
    sims s' = rev (map (sweep_stimulus s') (sweep_pairs slews loads)) ++ history /\
    table_extends (trim_raw * 1e3)%Q (full_raw * 1e3)%Q
      (initial_table m (full_raw * 1e3)%Q) table
      (map (sweep_stimulus s') (sweep_pairs slews loads)).
Proof.
  intros H.
  apply analyze_steps in H
    as (ml & ms & a & b & s4 & m & s6 & full_raw & trim_raw
        & Eml & Ems & Hf & Hm & Efull & Etrim & Hsw).
  apply sweep_spec in Hsw as (Hsame & Hsims & Hext); [|apply has_columns_initial].
  remember (power_simulated true (power_simulated false s6)) as s7 eqn:Es7.
  assert (Hmap : map (sweep_stimulus s7) (sweep_pairs slews loads) =
                 map (sweep_stimulus s') (sweep_pairs slews loads)).
  { apply map_ext. intros pt. symmetry. now apply sweep_stimulus_setup. }
  rewrite Hmap in Hsims, Hext.
  rewrite find_min_period_eq in Hm. apply min_period_loop_same in Hm.
  apply same_probe_load_slew in Hm as [Hl Hs]. cbn in Hl, Hs.
  assert (Hin : inputs (set_slew ms (set_load ml s')) = inputs s6).
  { rewrite (Hsame ml ms). subst s7. unfold inputs. cbn. now rewrite Hl, Hs. }
  exists ml, ms, m, full_raw, trim_raw, (sims s7).
  rewrite (power_stimulus_inputs _ _ _ Hin), (power_stimulus_inputs _ _ _ Hin).
  repeat (split; [assumption|]). assumption.
Qed.

(** C7.  In the table [analyze] returns, every entry of the four dynamic
    power columns is the power measured (in mW) by the sweep's simulation
    of that point, on the trimmed netlist, minus the leakage of the trimmed
    array plus the leakage of the full array, and [leakage_power] is the
    leakage of the full array.  The correction is linear in its three
    inputs; 0.42 mW measured with 0.05 mW trimmed and 0.08 mW full leakage
    gives 0.45 mW. *)
Theorem analyze_power_is_leakage_corrected pa pd slews loads s table s' :
  analyze pa pd slews loads s = OK (table, s') ->
  (exists max_load max_slew full_raw trim_raw,
     py_max loads = OK max_load /\ py_max slews = OK max_slew /\
     spice (power_stimulus false (set_slew max_slew (set_load max_load s')))
           "leakage_power" = Num full_raw /\
     spice (power_stimulus true (set_slew max_slew (set_load max_load s')))
           "leakage_power" = Num trim_raw /\
     table !! "leakage_power" = Some (Scalar (full_raw * 1e3)%Q) /\
     forall k,
       In k ["read0_power"; "read1_power"; "write0_power"; "write1_power"]%string ->
       exists raws,
         Forall2 (fun point raw => spice (sweep_stimulus s' point) k = Num raw)
                 (sweep_pairs slews loads) raws /\
         table !! k =
         Some (Lst (map (fun raw => (raw * 1e3 - trim_raw * 1e3 + full_raw * 1e3)%Q) raws)))
  /\ (forall c d v1 t1 f1 v2 t2 f2,
        leakage_corrected (c * v1 + d * v2) (c * t1 + d * t2) (c * f1 + d * f2) ==
        c * leakage_corrected v1 t1 f1 + d * leakage_corrected v2 t2 f2)%Q
  /\ (leakage_corrected 0.42 0.05 0.08 == 0.45)%Q.
Proof.
  intros H. split; [|split].
  - apply analyze_sweep in H
      as (ml & ms & m & full_raw & trim_raw & history
          & Eml & Ems & Efull & Etrim & _ & [Hcol Hother]).
    exists ml, ms, full_raw, trim_raw. repeat split; try assumption.
    + rewrite Hother by (unfold result_keys; cbn [In]; intros H; repeat destruct H as [H|H]; try discriminate H; exact H).
      apply lookup_insert_eq.
    + intros k Hk.
      assert (Hk' : In k result_keys /\ contains "power" k = true).
      { unfold result_keys. cbn [In] in *.
        destruct Hk as [<-|[<-|[<-|[<-|[]]]]]; (split; [tauto | reflexivity]). }
      destruct Hk' as [Hin Hpow].
      destruct (Hcol k Hin [] (initial_table_column _ _ _ Hin)) as (vals & Et & Hm).
      apply (column_entries_power _ _ _ _ _ Hpow) in Hm as (raws & Hf & ->).
      exists raws. split.
      * exact (Forall2_map_left (fun st raw => spice st k = Num raw) _ _ _ Hf).
      * rewrite Et. reflexivity.
  - intros. unfold leakage_corrected. ring.
  - reflexivity.
Qed.

Lemma power_windows_app l1 l2 :
  power_windows (l1 ++ l2) = power_windows l1 ++ power_windows l2.
Proof.
  induction l1 as [|d l1 IH]; [reflexivity|].
  destruct d; cbn [app power_windows]; rewrite IH; reflexivity.
Qed.

Lemma power_windows_comments l : power_windows (map CommentLine l) = [].
Proof. induction l; [reflexivity | exact IHl]. Qed.

Lemma create_test_cycles_result s s' :
  create_test_cycles s = OK (tt, s') -> s' = with_test_cycles s.
Proof.
  intros H. pose proof (create_test_cycles_valid _ _ H) as Hv.
  rewrite (create_test_cycles_ok _ Hv) in H. now injection H.
Qed.


(** C8.  The stimulus [write_power_stimulus] writes: after the header, the
    netlist, the supplies, the instance and the output loads, every data
    and address pin is held at 0, CSb, WEb and OEb are held at the supply
    voltage, the clock is held at 0, the only power window is
    [leakage_power] from one period to two periods, and the simulation runs
    for two periods. *)
Theorem write_power_stimulus_lines trim s s' :
  write_power_stimulus trim s = OK (tt, s') ->
  sf s' =
  Line (Fmt "* Power stimulus for period of {0}n" [ANum (period s)])
  :: Include (if trim then trim_sp_file s else sim_sp_file s)
  :: generic_lines s ++
  [ Text "* Generation of data and address signals" ] ++
  map (fun i => Constant (pin "DIN" i) 0) (seq 0 (word_size s)) ++
  map (fun i => Constant (pin "A" i) 0) (seq 0 (addr_size s)) ++
  [ Text "* Generation of control signals";
    Constant "CSb" (vdd_voltage (corner s));
    Constant "WEb" (vdd_voltage (corner s));
    Constant "OEb" (vdd_voltage (corner s));
    Text "* Generation of global clock signal";
    Constant "CLK" 0;
    Text "* Measure statements for idle leakage power";
    MeasPower "leakage_power" (period s) (2 * period s)%Q;
    Control (2 * period s)%Q ].
Proof.
  intros H. pose proof (write_power_stimulus_probe _ _ _ H) as Hp.
  rewrite (write_power_stimulus_ok _ _ Hp) in H. injection H as <-.
  reflexivity.
Qed.

Lemma keep_time_iter {T} (add : T -> T -> T) (zero period : T) n :
  Nat.iter n (keep_time add period) (zero, []) =
  (time_after add zero period n, map (time_after add zero period) (seq 0 n)).
Proof.
  induction n as [|n IH]; [reflexivity|].
  cbn [Nat.iter nat_rect]. change (nat_rect _ _ _ n) with
    (Nat.iter n (keep_time add period) (zero, [])).
  rewrite IH. unfold keep_time. cbn [fst snd time_after].
  now rewrite seq_S, map_app.
Qed.

(** The time stamps of [n] cycles over any number type: the first is zero
    and each of the others is the one before plus the period, one addition
    per cycle. *)
Lemma accumulated_times_step {T} (add : T -> T -> T) (zero period : T) n :
  length (accumulated_times add zero period n) = n /\
  (forall t, accumulated_times add zero period n !! 0%nat = Some t -> t = zero) /\
  (forall i t, (S i < n)%nat ->
               accumulated_times add zero period n !! i = Some t ->
               accumulated_times add zero period n !! S i = Some (add t period)).
Proof.
  unfold accumulated_times. rewrite keep_time_iter. cbn [snd].
  split; [now rewrite length_map, length_seq|].
  assert (L : forall i, (i < n)%nat ->
                map (time_after add zero period) (seq 0 n) !! i =
                Some (time_after add zero period i)).
  { intros i Hi. rewrite list_lookup_fmap || rewrite list_lookup_map.
    rewrite lookup_seq_lt by exact Hi. reflexivity. }
  split.
  - intros t Ht. destruct n as [|n]; [discriminate|].
    rewrite L in Ht by lia. now injection Ht as <-.
  - intros i t Hi Ht. rewrite L in Ht by lia. injection Ht as <-.
    rewrite L by lia. reflexivity.
Qed.

(** C9, as the code has it.  After [create_test_cycles] at period [p] the
    time stamps are accumulated, not multiplied: the first is 0 and each of
    the others is the one before plus [p], one addition per cycle; the same
    recurrence holds when the additions are those of binary64.  There are
    11 time stamps, 11 values of each control signal and 11 values in each
    of the [word_size] data streams and [addr_size] address streams; and
    the four power windows [write_delay_measures] then writes run from
    [cycle_times[c]] to [cycle_times[c+1]] for the remembered cycles [c],
    the end of each being its start plus [p]. *)
Theorem test_cycles_aligned s s' :
  create_test_cycles s = OK (tt, s') ->
  cycle_times (cyc s') = accumulated_times Qplus 0%Q (period s) 11 /\
  cycle_times (cyc s') !! 0%nat = Some 0%Q /\
  (forall i t, (S i < 11)%nat ->
               cycle_times (cyc s') !! i = Some t ->
               cycle_times (cyc s') !! S i = Some (t + period s)%Q) /\
  (forall p,
     length (float_cycle_times p) = 11%nat /\
     forall i t, (S i < 11)%nat ->
                 float_cycle_times p !! i = Some t ->
                 float_cycle_times p !! S i = Some (t + p)%float) /\
  length (cycle_times (cyc s')) = 11%nat /\
  length (csb_values (cyc s')) = 11%nat /\
  length (web_values (cyc s')) = 11%nat /\
  length (oeb_values (cyc s')) = 11%nat /\
  length (data_values (cyc s')) = word_size s /\
  Forall (fun stream => length stream = 11%nat) (data_values (cyc s')) /\
  length (addr_values (cyc s')) = addr_size s /\
  Forall (fun stream => length stream = 11%nat) (addr_values (cyc s')) /\
  exists lines,
    write_delay_measures s' = OK (tt, set_sf (sf s' ++ lines) s') /\
    map OK (power_windows lines) =
    [ window_at (cyc s') "WRITE0_POWER" (write0_cycle (marks s'));
      window_at (cyc s') "WRITE1_POWER" (write1_cycle (marks s'));
      window_at (cyc s') "READ0_POWER" (read0_cycle (marks s'));
      window_at (cyc s') "READ1_POWER" (read1_cycle (marks s')) ] /\
    Forall (fun '(n, a, b) => b = (a + period s)%Q) (power_windows lines).
Proof.
  intros H. pose proof (create_test_cycles_valid _ _ H) as Hv.
  apply create_test_cycles_result in H. subst s'.
  apply valid_address_spec in Hv as [Hb Hl].
  assert (Et : cycle_times (cyc (with_test_cycles s)) =
               accumulated_times Qplus 0%Q (period s) 11) by reflexivity.
  split; [exact Et|].
  split; [reflexivity|].
  split.
  { rewrite Et. intros i t.
    apply (accumulated_times_step Qplus 0%Q (period s) 11). }
  split.
  { intros p. unfold float_cycle_times.
    destruct (accumulated_times_step PrimFloat.add 0%float p 11) as (Hlen & _ & Hstep).
    split; [exact Hlen | exact Hstep]. }
  do 4 (split; [reflexivity|]).
  split; [apply length_replicate|].
  split; [apply Forall_forall; intros x Hx; apply elem_of_replicate in Hx as [-> _];
          reflexivity|].
  split; [cbn; now rewrite length_map, length_chars|].
  split; [cbn; apply Forall_forall; intros x Hx; apply list_elem_of_In, in_map_iff in Hx
                 as (c & <- & _); reflexivity|].
  exists (measure_lines (with_test_cycles s)).
  split.
  { pose proof (write_delay_measures_emits _ (has_test_cycles_with s)
                  (sf (with_test_cycles s))) as E.
    now rewrite set_sf_id in E. }
  split.
  { unfold measure_lines. cbv zeta.
    rewrite !power_windows_app, power_windows_comments. reflexivity. }
  unfold measure_lines. cbv zeta.
  rewrite !power_windows_app, power_windows_comments. cbn [power_windows app].
  repeat constructor.
Qed.

Lemma load_after_cons l loads before :
  load_after (l :: loads) before = load_after loads (Some l).
Proof.
  unfold load_after. destruct loads as [|l' loads]; [reflexivity|].
  change (last (l :: l' :: loads)) with (last (l' :: loads)).
  destruct (last (l' :: loads)) eqn:E; [reflexivity|].
  apply last_None in E. discriminate.
Qed.

Lemma analytical_loads sram (slew' : Q) loads :
  forall delay_lh delay_hl slew_lh slew_hl before s,
  exists s',
    foldM (fun acc load' =>
             let '(delay_lh, delay_hl, slew_lh, slew_hl, _) := acc in
             set_load_slew load' slew' ;;
             s <- get ;;
             let bank_delay := sram_analytical_delay sram (slew s) (load s) in
             ret (delay_lh ++ [(fst bank_delay / 1e3)%Q],
                  delay_hl ++ [(fst bank_delay / 1e3)%Q],
                  slew_lh ++ [(snd bank_delay / 1e3)%Q],
                  slew_hl ++ [(snd bank_delay / 1e3)%Q],
                  Some load'))
          loads (delay_lh, delay_hl, slew_lh, slew_hl, before) s =
    OK ((delay_lh ++ map (fun l => (fst (sram_analytical_delay sram slew' l) / 1e3)%Q) loads,
         delay_hl ++ map (fun l => (fst (sram_analytical_delay sram slew' l) / 1e3)%Q) loads,
         slew_lh ++ map (fun l => (snd (sram_analytical_delay sram slew' l) / 1e3)%Q) loads,
         slew_hl ++ map (fun l => (snd (sram_analytical_delay sram slew' l) / 1e3)%Q) loads,
         load_after loads before), s') /\
    corner s' = corner s.
Proof.
  induction loads as [|l loads IH]; intros dl dh sl sh before s.
  - exists s. cbn [foldM map]. unfold ret. rewrite !app_nil_r. split; reflexivity.
  - destruct (IH (dl ++ [(fst (sram_analytical_delay sram slew' l) / 1e3)%Q])
                 (dh ++ [(fst (sram_analytical_delay sram slew' l) / 1e3)%Q])
                 (sl ++ [(snd (sram_analytical_delay sram slew' l) / 1e3)%Q])
                 (sh ++ [(snd (sram_analytical_delay sram slew' l) / 1e3)%Q])
                 (Some l) (set_slew slew' (set_load l s))) as (s' & E & Hc).
    exists s'. split; [|exact Hc].
    cbn [foldM]. eapply bind_ok; [reflexivity|].
    etransitivity; [exact E|].
    cbn [map]. rewrite <- !app_assoc, load_after_cons. reflexivity.
Qed.

Lemma analytical_sweep sram loads slews :
  forall delay_lh delay_hl slew_lh slew_hl before s,
  exists s',
    foldM (fun acc slew' =>
             foldM (fun acc load' =>
                      let '(delay_lh, delay_hl, slew_lh, slew_hl, _) := acc in
                      set_load_slew load' slew' ;;
                      s <- get ;;
                      let bank_delay := sram_analytical_delay sram (slew s) (load s) in
                      ret (delay_lh ++ [(fst bank_delay / 1e3)%Q],
                           delay_hl ++ [(fst bank_delay / 1e3)%Q],
                           slew_lh ++ [(snd bank_delay / 1e3)%Q],
                           slew_hl ++ [(snd bank_delay / 1e3)%Q],
                           Some load'))
                   loads acc)
          slews (delay_lh, delay_hl, slew_lh, slew_hl, before) s =
    OK ((delay_lh ++ analytical_delays sram slews loads,
         delay_hl ++ analytical_delays sram slews loads,
         slew_lh ++ analytical_slews sram slews loads,
         slew_hl ++ analytical_slews sram slews loads,
         load_after_sweep slews loads before), s') /\
    corner s' = corner s.
Proof.
  induction slews as [|sl slews IH]; intros dl dh sll shh before s.
  - exists s. cbn [foldM]. unfold ret, analytical_delays, analytical_slews.
    cbn [sweep_pairs flat_map map]. rewrite !app_nil_r. split; reflexivity.
  - destruct (analytical_loads sram sl loads dl dh sll shh before s) as (s1 & E1 & Hc1).
    destruct (IH (dl ++ map (fun l => (fst (sram_analytical_delay sram sl l) / 1e3)%Q) loads)
                 (dh ++ map (fun l => (fst (sram_analytical_delay sram sl l) / 1e3)%Q) loads)
                 (sll ++ map (fun l => (snd (sram_analytical_delay sram sl l) / 1e3)%Q) loads)
                 (shh ++ map (fun l => (snd (sram_analytical_delay sram sl l) / 1e3)%Q) loads)
                 (load_after loads before) s1) as (s' & E & Hc).
    exists s'. split; [|congruence].
    cbn [foldM]. eapply bind_ok; [exact E1|].
    etransitivity; [exact E|].
    unfold analytical_delays, analytical_slews.
    cbn [sweep_pairs flat_map load_after_sweep]. fold (sweep_pairs slews loads).
    rewrite !map_app, !map_map, <- !app_assoc. cbn [fst snd]. reflexivity.
Qed.

Lemma load_after_sweep_last slews loads before l :
  slews <> [] -> last loads = Some l -> load_after_sweep slews loads before = Some l.
Proof.
  intros Hs Hl. destruct slews as [|sl slews]; [contradiction|]. clear Hs.
  cbn [load_after_sweep].
  assert (E : forall b, load_after loads b = Some l) by (intros b; unfold load_after; now rewrite Hl).
  rewrite E. clear before.
  induction slews as [|sl' slews IH]; [reflexivity|].
  cbn [load_after_sweep]. now rewrite E.
Qed.

Lemma load_after_sweep_empty slews loads :
  slews = [] \/ loads = [] -> load_after_sweep slews loads None = None.
Proof.
  intros [->| ->]; [reflexivity|].
  induction slews as [|sl slews IH]; [reflexivity|exact IH].
Qed.

(** X25.  On a sweep without a point the loop variable [load] is never bound,
    and the power estimate after the loops raises. *)
Lemma analytical_delay_empty_sweep sram slews loads s :
  slews = [] \/ loads = [] ->
  analytical_delay sram slews loads s = Fatal "NameError: name 'load' is not defined".
Proof.
  intros H. unfold analytical_delay.
  destruct (analytical_sweep sram loads slews [] [] [] [] None s) as (s' & E & _).
  eapply bind_ok; [exact E|]. cbv beta iota.
  rewrite (load_after_sweep_empty _ _ H). reflexivity.
Qed.

(** C10.  For a sweep that has at least one slew and one load,
    [analytical_delay] returns a table in which [min_period] is 0, the
    [delay_lh] and [delay_hl] columns are the same list and so are
    [slew_lh] and [slew_hl], with one entry per (slew, load) pair, and the
    four dynamic power entries are one and the same number: the dynamic
    power of the analytical model evaluated at the last load of the sweep
    only, in mW. *)
Theorem analytical_delay_table sram slews loads s last_load :
  slews <> [] ->
  last loads = Some last_load ->
  exists data s',
    analytical_delay sram slews loads s = OK (data, s') /\
    data !! "min_period" = Some (Scalar 0) /\
    data !! "delay_lh" = Some (Lst (analytical_delays sram slews loads)) /\
    data !! "delay_hl" = Some (Lst (analytical_delays sram slews loads)) /\
    data !! "slew_lh" = Some (Lst (analytical_slews sram slews loads)) /\
    data !! "slew_hl" = Some (Lst (analytical_slews sram slews loads)) /\
    length (analytical_delays sram slews loads) = (length slews * length loads)%nat /\
    length (analytical_slews sram slews loads) = (length slews * length loads)%nat /\
    let dynamic :=
      (fst (sram_analytical_power sram (process (corner s)) (vdd_voltage (corner s))
              (temperature (corner s)) last_load) / 1e6)%Q in
    data !! "read0_power" = Some (Scalar dynamic) /\
    data !! "read1_power" = Some (Scalar dynamic) /\
    data !! "write0_power" = Some (Scalar dynamic) /\
    data !! "write1_power" = Some (Scalar dynamic).
Proof.
  intros Hs Hl. unfold analytical_delay.
  destruct (analytical_sweep sram loads slews [] [] [] [] None s) as (s' & E & Hc).
  eexists _, _. split.
  { eapply bind_ok; [exact E|]. cbv beta iota. cbn [app].
    rewrite (load_after_sweep_last _ _ _ _ Hs Hl).
    unfold bind, get, ret. rewrite Hc. reflexivity. }
  assert (Hlen : length (sweep_pairs slews loads) = (length slews * length loads)%nat).
  { clear. induction slews as [|sl slews IH]; [reflexivity|].
    cbn [sweep_pairs flat_map length]. fold (sweep_pairs slews loads).
    rewrite length_app, length_map, IH. reflexivity. }
  unfold analytical_delays, analytical_slews. rewrite !length_map, Hlen.
  repeat split;
    rewrite ?lookup_insert_ne by discriminate; apply lookup_insert_eq.
Qed.

(** *** Probe points and addresses *)

Lemma lstrip_binary a : is_binary a = true -> lstrip a = a.
Proof.
  destruct a as [|c a]; [reflexivity|].
  cbn [is_binary]. intros H. apply andb_true_iff in H as [Hc _].
  destruct (is_bit_cases _ Hc); subst c; reflexivity.
Qed.

Lemma rstrip_binary a : is_binary a = true -> rstrip a = a.
Proof.
  induction a as [|c a IH]; [reflexivity|].
  cbn [is_binary rstrip]. intros H. apply andb_true_iff in H as [Hc Ha].
  rewrite (IH Ha). destruct a as [|c' a]; [|reflexivity].
  destruct (is_bit_cases _ Hc); subst c; reflexivity.
Qed.

Lemma bin_digits_binary a :
  is_binary a = true -> forall acc, exists v, bin_digits a acc true = Some v.
Proof.
  induction a as [|c a IH]; intros H acc; [now exists acc|].
  cbn [is_binary] in H. apply andb_true_iff in H as [Hc Ha].
  destruct (is_bit_cases _ Hc); subst c; cbn; apply (IH Ha).
Qed.

(** [int(a, 2)] reads every non-empty string of ['0'] and ['1']; the empty
    string is a [ValueError]. *)
Lemma py_int2_binary a :
  is_binary a = true -> a <> EmptyString -> exists v, py_int2 a = Some v.
Proof.
  intros Hb Hne. unfold py_int2.
  rewrite (lstrip_binary _ Hb), (rstrip_binary _ Hb).
  destruct a as [|c a]; [contradiction|]. clear Hne.
  cbn [is_binary] in Hb. apply andb_true_iff in Hb as [Hc Ha].
  assert (Hd : forall acc, exists v, bin_digits (String c a) acc false = Some v).
  { intros acc. destruct (is_bit_cases _ Hc); subst c; cbn; apply (bin_digits_binary _ Ha). }
  destruct a as [|c' a].
  - destruct (is_bit_cases _ Hc); subst c; cbn; eauto.
  - cbn [is_binary] in Ha. apply andb_true_iff in Ha as [Hc' Ha].
    destruct (Hd 0%Z) as [v Ev].
    destruct (is_bit_cases _ Hc); subst c;
      destruct (is_bit_cases _ Hc'); subst c';
      cbn [Ascii.eqb Bool.eqb andb orb]; rewrite Ev; eauto.
Qed.

Lemma probe_ok_accepted s : probe_ok s = true <-> accepted_probe s.
Proof.
  unfold probe_ok, accepted_probe. rewrite andb_true_iff, valid_address_spec.
  unfold args_ok, check_arguments, bind, get, ret, error. split.
  - intros [Ha [Hb Hl]].
    split; [exact Hb|]. split.
    { intros E. rewrite E in Ha. discriminate Ha. }
    split; [exact Hl|].
    destruct (py_int2 (probe_address s)); [|discriminate].
    destruct (negb _); [discriminate|].
    destruct (probe_data s) as [d|]; [|discriminate].
    destruct (d >? Z.of_nat (word_size s))%Z eqn:E1; [discriminate|].
    destruct (d <? 0)%Z eqn:E2; [discriminate|].
    exists d. split; [reflexivity|]. lia.
  - intros (Hb & Hne & Hl & d & Hd & Hr).
    split; [|split; assumption].
    destruct (py_int2_binary _ Hb Hne) as [v ->].
    rewrite Hl, Nat.eqb_refl, Hd. cbn [negb].
    replace (d >? Z.of_nat (word_size s))%Z with false by (symmetry; lia).
    replace (d <? 0)%Z with false by (symmetry; lia).
    reflexivity.
Qed.

(** X1.  The two stimulus writers write a file exactly for the accepted probe
    points, and abort for every other. *)
Theorem stimulus_writers_accept s :
  (is_ok (write_delay_stimulus s) = true <-> accepted_probe s) /\
  (forall trim, is_ok (write_power_stimulus trim s) = true <-> accepted_probe s).
Proof.
  split; [|intros trim]; rewrite <- probe_ok_accepted; split.
  - destruct (write_delay_stimulus s) as [r|] eqn:E; [|discriminate].
    intros _. exact (write_delay_stimulus_probe _ _ E).
  - intros H. now rewrite (write_delay_stimulus_ok _ H).
  - destruct (write_power_stimulus trim s) as [r|] eqn:E; [|discriminate].
    intros _. exact (write_power_stimulus_probe _ _ _ E).
  - intros H. now rewrite (write_power_stimulus_ok _ _ H).
Qed.

Lemma invert_address_nonbinary a :
  is_binary a = false -> invert_address a = Fatal "Non-binary address string".
Proof.
  induction a as [|c a IH]; [discriminate|].
  cbn [is_binary invert_address]. unfold is_bit.
  destruct (Ascii.eqb c "0"); cbn [orb andb].
  - intros H. now rewrite (IH H).
  - destruct (Ascii.eqb c "1"); cbn [andb]; [|reflexivity].
    intros H. now rewrite (IH H).
Qed.

(** X2.  [check_arguments] tests the address with [int(..., 2)], which also
    reads a sign, blanks, underscores and a [0b] prefix; the test program
    takes only ['0'] and ['1'].  An address that passes the first and not the
    second aborts the writer in [create_test_cycles]. *)
Theorem write_delay_stimulus_nonbinary_address s :
  check_arguments s = OK (tt, s) ->
  is_binary (probe_address s) = false ->
  write_delay_stimulus s = Fatal "Non-binary address string" /\
  forall trim, write_power_stimulus trim s = Fatal "Non-binary address string".
Proof.
  intros Hc Hb.
  assert (Ht : create_test_cycles s = Fatal "Non-binary address string").
  { unfold create_test_cycles.
    unfold bind at 1. unfold modify at 1. unfold bind at 1. unfold get at 1.
    unfold bind at 1. unfold lift at 1.
    change (probe_address (set_cyc _ s)) with (probe_address s).
    now rewrite (invert_address_nonbinary _ Hb). }
  split; [|intros trim].
  - unfold write_delay_stimulus. unfold bind at 1. rewrite Hc.
    unfold bind at 1. now rewrite Ht.
  - unfold write_power_stimulus. unfold bind at 1. rewrite Hc.
    unfold bind at 1. now rewrite Ht.
Qed.

Lemma flip_char_bit c : is_bit c = true -> flip_char (flip_char c) = c /\ flip_char c <> c.
Proof.
  intros H. destruct (is_bit_cases _ H); subst c; (split; [reflexivity|discriminate]).
Qed.

(** X3.  The scratch address: as long as the probe address, different from it
    in every bit, and its own inverse is the probe address again. *)
Theorem invert_address_involutive a r :
  invert_address a = OK r ->
  String.length r = String.length a /\
  invert_address r = OK a /\
  (forall i c, String.get i a = Some c -> exists c', String.get i r = Some c' /\ c' <> c).
Proof.
  intros H. pose proof (invert_address_binary _ _ H) as Hb.
  rewrite (invert_address_ok _ Hb) in H. injection H as <-.
  split; [apply length_string_map|]. split.
  - rewrite (invert_address_ok _ (is_binary_flip _ Hb)). f_equal.
    induction a as [|c a IH]; [reflexivity|].
    cbn [is_binary] in Hb. apply andb_true_iff in Hb as [Hc Ha].
    cbn [string_map]. now rewrite (proj1 (flip_char_bit _ Hc)), (IH Ha).
  - induction a as [|c a IH]; intros i c0 Hg; [discriminate|].
    cbn [is_binary] in Hb. apply andb_true_iff in Hb as [Hc Ha].
    destruct i as [|i]; cbn [String.get string_map] in *.
    + injection Hg as <-. exists (flip_char c). split; [reflexivity|].
      apply (flip_char_bit _ Hc).
    + apply (IH Ha _ _ Hg).
Qed.

(** *** The cycle sequencer *)

Lemma append_bits_nonbinary msg bits :
  forall (pre vals : list (list Z)),
    is_binary bits = false ->
    String.length bits = length vals ->
    append_bits msg bits (length pre) (pre ++ vals) = Fatal msg.
Proof.
  induction bits as [|c bits IH]; intros pre vals Hb Hl; [discriminate|].
  destruct vals as [|v vals]; [discriminate|].
  cbn [String.length length] in Hl. injection Hl as Hl.
  assert (Hlook : (pre ++ v :: vals) !! length pre = Some v)
    by apply list_lookup_middle, eq_refl.
  assert (Hins : forall x, <[length pre := x]> (pre ++ v :: vals) = (pre ++ [x]) ++ vals).
  { intros x. rewrite insert_app_r_alt by lia.
    rewrite Nat.sub_diag. simpl. now rewrite <- app_assoc. }
  assert (Hlen : forall x : list Z, S (length pre) = length (pre ++ [x])).
  { intros x. rewrite length_app. simpl. lia. }
  cbn [is_binary] in Hb. unfold is_bit in Hb. cbn [append_bits].
  destruct (Ascii.eqb c "0"); cbn [orb andb] in Hb.
  - rewrite Hlook, Hins, (Hlen (v ++ [0%Z])). now apply IH.
  - destruct (Ascii.eqb c "1"); cbn [andb] in Hb; [|reflexivity].
    rewrite Hlook, Hins, (Hlen (v ++ [1%Z])). now apply IH.
Qed.

(** X4.  [add_data] and [add_address]: a string of the wrong length and a
    character that is neither ['0'] nor ['1'] abort; otherwise character [k]
    appends its bit to stream [k] and nothing else changes. *)
Theorem add_data_appends_bits bits s :
  length (data_values (cyc s)) = word_size s ->
  length (addr_values (cyc s)) = addr_size s ->
  (add_data bits s =
   if negb (String.length bits =? word_size s)%nat then Fatal "Invalid data word size."
   else if negb (is_binary bits) then Fatal "Non-binary data string"
   else OK (tt, set_cyc (set_data_values
                           (zip_with (fun v c => v ++ [bit_of c]) (data_values (cyc s))
                                     (list_ascii_of_string bits)) (cyc s)) s)) /\
  (add_address bits s =
   if negb (String.length bits =? addr_size s)%nat then Fatal "Invalid address size."
   else if negb (is_binary bits) then Fatal "Non-binary address string"
   else OK (tt, set_cyc (set_addr_values
                           (zip_with (fun v c => v ++ [bit_of c]) (addr_values (cyc s))
                                     (list_ascii_of_string bits)) (cyc s)) s)).
Proof.
  intros Hd Ha. split.
  - unfold add_data, bind, get, check, lift, modify, ret, error.
    destruct (String.length bits =? word_size s)%nat eqn:El; [|reflexivity].
    apply Nat.eqb_eq in El. cbn [negb].
    destruct (is_binary bits) eqn:Eb; cbn [negb].
    + now rewrite append_bits_all by congruence.
    + now rewrite (append_bits_nonbinary _ bits [] (data_values (cyc s)) Eb) by congruence.
  - unfold add_address, bind, get, check, lift, modify, ret, error.
    destruct (String.length bits =? addr_size s)%nat eqn:El; [|reflexivity].
    apply Nat.eqb_eq in El. cbn [negb].
    destruct (is_binary bits) eqn:Eb; cbn [negb].
    + now rewrite append_bits_all by congruence.
    + now rewrite (append_bits_nonbinary _ bits [] (addr_values (cyc s)) Eb) by congruence.
Qed.

Lemma py_index_last {A} (l : list A) x : py_index (l ++ [x]) (Z.of_nat (length l)) = OK x.
Proof. apply py_index_middle. Qed.

Lemma zip_with_bits_length n (vals : list (list Z)) :
  forall chars,
    Forall (fun v => length v = n) vals ->
    Forall (fun v => length v = S n) (zip_with (fun v c => v ++ [bit_of c]) vals chars).
Proof.
  induction vals as [|v vals IH]; intros chars H; [constructor|].
  destruct chars as [|c chars]; [constructor|].
  apply Forall_cons in H as [Hv Hvals]. cbn [zip_with]. constructor.
  - rewrite length_app. cbn. lia.
  - now apply IH.
Qed.

Lemma zip_with_bits_bus n (vals : list (list Z)) :
  forall chars : list ascii,
    Forall (fun v => length v = n) vals ->
    length vals = length chars ->
    bus_at (zip_with (fun v c => v ++ [bit_of c]) vals chars) (Z.of_nat n) =
    map (fun c => OK (bit_of c)) chars.
Proof.
  induction vals as [|v vals IH]; intros chars H Hl.
  - destruct chars; [reflexivity|discriminate].
  - destruct chars as [|c chars]; [discriminate|].
    apply Forall_cons in H as [Hv Hvals]. injection Hl as Hl.
    unfold bus_at in *. cbn [zip_with map]. f_equal.
    + rewrite <- Hv. apply py_index_last.
    + now apply IH.
Qed.

Lemma cycle_aligned (nf : delay -> nat) comment web oeb csb address data n s :
  aligned (word_size s) (addr_size s) n (cyc s) ->
  is_binary data = true -> String.length data = word_size s ->
  is_binary address = true -> String.length address = addr_size s ->
  exists s',
    (modify (fun s => start_cycle (nf s) comment web oeb csb s) ;;
     add_data data ;; add_address address) s = OK (tt, s') /\
    aligned (word_size s) (addr_size s) (S n) (cyc s') /\
    py_index (csb_values (cyc s')) (Z.of_nat n) = OK csb /\
    py_index (web_values (cyc s')) (Z.of_nat n) = OK web /\
    py_index (oeb_values (cyc s')) (Z.of_nat n) = OK oeb /\
    cycle_times (cyc s') = cycle_times (cyc s) ++ [t_current (cyc s)] /\
    t_current (cyc s') = (t_current (cyc s) + period s)%Q /\
    bus_at (data_values (cyc s')) (Z.of_nat n) = bits_of data /\
    bus_at (addr_values (cyc s')) (Z.of_nat n) = bits_of address /\
    inputs s' = inputs s.
Proof.
  intros (Hcm & Hct & Hw & Ho & Hc & Hdl & Hdf & Hal & Haf) Hbd Hld Hba Hla.
  set (s1 := start_cycle (nf s) comment web oeb csb s).
  destruct (add_data_appends_bits data s1 Hdl Hal) as [Ed _].
  change (word_size s1) with (word_size s) in Ed.
  rewrite Hld, Nat.eqb_refl, Hbd in Ed. cbn [negb] in Ed.
  set (s2 := set_cyc _ s1) in Ed.
  destruct (add_data_appends_bits address s2) as [_ Ea].
  { cbn. rewrite length_zip_with, Hdl, length_chars, Hld. lia. }
  { exact Hal. }
  change (addr_size s2) with (addr_size s) in Ea.
  rewrite Hla, Nat.eqb_refl, Hba in Ea. cbn [negb] in Ea.
  eexists. split.
  { eapply bind_ok; [reflexivity|]. eapply bind_ok; [exact Ed|]. exact Ea. }
  cbn.
  split.
  { unfold aligned. cbn. rewrite !length_app, !length_zip_with, !length_chars. cbn.
    repeat split; try lia.
    - now apply zip_with_bits_length.
    - now apply zip_with_bits_length. }
  split; [rewrite <- Hc; apply py_index_last|].
  split; [rewrite <- Hw; apply py_index_last|].
  split; [rewrite <- Ho; apply py_index_last|].
  split; [reflexivity|]. split; [reflexivity|].
  split; [apply zip_with_bits_bus; [exact Hdf | now rewrite length_chars, Hld]|].
  split; [apply zip_with_bits_bus; [exact Haf | now rewrite length_chars, Hla]|].
  reflexivity.
Qed.

(** X5.  [add_noop], [add_read] and [add_write] on aligned cycle lists, with a
    data word and an address of ['0'] and ['1'] of the bus widths: each
    appends one cycle, which keeps the lists aligned, starts at the current
    time and advances it by one period, drives the control values of an idle,
    a read and a write cycle, and puts the bits of the word and of the address
    on the pins; nothing but the cycle lists changes. *)
Theorem add_cycle_keeps_alignment n comment address data s :
  aligned (word_size s) (addr_size s) n (cyc s) ->
  is_binary data = true -> String.length data = word_size s ->
  is_binary address = true -> String.length address = addr_size s ->
  forall op kind,
    In (op, kind) [(add_noop, Idle); (add_read, Read); (add_write, Write)] ->
    exists s',
      op comment address data s = OK (tt, s') /\
      aligned (word_size s) (addr_size s) (S n) (cyc s') /\
      cycle_kind (cyc s') (Z.of_nat n) = Some kind /\
      cycle_times (cyc s') = cycle_times (cyc s) ++ [t_current (cyc s)] /\
      t_current (cyc s') = (t_current (cyc s) + period s)%Q /\
      bus_at (data_values (cyc s')) (Z.of_nat n) = bits_of data /\
      bus_at (addr_values (cyc s')) (Z.of_nat n) = bits_of address /\
      inputs s' = inputs s.
Proof.
  intros Hal Hbd Hld Hba Hla op kind Hin.
  cbn [In] in Hin. destruct Hin as [[= <- <-]|[[= <- <-]|[[= <- <-]|[]]]].
  - destruct (cycle_aligned (fun s => length (cycle_times (cyc s))) comment 1 1 1
                _ _ _ _ Hal Hbd Hld Hba Hla)
      as (s' & E & H1 & Hc & Hw & Ho & H2).
    exists s'. split; [exact E|]. split; [exact H1|]. split; [|exact H2].
    unfold cycle_kind. now rewrite Hc, Hw, Ho.
  - destruct (cycle_aligned (fun s => length (cycle_comments (cyc s))) comment 1 0 0
                _ _ _ _ Hal Hbd Hld Hba Hla)
      as (s' & E & H1 & Hc & Hw & Ho & H2).
    exists s'. split; [exact E|]. split; [exact H1|]. split; [|exact H2].
    unfold cycle_kind. now rewrite Hc, Hw, Ho.
  - destruct (cycle_aligned (fun s => length (cycle_comments (cyc s))) comment 0 1 0
                _ _ _ _ Hal Hbd Hld Hba Hla)
      as (s' & E & H1 & Hc & Hw & Ho & H2).
    exists s'. split; [exact E|]. split; [exact H1|]. split; [|exact H2].
    unfold cycle_kind. now rewrite Hc, Hw, Ho.
Qed.

(** X6.  [create_test_cycles] rebuilds the cycle lists from nothing: run on
    the object it has just left, it leaves the same object again, so the
    cycles of one simulation never pile up on those of the previous one. *)
Theorem create_test_cycles_idempotent s s1 :
  create_test_cycles s = OK (tt, s1) -> create_test_cycles s1 = OK (tt, s1).
Proof.
  intros H. pose proof (create_test_cycles_valid _ _ H) as Hv.
  apply create_test_cycles_result in H. subst s1.
  rewrite create_test_cycles_ok by exact Hv. reflexivity.
Qed.

Lemma map_replicate {A B} (f : A -> B) n x : map f (replicate n x) = replicate n (f x).
Proof. induction n; simpl; congruence. Qed.

(** X7.  The test program, cycle by cycle.  The two measured writes put the
    word of zeros and then the word of ones at the probe address, and the two
    measured reads read the probe address.  Each measured read comes right
    after a read of the scratch address, which was last written with the
    opposite word, so that the outputs switch on the measured read. *)
Theorem create_test_cycles_drives_probe s s' :
  create_test_cycles s = OK (tt, s') ->
  let c := cyc s' in
  let m := marks s' in
  let probe := bits_of (probe_address s) in
  let scratch := bits_of (string_map flip_char (probe_address s)) in
  let zeros := replicate (word_size s) (OK 0%Z) in
  let ones := replicate (word_size s) (OK 1%Z) in
  bus_at (addr_values c) (write0_cycle m) = probe /\
  bus_at (data_values c) (write0_cycle m) = zeros /\
  bus_at (addr_values c) (read0_cycle m) = probe /\
  bus_at (addr_values c) (write1_cycle m) = probe /\
  bus_at (data_values c) (write1_cycle m) = ones /\
  bus_at (addr_values c) (read1_cycle m) = probe /\
  (cycle_kind c (write0_cycle m - 1) = Some Write /\
   bus_at (addr_values c) (write0_cycle m - 1) = scratch /\
   bus_at (data_values c) (write0_cycle m - 1) = ones) /\
  (cycle_kind c (read0_cycle m - 1) = Some Read /\
   bus_at (addr_values c) (read0_cycle m - 1) = scratch) /\
  (cycle_kind c (write1_cycle m + 1) = Some Write /\
   bus_at (addr_values c) (write1_cycle m + 1) = scratch /\
   bus_at (data_values c) (write1_cycle m + 1) = zeros) /\
  (cycle_kind c (read1_cycle m - 1) = Some Read /\
   bus_at (addr_values c) (read1_cycle m - 1) = scratch).
Proof.
  intros H. apply create_test_cycles_result in H. subst s'. cbv zeta.
  unfold bits_of, bus_at. rewrite chars_string_map.
  cbn [cyc marks with_test_cycles set_marks set_cyc test_cycles test_marks
       addr_values data_values write0_cycle read0_cycle write1_cycle read1_cycle
       Z.sub Z.add Z.opp Z.pos_sub Pos.add Pos.succ Pos.pred_double].
  rewrite !map_map, !map_replicate.
  repeat split; reflexivity.
Qed.

(** *** The delay stimulus *)

(** A line among the parts of a file. *)
Ltac find_line tac :=
  first [ solve [tac ()]
        | apply in_or_app; first [ left; find_line tac | right; find_line tac ]
        | left; solve [tac ()]
        | right; find_line tac ].

(** X8.  The stimulus file is opened for writing: what it held before is gone,
    and writing the stimulus again for the object just left gives the same
    object. *)
Theorem write_delay_stimulus_rewrites s s1 :
  write_delay_stimulus s = OK (tt, s1) ->
  (forall old, write_delay_stimulus (set_sf old s) = OK (tt, s1)) /\
  write_delay_stimulus s1 = OK (tt, s1).
Proof.
  intros H. pose proof (write_delay_stimulus_probe _ _ H) as Hp.
  rewrite (write_delay_stimulus_ok _ Hp) in H. injection H as <-.
  split; [intros old|].
  - rewrite write_delay_stimulus_ok; [reflexivity|].
    rewrite <- Hp. apply probe_ok_fields; reflexivity.
  - rewrite write_delay_stimulus_ok; [reflexivity|].
    rewrite <- Hp. apply probe_ok_fields; reflexivity.
Qed.

(** X9.  The schedule of the delay stimulus at period [p]: the clock is a
    pulse of period [p] that starts after one period; the falling output is
    measured from the time stamp of cycle 4 and the rising output from the
    time stamp of cycle 9, both on the output of the probed bit and at half
    the supply voltage, the slews between 10% and 90% of it; and the
    simulation runs until the last of the 11 time stamps plus [p].  The time
    stamps are those the sequencer has accumulated, 0 and then one addition
    of [p] per cycle. *)
Theorem write_delay_stimulus_schedule s s' :
  write_delay_stimulus s = OK (tt, s') ->
  let p := period s in
  let vdd := vdd_voltage (corner s) in
  let out := ("DOUT[" +:+ py_str (probe_data s) +:+ "]")%string in
  In (Pulse "CLK" 0 vdd p p (slew s) (slew s)) (sf s') /\
  cycle_times (cyc s') = accumulated_times Qplus 0%Q p 11 /\
  exists t4 t9 t_last,
    cycle_times (cyc s') !! 4%nat = Some t4 /\
    cycle_times (cyc s') !! 9%nat = Some t9 /\
    last (cycle_times (cyc s')) = Some t_last /\
    In (MeasDelay "DELAY_HL" "clk" out (0.5 * vdd) (0.5 * vdd) "RISE" "FALL" t4 t4) (sf s') /\
    In (MeasDelay "DELAY_LH" "clk" out (0.5 * vdd) (0.5 * vdd) "RISE" "RISE" t9 t9) (sf s') /\
    In (MeasDelay "SLEW_HL" out out (0.9 * vdd) (0.1 * vdd) "FALL" "FALL" t4 t4) (sf s') /\
    In (MeasDelay "SLEW_LH" out out (0.1 * vdd) (0.9 * vdd) "RISE" "RISE" t9 t9) (sf s') /\
    last (sf s') = Some (Control (t_last + p)%Q).
Proof.
  intros H. pose proof (write_delay_stimulus_probe _ _ H) as Hp.
  rewrite (write_delay_stimulus_ok _ Hp) in H. injection H as <-.
  cbv zeta.
  change (cycle_times (cyc (delay_written s)))
    with (accumulated_times Qplus 0%Q (period s) 11).
  change (sf (delay_written s)) with (delay_lines (staged s)).
  unfold delay_lines.
  change (period (staged s)) with (period s).
  change (slew (staged s)) with (slew s).
  change (corner (staged s)) with (corner s).
  split; [find_line ltac:(fun _ => reflexivity)|].
  split; [reflexivity|].
  exists (advance 4 0 (period s)), (advance 9 0 (period s)), (advance 10 0 (period s)).
  do 3 (split; [reflexivity|]).
  unfold measure_lines. cbv zeta.
  change (period (staged s)) with (period s).
  change (probe_data (staged s)) with (probe_data s).
  change (corner (staged s)) with (corner s).
  split; [find_line ltac:(fun _ => reflexivity)|].
  split; [find_line ltac:(fun _ => reflexivity)|].
  split; [find_line ltac:(fun _ => reflexivity)|].
  split; [find_line ltac:(fun _ => reflexivity)|].
  rewrite !app_assoc. apply last_snoc.
Qed.

(** X10.  The sources of the delay stimulus: every data pin [DIN[i]] is driven
    with 0 except in the cycles 1 and 6, where the word of ones is written;
    address pin [A[i]] follows bit [i] of the probe address in the cycles 2,
    4, 6, 9 and 10 and its inverse in the others; and the three control pins
    get the control values of the 11 cycles.  All are piecewise-linear sources
    over the same 11 clock edges, at the slew of the object and a set-up time
    of 0.05 ns. *)
Theorem write_delay_stimulus_sources s s' :
  write_delay_stimulus s = OK (tt, s') ->
  let pwl sig_name values :=
    Pwl sig_name (edge_times 11 0 (period s)) values (period s) (slew s) 0.05 in
  (forall i, (i < word_size s)%nat ->
             In (pwl (pin "DIN" i) [0; 1; 0; 0; 0; 0; 1; 0; 0; 0; 0]%Z) (sf s')) /\
  (forall i c, String.get i (probe_address s) = Some c ->
               let a := bit_of c in
               let n := bit_of (flip_char c) in
               In (pwl (pin "A" i) [n; n; a; n; a; n; a; n; n; a; a]) (sf s')) /\
  In (pwl "csb" [1; 0; 0; 0; 0; 1; 0; 0; 0; 0; 1]%Z) (sf s') /\
  In (pwl "web" [1; 0; 0; 1; 1; 1; 0; 0; 1; 1; 1]%Z) (sf s') /\
  In (pwl "oeb" [1; 1; 1; 0; 0; 1; 1; 1; 0; 0; 1]%Z) (sf s').
Proof.
  intros H. pose proof (write_delay_stimulus_probe _ _ H) as Hp.
  rewrite (write_delay_stimulus_ok _ Hp) in H. injection H as <-.
  cbv zeta. change (sf (delay_written s)) with (delay_lines (staged s)).
  unfold delay_lines.
  split; [|split].
  - intros i Hi.
    find_line ltac:(fun _ => apply list_elem_of_In;
                    apply (elem_of_lookup_imap_2
                             (fun i v => Pwl (pin "DIN" i) _ v _ _ _));
                    apply lookup_replicate_2; exact Hi).
  - intros i c Hg.
    assert (Hl : list_ascii_of_string (probe_address s) !! i = Some c).
    { clear -Hg. revert i Hg. induction (probe_address s) as [|c' a IH]; intros i Hg;
        [discriminate|].
      destruct i as [|i]; [exact Hg | exact (IH _ Hg)]. }
    find_line ltac:(fun _ => apply list_elem_of_In;
                    apply (elem_of_lookup_imap_2
                             (fun i v => Pwl (pin "A" i) _ v _ _ _) _ (addr_stream c));
                    cbn [addr_values cyc staged with_test_cycles set_stim set_marks
                         set_cyc test_cycles];
                    rewrite list_lookup_fmap || rewrite list_lookup_map; rewrite Hl;
                    reflexivity).
  - split; [find_line ltac:(fun _ => reflexivity)|]. split; find_line ltac:(fun _ => reflexivity).
Qed.

(** *** One simulation *)

Lemma delays_valid_spec p a b c d :
  delays_valid p a b c d = true <->
  exists delay_hl delay_lh slew_hl slew_lh,
    a = Num delay_hl /\ b = Num delay_lh /\ c = Num slew_hl /\ d = Num slew_lh /\
    (delay_hl * 1e9 <= p)%Q /\ (delay_lh * 1e9 <= p)%Q /\
    (slew_hl * 1e9 <= p)%Q /\ (slew_lh * 1e9 <= p)%Q.
Proof.
  unfold delays_valid. split.
  - destruct a as [x|]; [|discriminate]. destruct b as [y|]; [|discriminate].
    destruct d as [w|]; [|destruct c; discriminate].
    destruct c as [z|]; [|discriminate].
    rewrite negb_true_iff, !orb_false_iff, !Qgtb_false.
    intros [[[H1 H2] H3] H4]. exists x, y, z, w. repeat split; assumption.
  - intros (x & y & z & w & -> & -> & -> & -> & H1 & H2 & H3 & H4).
    rewrite negb_true_iff, !orb_false_iff, !Qgtb_false. repeat split; assumption.
Qed.

(** X11.  [check_valid_delays] never aborts and leaves the object as it is;
    and four measurements that are valid at one period are valid at every
    longer one. *)
Theorem check_valid_delays_monotone delay_tuple s q :
  check_valid_delays delay_tuple s = OK (true, s) ->
  (period s <= q)%Q ->
  check_valid_delays delay_tuple (set_period q s) = OK (true, set_period q s) /\
  forall s0, exists valid, check_valid_delays delay_tuple s0 = OK (valid, s0).
Proof.
  destruct delay_tuple as [[[a b] c] d]. intros H Hq. split.
  - rewrite check_valid_delays_spec in *. injection H as H. f_equal. f_equal.
    change (period (set_period q s)) with q.
    apply delays_valid_spec in H
      as (x & y & z & w & -> & -> & -> & -> & H1 & H2 & H3 & H4).
    apply delays_valid_spec. exists x, y, z, w.
    repeat split; try reflexivity; eapply Qle_trans; eassumption.
  - intros s0. eexists. apply check_valid_delays_spec.
Qed.

(** X12.  A simulation whose delays and slews are valid but one of whose power
    measurements failed: the failure marker is a string, scaling it to mW
    raises, and [run_delay_simulation] aborts instead of reporting a failed
    simulation. *)
Theorem run_delay_simulation_power_failed s key :
  accepted_probe s ->
  delays_valid (period s)
    (spice (delay_stimulus s) "delay_hl") (spice (delay_stimulus s) "delay_lh")
    (spice (delay_stimulus s) "slew_hl") (spice (delay_stimulus s) "slew_lh") = true ->
  In key ["read0_power"; "read1_power"; "write0_power"; "write1_power"]%string ->
  spice (delay_stimulus s) key = Failed ->
  run_delay_simulation s = Fatal "TypeError".
Proof.
  intros Hp Hv Hin Hf. apply probe_ok_accepted in Hp.
  rewrite (run_delay_simulation_ok _ Hp). unfold delay_outcome. cbv zeta.
  rewrite Hv. cbn [negb].
  apply delays_valid_spec in Hv as (x & y & z & w & -> & -> & -> & -> & _).
  cbn [In] in Hin.
  destruct Hin as [<-|[<-|[<-|[<-|[]]]]]; rewrite Hf;
    repeat (match goal with |- context [match spice ?st ?k with _ => _ end] =>
                              destruct (spice st k) end); reflexivity.
Qed.


(** X14.  [try_period] is the stricter test: at a period it accepts, a
    [run_delay_simulation] of the same object never reports a failed
    simulation. *)
Theorem try_period_stricter a b s s1 :
  try_period a b s = OK (true, s1) ->
  forall r s2, run_delay_simulation s = OK (r, s2) -> fst r = true.
Proof.
  intros H r s2 Hr. pose proof (try_period_probe _ _ _ _ H) as Hp.
  rewrite (try_period_ok _ _ _ Hp) in H. injection H as Hok _.
  rewrite (run_delay_simulation_ok _ Hp) in Hr.
  apply period_ok_spec in Hok
    as (x & y & z & w & E1 & E2 & E3 & E4 & H1 & H2 & H3 & H4 & _).
  unfold delay_outcome in Hr. cbv zeta in Hr.
  assert (Hv : delays_valid (period s) (spice (delay_stimulus s) "delay_hl")
                 (spice (delay_stimulus s) "delay_lh") (spice (delay_stimulus s) "slew_hl")
                 (spice (delay_stimulus s) "slew_lh") = true).
  { apply delays_valid_spec. exists x, y, z, w. repeat split; assumption. }
  rewrite Hv in Hr. cbn [negb] in Hr.
  repeat (match type of Hr with context [match spice ?st ?k with _ => _ end] =>
                                  destruct (spice st k) end); try discriminate.
  now injection Hr as <- _.
Qed.

(** *** The leakage simulation *)

Lemma power_leak {A} trim (k : meas -> M A) s :
  probe_ok s = true ->
  (write_power_stimulus trim ;; run_sim ;;
   leakage_power <- parse_spice_list "timing" "leakage_power" ;; k leakage_power) s =
  k (spice (power_stimulus trim s) "leakage_power") (power_simulated trim s).
Proof.
  intros H. eapply bind_ok; [apply (write_power_stimulus_ok _ _ H)|].
  apply (bind_ok _ _ _ tt (power_simulated trim s)); [reflexivity|].
  eapply bind_ok; [apply (parse_simulated _ (power_stimulus trim s)); reflexivity|].
  reflexivity.
Qed.

(** X15.  [run_power_simulation] on an accepted probe point: it simulates the
    full netlist first and the trimmed netlist second, aborts as soon as one
    of the two leakage measurements failed, and otherwise returns the pair
    (full, trimmed) in mW, having run exactly these two simulations and
    changed nothing the stimuli are built from. *)
Theorem run_power_simulation_outcome s :
  accepted_probe s ->
  In (Include (sim_sp_file s)) (stim_lines (power_stimulus false s)) /\
  In (Include (trim_sp_file s)) (stim_lines (power_stimulus true s)) /\
  match spice (power_stimulus false s) "leakage_power",
        spice (power_stimulus true s) "leakage_power" with
  | Num full, Num trim =>
      exists s',
        run_power_simulation s = OK ((full * 1e3, trim * 1e3)%Q, s') /\
        sims s' = power_stimulus true s :: power_stimulus false s :: sims s /\
        inputs s' = inputs s
  | _, _ => run_power_simulation s = Fatal "Could not measure leakage power."
  end.
Proof.
  intros Hp. apply probe_ok_accepted in Hp.
  split; [right; left; reflexivity|]. split; [right; left; reflexivity|].
  assert (Hp2 : probe_ok (power_simulated false s) = true).
  { rewrite <- Hp. apply probe_ok_fields; reflexivity. }
  assert (Est : power_stimulus true (power_simulated false s) = power_stimulus true s)
    by (apply power_stimulus_inputs; reflexivity).
  unfold run_power_simulation. rewrite (power_leak false _ s Hp).
  destruct (spice (power_stimulus false s) "leakage_power") as [full|] eqn:Ef.
  2:{ destruct (spice (power_stimulus true s) "leakage_power"); reflexivity. }
  remember (power_simulated false s) as sA eqn:EsA.
  assert (E : forall r,
             (let k := fun trim_leakage_power =>
                check (match trim_leakage_power with Failed => false | Num _ => true end)
                      "Could not measure leakage power." ;;
                leakage_power <- scale (Num full) 1e3 ;;
                trim_leakage_power <- scale trim_leakage_power 1e3 ;;
                ret (leakage_power, trim_leakage_power) in
              k (spice (power_stimulus true sA) "leakage_power")
                (power_simulated true sA)) = r ->
             (check true "Could not measure leakage power." ;;
              write_power_stimulus true ;; run_sim ;;
              trim_leakage_power <- parse_spice_list "timing" "leakage_power" ;;
              check (match trim_leakage_power with Failed => false | Num _ => true end)
                    "Could not measure leakage power." ;;
              leakage_power <- scale (Num full) 1e3 ;;
              trim_leakage_power <- scale trim_leakage_power 1e3 ;;
              ret (leakage_power, trim_leakage_power)) sA = r).
  { intros r <-. eapply bind_ok; [reflexivity|]. apply (power_leak true _ sA Hp2). }
  rewrite Est in E.
  destruct (spice (power_stimulus true s) "leakage_power") as [trim|] eqn:Et.
  - exists (power_simulated true sA). split; [apply E; reflexivity|].
    subst sA. split; [|reflexivity].
    change (sims (power_simulated true (power_simulated false s)))
      with (power_stimulus true (power_simulated false s)
              :: power_stimulus false s :: sims s).
    now rewrite Est.
  - apply E. reflexivity.
Qed.

Lemma power_stimulus_same_netlist s :
  trim_sp_file s = sim_sp_file s -> power_stimulus true s = power_stimulus false s.
Proof.
  intros H. unfold power_stimulus, power_lines.
  change (trim_sp_file (staged s)) with (trim_sp_file s).
  change (sim_sp_file (staged s)) with (sim_sp_file s).
  now rewrite H.
Qed.

(** X16.  When the trimmed netlist is the full netlist (trimming disabled),
    the two leakage simulations run on the same stimulus and
    [run_power_simulation] returns the same leakage twice. *)
Theorem run_power_simulation_same_netlist s full trim s' :
  trim_sp_file s = sim_sp_file s ->
  run_power_simulation s = OK ((full, trim), s') ->
  full = trim /\
  exists st, sims s' = st :: st :: sims s.
Proof.
  intros Hf H.
  apply run_power_simulation_spec in H as (fr & tr & Ef & Et & [= -> ->] & ->).
  rewrite (power_stimulus_same_netlist _ Hf) in Et. rewrite Ef in Et.
  injection Et as <-. split; [reflexivity|].
  exists (power_stimulus false s).
  change (sims (power_simulated true (power_simulated false s)))
    with (power_stimulus true (power_simulated false s)
            :: power_stimulus false s :: sims s).
  f_equal.
  rewrite (power_stimulus_inputs true (power_simulated false s) s) by reflexivity.
  now apply power_stimulus_same_netlist.
Qed.

(** *** The binary search *)


Lemma min_period_loop_result time_out a b :
  forall ub lb s m s',
    (0 <= lb)%Q -> (lb <= ub)%Q -> (0 < ub)%Q ->
    min_period_loop time_out a b ub lb s = OK (m, s') ->
    (0 < m)%Q /\ (m <= ub)%Q /\ (period s' <= m)%Q /\
    relative_compare m (period s') 0.05 = true /\
    (length (sims s) < length (sims s'))%nat /\
    (length (sims s') < length (sims s) + time_out)%nat.
Proof.
  induction time_out as [|n IH]; intros ub lb s m s' Hlb Hle Hub H; [discriminate|].
  cbn [min_period_loop] in H.
  destruct (n <=? 0)%nat eqn:En; [discriminate|]. apply Nat.leb_gt in En.
  apply bind_inv in H as (u & s1 & [= <- <-] & H1).
  apply bind_inv in H1 as (ok & s2 & Ht & H2).
  pose proof (try_period_probe _ _ _ _ Ht) as Hp.
  rewrite (try_period_ok _ _ _ Hp) in Ht. injection Ht as <- <-.
  set (t := (0.5 * (ub + lb))%Q) in *.
  assert (Ht1 : (lb <= t)%Q) by (unfold t; lra).
  assert (Ht2 : (t <= ub)%Q) by (unfold t; lra).
  assert (Ht3 : (0 < t)%Q) by (unfold t; lra).
  assert (Hlen : length (sims (simulated (set_period t s))) = S (length (sims s)))
    by reflexivity.
  cbv zeta in H2.
  destruct (relative_compare _ _ _) eqn:Erc.
  - injection H2 as <- <-.
    change (period (simulated (set_period t s))) with t. rewrite Hlen.
    destruct (period_ok a b (set_period t s)).
    + repeat split; try lra; try lia. apply relative_compare_refl. lra.
    + repeat split; try lra; try lia. exact Erc.
  - destruct (period_ok a b (set_period t s)).
    + apply IH in H2 as (H3 & H4 & H5 & H6 & H7 & H8); try lra.
      rewrite Hlen in H7, H8. repeat split; try assumption; try lra; lia.
    + apply IH in H2 as (H3 & H4 & H5 & H6 & H7 & H8); try lra.
      rewrite Hlen in H7, H8. repeat split; try assumption; try lra; lia.
Qed.

(** X17.  The period [find_min_period] returns is positive and not longer than
    the period it starts from (the feasible period).  The period it leaves in
    the object is that of its last trial: not longer than the returned one and
    within the 5% tolerance of it, but not always equal to it. *)
Theorem find_min_period_bounds a b s m s' :
  (0 < period s)%Q ->
  find_min_period a b s = OK (m, s') ->
  (0 < m)%Q /\ (m <= period s)%Q /\
  (period s' <= m)%Q /\ relative_compare m (period s') 0.05 = true.
Proof.
  intros Hp H. rewrite find_min_period_eq in H.
  apply min_period_loop_result in H as (H1 & H2 & H3 & H4 & _); try lra.
  repeat split; assumption.
Qed.

(** X18.  The budget of the binary search: a search that returns has run at
    least one and at most 24 simulations (the counter starts at 25 and is
    decremented and tested before each trial). *)
Theorem find_min_period_budget a b s m s' :
  (0 < period s)%Q ->
  find_min_period a b s = OK (m, s') ->
  exists k, (1 <= k <= 24)%nat /\ length (sims s') = (length (sims s) + k)%nat.
Proof.
  intros Hp H. rewrite find_min_period_eq in H.
  apply min_period_loop_result in H as (_ & _ & _ & _ & H5 & H6); try lra.
  exists (length (sims s') - length (sims s))%nat. lia.
Qed.



(** *** The orchestrator *)

(** X20.  [analyze] takes the maximum of the loads and of the slews before
    anything is simulated: an empty list of either aborts the run. *)
Theorem analyze_empty_sweep pa pd slews loads s :
  slews = [] \/ loads = [] -> analyze pa pd slews loads s = Fatal "ValueError".
Proof.
  intros H. unfold analyze.
  eapply bind_ok; [apply set_probe_ok|].
  destruct loads as [|l loads]; [reflexivity|].
  destruct H as [->|H]; [|discriminate].
  eapply bind_ok; [reflexivity|]. eapply bind_ok; [reflexivity|]. reflexivity.
Qed.

Lemma fold_max_spec l :
  forall m0,
    (fold_left (fun m y => if Qgtb y m then y else m) l m0 = m0 \/
     In (fold_left (fun m y => if Qgtb y m then y else m) l m0) l) /\
    (m0 <= fold_left (fun m y => if Qgtb y m then y else m) l m0)%Q /\
    forall y, In y l -> (y <= fold_left (fun m y => if Qgtb y m then y else m) l m0)%Q.
Proof.
  induction l as [|y l IH]; intros m0; cbn [fold_left].
  - split; [now left|]. split; [lra|]. intros y [].
  - destruct (IH (if Qgtb y m0 then y else m0)) as (H1 & H2 & H3).
    destruct (Qgtb y m0) eqn:E.
    + assert (m0 <= y)%Q.
      { unfold Qgtb in E. apply negb_true_iff in E.
        destruct (Qlt_le_dec m0 y) as [Hlt|Hle]; [lra|].
        apply Qle_bool_iff in Hle. congruence. }
      split; [destruct H1 as [H1|H1]; right; [left; now rewrite H1 | now right]|].
      split; [lra|]. intros z [<-|Hz]; [exact H2 | now apply H3].
    + apply Qgtb_false in E.
      split; [destruct H1 as [H1|H1]; [now left | right; now right]|].
      split; [exact H2|]. intros z [<-|Hz]; [lra | now apply H3].
Qed.

Lemma py_max_spec l m :
  py_max l = OK m -> In m l /\ forall x, In x l -> (x <= m)%Q.
Proof.
  destruct l as [|x l]; [discriminate|]. cbn [py_max]. intros [= <-].
  destruct (fold_max_spec l x) as (H1 & H2 & H3). split.
  - destruct H1 as [H1|H1]; [left; now rewrite H1 | now right].
  - intros y [<-|Hy]; [exact H2 | now apply H3].
Qed.

Lemma length_sweep_pairs slews loads :
  length (sweep_pairs slews loads) = (length slews * length loads)%nat.
Proof.
  induction slews as [|sl slews IH]; [reflexivity|].
  cbn [sweep_pairs flat_map length]. fold (sweep_pairs slews loads).
  rewrite length_app, length_map, IH. reflexivity.
Qed.

Lemma find_feasible_period_eq s :
  find_feasible_period s = feasible_period_loop 8 tech_feasible_period s.
Proof. reflexivity. Qed.

(** The two checks of [analyze] on the feasible delays. *)
Lemma analyze_checks_delays pa pd slews loads s max_load max_slew a b s4 :
  py_max loads = OK max_load -> py_max slews = OK max_slew ->
  find_feasible_period (set_slew max_slew (set_load max_load (probed pa pd s)))
    = OK ((a, b), s4) ->
  (a <= 0)%Q \/ (b <= 0)%Q ->
  analyze pa pd slews loads s = Fatal "Negative delay may not be possible".
Proof.
  intros Eml Ems Hf Hneg. unfold analyze.
  eapply bind_ok; [apply set_probe_ok|].
  eapply bind_ok; [unfold lift; rewrite Eml; reflexivity|].
  eapply bind_ok; [reflexivity|].
  eapply bind_ok; [unfold lift; rewrite Ems; reflexivity|].
  eapply bind_ok; [reflexivity|].
  eapply bind_ok; [exact Hf|]. cbv beta iota.
  destruct (Qgtb a 0) eqn:Ea.
  - eapply bind_ok; [reflexivity|].
    destruct Hneg as [Ha|Hb].
    + apply Qgtb_false in Ha. congruence.
    + apply Qgtb_false in Hb. unfold bind, check. now rewrite Hb.
  - reflexivity.
Qed.

(** X21.  A feasible delay that is not positive aborts [analyze] before the
    binary search. *)
Theorem analyze_rejects_nonpositive_delay pa pd slews loads s max_load max_slew a b s4 :
  py_max loads = OK max_load -> py_max slews = OK max_slew ->
  find_feasible_period (set_slew max_slew (set_load max_load (probed pa pd s)))
    = OK ((a, b), s4) ->
  (a <= 0)%Q \/ (b <= 0)%Q ->
  analyze pa pd slews loads s = Fatal "Negative delay may not be possible".
Proof. exact (analyze_checks_delays pa pd slews loads s max_load max_slew a b s4). Qed.

(** X22.  The two searches of a run of [analyze] that returns: both run at the
    largest load and the largest slew of the sweep, the feasible delays are
    positive, and the table's [min_period] is the rounded period the binary
    search returned. *)
Theorem analyze_searches_at_maximum pa pd slews loads s table s' :
  analyze pa pd slews loads s = OK (table, s') ->
  exists max_load max_slew a b s4 m s6,
    (In max_load loads /\ forall l, In l loads -> (l <= max_load)%Q) /\
    (In max_slew slews /\ forall sl, In sl slews -> (sl <= max_slew)%Q) /\
    find_feasible_period (set_slew max_slew (set_load max_load (probed pa pd s)))
      = OK ((a, b), s4) /\
    (0 < a)%Q /\ (0 < b)%Q /\
    load s4 = max_load /\ slew s4 = max_slew /\
    find_min_period a b (set_slew max_slew (set_load max_load s4)) = OK (m, s6) /\
    table !! "min_period" = Some (Scalar (round_time m)).
Proof.
  intros H. pose proof H as H0.
  apply analyze_steps in H
    as (ml & ms & a & b & s4 & m & s6 & full_raw & trim_raw
        & Eml & Ems & Hf & Hm & Efull & Etrim & Hsw).
  exists ml, ms, a, b, s4, m, s6.
  split; [now apply py_max_spec|]. split; [now apply py_max_spec|].
  split; [exact Hf|].
  assert (Hpos : (0 < a)%Q /\ (0 < b)%Q).
  { destruct (Qlt_le_dec 0 a) as [Ha|Ha]; [destruct (Qlt_le_dec 0 b) as [Hb|Hb]|].
    - now split.
    - rewrite (analyze_checks_delays _ _ _ _ _ _ _ _ _ _ Eml Ems Hf (or_intror Hb)) in H0.
      discriminate.
    - rewrite (analyze_checks_delays _ _ _ _ _ _ _ _ _ _ Eml Ems Hf (or_introl Ha)) in H0.
      discriminate. }
  destruct Hpos as [Ha Hb]. split; [exact Ha|]. split; [exact Hb|].
  pose proof Hf as Hsame. rewrite find_feasible_period_eq in Hsame.
  apply feasible_period_loop_same in Hsame.
  apply same_probe_load_slew in Hsame as [Hl Hs]. cbn in Hl, Hs.
  split; [exact Hl|]. split; [exact Hs|].
  split; [exact Hm|].
  apply sweep_spec in Hsw as (_ & _ & [_ Hother]); [|apply has_columns_initial].
  rewrite Hother.
  - unfold initial_table, measurement_names. cbn [fold_left].
    rewrite !lookup_insert_ne by discriminate. apply lookup_insert_eq.
  - unfold result_keys. cbn [In]. intros Hk.
    repeat destruct Hk as [Hk|Hk]; try discriminate Hk; exact Hk.
Qed.

Lemma analyze_keeps_files pa pd slews loads s table s' :
  analyze pa pd slews loads s = OK (table, s') ->
  trim_sp_file s' = trim_sp_file (probed pa pd s) /\
  sim_sp_file s' = sim_sp_file (probed pa pd s).
Proof.
  intros H.
  apply analyze_steps in H
    as (ml & ms & a & b & s4 & m & s6 & full_raw & trim_raw
        & Eml & Ems & Hf & Hm & Efull & Etrim & Hsw).
  rewrite find_feasible_period_eq in Hf. apply feasible_period_loop_same in Hf.
  rewrite find_min_period_eq in Hm. apply min_period_loop_same in Hm.
  apply sweep_spec in Hsw as (Hsame & _ & _); [|apply has_columns_initial].
  specialize (Hf 0%Q). specialize (Hm 0%Q). specialize (Hsame 0%Q 0%Q).
  unfold inputs in Hf, Hm, Hsame. cbn in Hf, Hm, Hsame.
  injection Hf as _ _ _ _ _ _ _ _ Hf1 Hf2.
  injection Hm as _ _ _ _ _ _ _ _ Hm1 Hm2.
  injection Hsame as _ _ _ _ _ _ _ Hs1 Hs2.
  cbn. split; congruence.
Qed.

(** X23.  With trimming disabled the trimmed netlist is the full netlist:
    the two leakage simulations run one stimulus and measure one leakage,
    the leakage of the table.  Every dynamic power of the table is then the
    power the sweep measured at that point, in mW, minus this leakage plus
    this same leakage: the measured power up to the rounding of the two
    operations. *)
Theorem analyze_untrimmed_power pa pd slews loads s table s' :
  trim_netlist = false ->
  analyze pa pd slews loads s = OK (table, s') ->
  exists max_load max_slew leak_raw,
    py_max loads = OK max_load /\ py_max slews = OK max_slew /\
    power_stimulus true (set_slew max_slew (set_load max_load s')) =
    power_stimulus false (set_slew max_slew (set_load max_load s')) /\
    spice (power_stimulus false (set_slew max_slew (set_load max_load s')))
          "leakage_power" = Num leak_raw /\
    table !! "leakage_power" = Some (Scalar (leak_raw * 1e3)%Q) /\
    forall k,
      In k ["read0_power"; "read1_power"; "write0_power"; "write1_power"]%string ->
      exists raws,
        Forall2 (fun point raw => spice (sweep_stimulus s' point) k = Num raw)
                (sweep_pairs slews loads) raws /\
        table !! k =
        Some (Lst (map (fun raw => (raw * 1e3 - leak_raw * 1e3 + leak_raw * 1e3)%Q) raws)).
Proof.
  intros Htrim H.
  destruct (analyze_keeps_files _ _ _ _ _ _ _ H) as [Hft Hfs].
  apply analyze_sweep in H
    as (ml & ms & m & full_raw & trim_raw & history
        & Eml & Ems & Efull & Etrim & _ & [Hcol Hother]).
  assert (Hst : power_stimulus true (set_slew ms (set_load ml s')) =
                power_stimulus false (set_slew ms (set_load ml s'))).
  { apply power_stimulus_same_netlist.
    change (trim_sp_file s' = sim_sp_file s'). rewrite Hft, Hfs.
    unfold probed. cbn. now rewrite Htrim. }
  assert (Hsame : trim_raw = full_raw).
  { rewrite Hst, Efull in Etrim. now injection Etrim. }
  subst trim_raw.
  exists ml, ms, full_raw.
  do 4 (split; [assumption|]).
  split.
  { rewrite Hother
      by (unfold result_keys; cbn [In]; intros K;
          repeat destruct K as [K|K]; try discriminate K; exact K).
    apply lookup_insert_eq. }
  intros k Hk.
  assert (Hk' : In k result_keys /\ contains "power" k = true).
  { unfold result_keys. cbn [In] in *.
    destruct Hk as [<-|[<-|[<-|[<-|[]]]]]; (split; [tauto | reflexivity]). }
  destruct Hk' as [Hin Hpow].
  destruct (Hcol k Hin [] (initial_table_column _ _ _ Hin)) as (vals & Et & Hm).
  apply (column_entries_power _ _ _ _ _ Hpow) in Hm as (raws & Hf & ->).
  exists raws. split.
  - exact (Forall2_map_left (fun st raw => spice st k = Num raw) _ _ _ Hf).
  - rewrite Et. reflexivity.
Qed.

(** X24.  The columns of the table a run of [analyze] returns.  The sweep has
    simulated every (slew, load) pair once, slews in the outer loop, and these
    are the newest simulations of the history; each of the eight measurement
    columns has one entry per pair, in that order; a delay or a slew is the
    value measured at its pair, in ns; and the table has no key besides
    [min_period], [leakage_power] and the eight columns. *)
Theorem analyze_table_columns pa pd slews loads s table s' :
  analyze pa pd slews loads s = OK (table, s') ->
  (exists history,
     sims s' = rev (map (sweep_stimulus s') (sweep_pairs slews loads)) ++ history) /\
  (forall k, In k result_keys ->
     exists l, table !! k = Some (Lst l) /\
               length l = (length slews * length loads)%nat) /\
  (forall k, In k ["delay_lh"; "delay_hl"; "slew_lh"; "slew_hl"]%string ->
     exists raws,
       Forall2 (fun point raw => spice (sweep_stimulus s' point) k = Num raw)
               (sweep_pairs slews loads) raws /\
       table !! k = Some (Lst (map (fun raw => (raw * 1e9)%Q) raws))) /\
  (forall k, ~ In k ("min_period" :: "leakage_power" :: result_keys)%string ->
     table !! k = None).
Proof.
  intros H.
  apply analyze_sweep in H
    as (ml & ms & m & full_raw & trim_raw & history
        & Eml & Ems & Efull & Etrim & Hsims & [Hcol Hother]).
  split; [now exists history|]. split; [|split].
  - intros k Hin.
    destruct (Hcol k Hin [] (initial_table_column _ _ _ Hin)) as (vals & Et & Hm).
    exists vals. split; [exact Et|].
    apply (f_equal (@length _)) in Hm.
    rewrite !length_map, length_sweep_pairs in Hm. now symmetry.
  - intros k Hk.
    assert (Hk' : In k result_keys /\ contains "power" k = false).
    { unfold result_keys. cbn [In] in *.
      destruct Hk as [<-|[<-|[<-|[<-|[]]]]]; (split; [tauto | reflexivity]). }
    destruct Hk' as [Hin Hpow].
    destruct (Hcol k Hin [] (initial_table_column _ _ _ Hin)) as (vals & Et & Hm).
    apply (column_entries_time _ _ _ _ _ Hpow) in Hm as (raws & Hf & ->).
    exists raws. split; [|exact Et].
    exact (Forall2_map_left (fun st raw => spice st k = Num raw) _ _ _ Hf).
  - intros k Hk. cbn [In] in Hk.
    rewrite Hother by tauto.
    unfold initial_table, measurement_names. cbn [fold_left].
    unfold result_keys in Hk. cbn [In] in Hk.
    rewrite !lookup_insert_ne by (intros <-; tauto).
    apply lookup_empty.
Qed.

(** *** The common part of the stimuli and the sweep *)

Lemma formatted_lines_app l1 l2 :
  formatted_lines (l1 ++ l2) = formatted_lines l1 ++ formatted_lines l2.
Proof.
  induction l1 as [|d l1 IH]; [reflexivity|].
  destruct d; cbn [app formatted_lines]; now rewrite ?IH.
Qed.

Lemma formatted_lines_map {A} (f : A -> fstr) l :
  formatted_lines (map (fun x => Line (f x)) l) = map f l.
Proof. induction l as [|x l IH]; cbn; congruence. Qed.

(** X26.  [write_generic_stimulus] never aborts and only appends to the
    file: the supplies, the instance of the SRAM with its address and data
    widths and its name, and one output load per data bit, [CD{i}] on
    [DOUT[i]] for [i] from 0 to [word_size - 1], each of the load of the
    object; no output of a higher index gets a load. *)
Theorem write_generic_stimulus_loads s :
  exists lines,
    write_generic_stimulus s = OK (tt, set_sf (sf s ++ lines) s) /\
    In Supply lines /\
    In (InstSram (addr_size s) (word_size s) (name s)) lines /\
    formatted_lines lines =
    map (fun i => Fmt "CD{0} DOUT[{0}] 0 {1}f" [AInt (Z.of_nat i); ANum (load s)])
        (seq 0 (word_size s)).
Proof.
  exists (generic_lines s). split.
  { pose proof (write_generic_stimulus_emits s (sf s)) as E.
    now rewrite set_sf_id in E. }
  unfold generic_lines.
  split; [right; left; reflexivity|].
  split; [right; right; right; left; reflexivity|].
  rewrite formatted_lines_app.
  exact (formatted_lines_map
           (fun i => Fmt "CD{0} DOUT[{0}] 0 {1}f" [AInt (Z.of_nat i); ANum (load s)]) _).
Qed.

Lemma bind_fatal {A B} (m : M A) (k : A -> M B) s e :
  m s = Fatal e -> bind m k s = Fatal e.
Proof. intros H. unfold bind. now rewrite H. Qed.

(** X27.  The sweep keeps no partial result: when the measurements of its
    first point are not all valid at the period of the object, it aborts
    with the message of its check, whatever the points that follow. *)
Theorem sweep_aborts_on_invalid_point trim full slew slews load loads
    (cd : gmap string cval) s :
  accepted_probe s ->
  (let st := sweep_stimulus s (slew, load) in
   delays_valid (period s) (spice st "delay_hl") (spice st "delay_lh")
                (spice st "slew_hl") (spice st "slew_lh") = false) ->
  sweep trim full (slew :: slews) (load :: loads) cd s =
  Fatal "Couldn't run a simulation.".
Proof.
  intros Hp Hv. apply probe_ok_accepted in Hp. cbv zeta in Hv.
  unfold sweep_stimulus in Hv. cbn [fst snd] in Hv.
  assert (Er : run_delay_simulation (set_slew slew (set_load load s)) =
               OK ((false, []), simulated (set_slew slew (set_load load s)))).
  { rewrite run_delay_simulation_ok by (rewrite <- Hp; apply probe_ok_fields; reflexivity).
    unfold delay_outcome. cbv zeta.
    change (period (set_slew slew (set_load load s))) with (period s).
    now rewrite Hv. }
  unfold sweep. cbn [foldM].
  apply bind_fatal. apply bind_fatal.
  eapply bind_ok; [reflexivity|]. eapply bind_ok; [exact Er|]. reflexivity.
Qed.

End Characterizer.

(** * The claims on the test bench *)

(** C1.  [analyze] does not run the sweep at the minimum period.  With a
    simulator whose delays degrade below a period of 0.21 ns,
    [find_min_period] returns 0.21484375 ns and that is the table's
    [min_period]; but the last trial, at 0.205078125 ns, failed, the object
    keeps that period, and the sweep's simulation runs at it: the table's
    [delay_lh] is 0.15 ns, while a simulation at the returned minimum period
    measures 0.1 ns.  With a simulator that fails below 0.21 ns, the same run
    of [analyze] aborts, although a simulation at the minimum period
    succeeds. *)
Theorem analyze_sweep_not_at_min_period :
  (let run := analyze (mock 0.2 0.21) 10 (fun x => x) "" true "11" (PyInt 0)
                      [0.05%Q] [1%Q] bench_sram in
   let table := run_value ∅ run in
   let s' := run_state run in
   is_ok run = true /\
   (exists m, table !! "min_period" = Some (Scalar m) /\ (m == 0.21484375)%Q) /\
   (period s' == 0.205078125)%Q /\
   (exists p, head (map (fun st => clk_period (stim_lines st)) (sims s')) = Some (Some p) /\
              (p == 0.205078125)%Q) /\
   (exists d, table !! "delay_lh" = Some (Lst [d]) /\ (d == 0.15)%Q) /\
   (exists d', dict_get (snd (run_value (false, [])
                                (run_delay_simulation (mock 0.2 0.21)
                                   (set_period 0.21484375 s'))))
                        "delay_lh" = OK d' /\ (d' == 0.1)%Q)) /\
  (let search := (find_feasible_period (mock 0.21 0) 10 ;;
                  find_min_period (mock 0.21 0) 0.1 0.1) bench_probed in
   (run_value 0 search == 0.21484375)%Q /\
   (period (run_state search) == 0.205078125)%Q /\
   fst (run_value (false, [])
          (run_delay_simulation (mock 0.21 0)
             (set_period 0.21484375 (run_state search)))) = true /\
   analyze (mock 0.21 0) 10 (fun x => x) "" true "11" (PyInt 0) [0.05%Q] [1%Q]
           bench_sram = Fatal "Couldn't run a simulation.").
Proof.
  split; cbv zeta.
  - split; [vm_compute; reflexivity|].
    split; [eexists; split; vm_compute; reflexivity|].
    split; [vm_compute; reflexivity|].
    split; [eexists; split; vm_compute; reflexivity|].
    split; [eexists; split; vm_compute; reflexivity|].
    eexists; split; vm_compute; reflexivity.
  - split; [vm_compute; reflexivity|].
    split; [vm_compute; reflexivity|].
    split; vm_compute; reflexivity.
Qed.

(** C2, on the bench: the feasibility search returns, and the theorem gives
    that the period it leaves and every period the binary search returns pass
    [try_period]. *)
Lemma find_min_period_returns_feasible_witness :
  let run := find_feasible_period (mock 0.2 0) 10 bench_probed in
  let a := fst (run_value (0, 0)%Q run) in
  let b := snd (run_value (0, 0)%Q run) in
  run = OK ((a, b), run_state run) /\
  ((exists s', try_period (mock 0.2 0) a b (run_state run) = OK (true, s')) /\
   (forall m s2,
       find_min_period (mock 0.2 0) a b (run_state run) = OK (m, s2) ->
       exists s3, try_period (mock 0.2 0) a b (set_period m s2) = OK (true, s3))).
Proof.
  cbv zeta.
  assert (H : find_feasible_period (mock 0.2 0) 10 bench_probed =
              OK ((fst (run_value (0, 0)%Q (find_feasible_period (mock 0.2 0) 10 bench_probed)),
                   snd (run_value (0, 0)%Q (find_feasible_period (mock 0.2 0) 10 bench_probed))),
                  run_state (find_feasible_period (mock 0.2 0) 10 bench_probed)))
    by (vm_compute; reflexivity).
  split; [exact H|].
  exact (find_min_period_returns_feasible (mock 0.2 0) 10 bench_probed _ _ _ H).
Defined.

(** C3, on the bench: a trial at 5 ns from the bounds 10 ns and 0 ns. *)
Lemma try_period_decides_bounds_witness :
  let s := set_period 10 bench_probed in
  let trial := try_period (mock 0.2 0) 0.1 0.1 (set_period (0.5 * (10 + 0)) s) in
  trial = OK (true, run_state trial) /\
  (exists st, sims (run_state trial) = st :: sims (set_period (0.5 * (10 + 0)) s) /\
     (true = true <->
      exists delay_hl delay_lh slew_hl slew_lh,
        mock 0.2 0 st "delay_hl" = Num delay_hl /\
        mock 0.2 0 st "delay_lh" = Num delay_lh /\
        mock 0.2 0 st "slew_hl" = Num slew_hl /\
        mock 0.2 0 st "slew_lh" = Num slew_lh /\
        (delay_hl * 1e9 <= period (set_period (0.5 * (10 + 0)) s))%Q /\
        (delay_lh * 1e9 <= period (set_period (0.5 * (10 + 0)) s))%Q /\
        (slew_hl * 1e9 <= period (set_period (0.5 * (10 + 0)) s))%Q /\
        (slew_lh * 1e9 <= period (set_period (0.5 * (10 + 0)) s))%Q /\
        relative_compare (delay_lh * 1e9) 0.1 0.05 = true /\
        relative_compare (delay_hl * 1e9) 0.1 0.05 = true)) /\
  min_period_loop (mock 0.2 0) 25 0.1 0.1 10 0 s =
  (if relative_compare (0.5 * (10 + 0)) 0 0.05 then OK ((0.5 * (10 + 0))%Q, run_state trial)
   else min_period_loop (mock 0.2 0) 24 0.1 0.1 (0.5 * (10 + 0)) 0 (run_state trial)).
Proof.
  cbv zeta.
  assert (H : try_period (mock 0.2 0) 0.1 0.1
                (set_period (0.5 * (10 + 0)) (set_period 10 bench_probed)) =
              OK (true, run_state (try_period (mock 0.2 0) 0.1 0.1
                (set_period (0.5 * (10 + 0)) (set_period 10 bench_probed)))))
    by (vm_compute; reflexivity).
  split; [exact H|].
  destruct (try_period_decides_bounds (mock 0.2 0) 0.1 0.1) as [T1 T2].
  split; [exact (T1 _ _ _ H)|].
  exact (T2 23%nat 10%Q 0%Q (set_period 10 bench_probed) true _ H).
Defined.



(** C5 as stated fails: with a simulator that is valid from a period of
    128 ns on and a nominal period of 1 ns, the first seven attempts (1 ns to
    64 ns) are invalid and the eighth (128 ns) would be valid, but the search
    ends in the fatal error without running it. *)
Lemma find_feasible_period_no_eighth_attempt :
  probe_ok bench_probed = true /\
  (forall i, (i < 7)%nat -> attempt_valid (mock 128 0) bench_probed (doubled i 1) = false) /\
  attempt_valid (mock 128 0) bench_probed (doubled 7 1) = true /\
  is_ok (run_delay_simulation (mock 128 0) (set_period (doubled 7 1) bench_probed)) = true /\
  find_feasible_period (mock 128 0) 1 bench_probed =
  Fatal "Timed out, could not find a feasible period.".
Proof.
  split; [vm_compute; reflexivity|].
  split.
  { intros i Hi.
    do 7 (destruct i as [|i]; [vm_compute; reflexivity|]). lia. }
  split; [vm_compute; reflexivity|].
  split; vm_compute; reflexivity.
Qed.

(** C5, on the bench: a simulator valid from 64 ns on, found by the seventh
    attempt. *)
Lemma find_feasible_period_budget_witness :
  probe_ok bench_probed = true /\
  (forall i, (i < 6)%nat -> attempt_valid (mock 64 0) bench_probed (doubled i 1) = false) /\
  (exists res a b s',
     delay_outcome (mock 64 0) (set_period (doubled 6 1) bench_probed) = OK (true, res) /\
     find_feasible_period (mock 64 0) 1 bench_probed = OK ((a, b), s') /\
     dict_get res "delay_lh" = OK a /\ dict_get res "delay_hl" = OK b /\
     period s' = doubled 6 1 /\
     length (sims s') = (length (sims bench_probed) + 7)%nat).
Proof.
  assert (Hp : probe_ok bench_probed = true) by (vm_compute; reflexivity).
  assert (Hall : forall i, (i < 6)%nat ->
                           attempt_valid (mock 64 0) bench_probed (doubled i 1) = false).
  { intros i Hi. do 6 (destruct i as [|i]; [vm_compute; reflexivity|]). lia. }
  split; [exact Hp|]. split; [exact Hall|].
  eexists.
  assert (Hres : delay_outcome (mock 64 0) (set_period (doubled 6 1) bench_probed) =
                 OK (true, run_value [] (match delay_outcome (mock 64 0)
                                                 (set_period (doubled 6 1) bench_probed) with
                                         | OK (_, r) => OK (r, bench_sram)
                                         | Fatal e => Fatal e
                                         end)))
    by (vm_compute; reflexivity).
  destruct (proj1 (find_feasible_period_budget (mock 64 0) 1 bench_probed Hp)
                  6%nat _ (ltac:(lia)) Hall Hres) as (a & b & s' & H).
  exists a, b, s'. split; [exact Hres | exact H].
Defined.

(** C6.  [check_arguments] accepts the probe bit 1 for a word of one bit
    (whose only output is DOUT[0]), and [write_delay_stimulus] goes on to
    write a stimulus that measures DOUT[1]; the bit 2 is refused. *)
Theorem check_arguments_accepts_word_size :
  word_size bench_sram = 1%nat /\
  check_arguments (set_probe_fields "11" (PyInt 1) bench_sram) =
  OK (tt, set_probe_fields "11" (PyInt 1) bench_sram) /\
  (exists s', write_delay_stimulus (set_probe_fields "11" (PyInt 1) bench_sram) = OK (tt, s') /\
              In (MeasDelay "DELAY_HL" "clk" "DOUT[1]" (0.5 * 1) (0.5 * 1) "RISE" "FALL"
                            (advance 4 0 0) (advance 4 0 0)) (sf s')) /\
  check_arguments (set_probe_fields "11" (PyInt 2) bench_sram) =
  Fatal "Given probe_data is not an integer to specify a data bit".
Proof.
  split; [reflexivity|].
  split; [reflexivity|].
  split; [|reflexivity].
  eexists. split; [vm_compute; reflexivity|].
  vm_compute. tauto.
Qed.

(** C7, on the bench: [analyze] returns with a simulator that is valid from
    0.2 ns on. *)
Lemma analyze_power_is_leakage_corrected_witness :
  let run := analyze (mock 0.2 0) 10 (fun x => x) "" true "11" (PyInt 0)
                     [0.05%Q] [1%Q] bench_sram in
  let table := run_value ∅ run in
  let s' := run_state run in
  run = OK (table, s') /\
  (exists max_load max_slew full_raw trim_raw,
     py_max [1%Q] = OK max_load /\ py_max [0.05%Q] = OK max_slew /\
     mock 0.2 0 (power_stimulus false (set_slew max_slew (set_load max_load s')))
          "leakage_power" = Num full_raw /\
     mock 0.2 0 (power_stimulus true (set_slew max_slew (set_load max_load s')))
          "leakage_power" = Num trim_raw /\
     table !! "leakage_power" = Some (Scalar (full_raw * 1e3)%Q) /\
     forall k,
       In k ["read0_power"; "read1_power"; "write0_power"; "write1_power"]%string ->
       exists raws,
         Forall2 (fun point raw => mock 0.2 0 (sweep_stimulus s' point) k = Num raw)
                 (sweep_pairs [0.05%Q] [1%Q]) raws /\
         table !! k =
         Some (Lst (map (fun raw => (raw * 1e3 - trim_raw * 1e3 + full_raw * 1e3)%Q) raws))).
Proof.
  cbv zeta.
  assert (H : analyze (mock 0.2 0) 10 (fun x => x) "" true "11" (PyInt 0)
                      [0.05%Q] [1%Q] bench_sram =
              OK (run_value ∅ (analyze (mock 0.2 0) 10 (fun x => x) "" true "11" (PyInt 0)
                                       [0.05%Q] [1%Q] bench_sram),
                  run_state (analyze (mock 0.2 0) 10 (fun x => x) "" true "11" (PyInt 0)
                                     [0.05%Q] [1%Q] bench_sram)))
    by (vm_compute; reflexivity).
  split; [exact H|].
  exact (proj1 (analyze_power_is_leakage_corrected (mock 0.2 0) 10 (fun x => x) "" true
                  "11" (PyInt 0) [0.05%Q] [1%Q] bench_sram _ _ H)).
Defined.

(** C8, on the bench: the leakage stimulus of the full netlist at a period
    of 5 ns. *)
Lemma write_power_stimulus_lines_witness :
  let s := set_period 5 bench_probed in
  let run := write_power_stimulus false s in
  run = OK (tt, run_state run) /\
  sf (run_state run) =
  Line (Fmt "* Power stimulus for period of {0}n" [ANum (period s)])
  :: Include (sim_sp_file s)
  :: generic_lines s ++
  [ Text "* Generation of data and address signals" ] ++
  map (fun i => Constant (pin "DIN" i) 0) (seq 0 (word_size s)) ++
  map (fun i => Constant (pin "A" i) 0) (seq 0 (addr_size s)) ++
  [ Text "* Generation of control signals";
    Constant "CSb" (vdd_voltage (corner s));
    Constant "WEb" (vdd_voltage (corner s));
    Constant "OEb" (vdd_voltage (corner s));
    Text "* Generation of global clock signal";
    Constant "CLK" 0;
    Text "* Measure statements for idle leakage power";
    MeasPower "leakage_power" (period s) (2 * period s)%Q;
    Control (2 * period s)%Q ].
Proof.
  cbv zeta.
  assert (H : write_power_stimulus false (set_period 5 bench_probed) =
              OK (tt, run_state (write_power_stimulus false (set_period 5 bench_probed))))
    by (vm_compute; reflexivity).
  split; [exact H|].
  exact (write_power_stimulus_lines false (set_period 5 bench_probed) _ H).
Defined.

(** C9 as stated fails in the arithmetic of the code.  At a period of
    0.1 ns, in binary64, the time stamp of cycle 6 is not 6 times the
    period, and none of the four power windows (cycles 2, 6, 4 and 9) is one
    period wide, although each ends at its start plus the period. *)
Lemma cycle_times_not_multiples_of_period :
  let p := (1 / 10)%float in
  let times := float_cycle_times p in
  let t i := nth i times 0%float in
  length times = 11%nat /\
  PrimFloat.eqb (t 6%nat) (6 * p) = false /\
  PrimFloat.eqb (t 3%nat - t 2%nat) p = false /\
  PrimFloat.eqb (t 7%nat - t 6%nat) p = false /\
  PrimFloat.eqb (t 5%nat - t 4%nat) p = false /\
  PrimFloat.eqb (t 10%nat - t 9%nat) p = false /\
  PrimFloat.eqb (t 3%nat) (t 2%nat + p) = true /\
  PrimFloat.eqb (t 7%nat) (t 6%nat + p) = true /\
  PrimFloat.eqb (t 5%nat) (t 4%nat + p) = true /\
  PrimFloat.eqb (t 10%nat) (t 9%nat + p) = true.
Proof.
  cbv zeta. repeat split; vm_compute; reflexivity.
Qed.

(** C9, on the bench: the test program at a period of 5 ns. *)
Lemma test_cycles_aligned_witness :
  let s := set_period 5 bench_probed in
  let s' := run_state (create_test_cycles s) in
  create_test_cycles s = OK (tt, s') /\
  cycle_times (cyc s') = accumulated_times Qplus 0%Q (period s) 11 /\
  cycle_times (cyc s') !! 0%nat = Some 0%Q /\
  (forall i t, (S i < 11)%nat ->
               cycle_times (cyc s') !! i = Some t ->
               cycle_times (cyc s') !! S i = Some (t + period s)%Q) /\
  (forall p,
     length (float_cycle_times p) = 11%nat /\
     forall i t, (S i < 11)%nat ->
                 float_cycle_times p !! i = Some t ->
                 float_cycle_times p !! S i = Some (t + p)%float) /\
  length (cycle_times (cyc s')) = 11%nat /\
  length (csb_values (cyc s')) = 11%nat /\
  length (web_values (cyc s')) = 11%nat /\
  length (oeb_values (cyc s')) = 11%nat /\
  length (data_values (cyc s')) = word_size s /\
  Forall (fun stream => length stream = 11%nat) (data_values (cyc s')) /\
  length (addr_values (cyc s')) = addr_size s /\
  Forall (fun stream => length stream = 11%nat) (addr_values (cyc s')) /\
  exists lines,
    write_delay_measures s' = OK (tt, set_sf (sf s' ++ lines) s') /\
    map OK (power_windows lines) =
    [ window_at (cyc s') "WRITE0_POWER" (write0_cycle (marks s'));
      window_at (cyc s') "WRITE1_POWER" (write1_cycle (marks s'));
      window_at (cyc s') "READ0_POWER" (read0_cycle (marks s'));
      window_at (cyc s') "READ1_POWER" (read1_cycle (marks s')) ] /\
    Forall (fun '(n, a, b) => b = (a + period s)%Q) (power_windows lines).
Proof.
  cbv zeta.
  assert (H : create_test_cycles (set_period 5 bench_probed) =
              OK (tt, run_state (create_test_cycles (set_period 5 bench_probed))))
    by (vm_compute; reflexivity).
  split; [exact H|].
  exact (test_cycles_aligned (set_period 5 bench_probed) _ H).
Defined.

(** C10, on the bench: two slews and two loads; the last load is 2. *)
Lemma analytical_delay_table_witness :
  [0.05%Q; 0.1%Q] <> [] /\ last [1%Q; 2%Q] = Some 2%Q /\
  exists data s',
    analytical_delay bench_model [0.05%Q; 0.1%Q] [1%Q; 2%Q] bench_sram = OK (data, s') /\
    data !! "min_period" = Some (Scalar 0) /\
    data !! "delay_lh" = Some (Lst (analytical_delays bench_model [0.05%Q; 0.1%Q] [1%Q; 2%Q])) /\
    data !! "delay_hl" = Some (Lst (analytical_delays bench_model [0.05%Q; 0.1%Q] [1%Q; 2%Q])) /\
    data !! "slew_lh" = Some (Lst (analytical_slews bench_model [0.05%Q; 0.1%Q] [1%Q; 2%Q])) /\
    data !! "slew_hl" = Some (Lst (analytical_slews bench_model [0.05%Q; 0.1%Q] [1%Q; 2%Q])) /\
    length (analytical_delays bench_model [0.05%Q; 0.1%Q] [1%Q; 2%Q]) = (2 * 2)%nat /\
    length (analytical_slews bench_model [0.05%Q; 0.1%Q] [1%Q; 2%Q]) = (2 * 2)%nat /\
    let dynamic := (2 / 1e6)%Q in
    data !! "read0_power" = Some (Scalar dynamic) /\
    data !! "read1_power" = Some (Scalar dynamic) /\
    data !! "write0_power" = Some (Scalar dynamic) /\
    data !! "write1_power" = Some (Scalar dynamic).
Proof.
  split; [discriminate|]. split; [reflexivity|].
  exact (analytical_delay_table bench_model [0.05%Q; 0.1%Q] [1%Q; 2%Q] bench_sram 2%Q
           ltac:(discriminate) eq_refl).
Defined.

(** * Further properties on the test bench *)

(** X2, on the bench.  An address with a sign:  [int("+1", 2)] is 1 and the
    string has the two characters of the bus, so [check_arguments] passes; the
    test program refuses the ['+']. *)
Lemma write_delay_stimulus_nonbinary_address_witness :
  let s := set_probe_fields "+1" (PyInt 0) bench_sram in
  check_arguments s = OK (tt, s) /\
  is_binary (probe_address s) = false /\
  write_delay_stimulus s = Fatal "Non-binary address string" /\
  forall trim, write_power_stimulus trim s = Fatal "Non-binary address string".
Proof.
  cbv zeta. split; [reflexivity|]. split; [reflexivity|].
  exact (write_delay_stimulus_nonbinary_address
           (set_probe_fields "+1" (PyInt 0) bench_sram) eq_refl eq_refl).
Defined.

(** X3, on the bench.  The scratch address of 1101 is 0010. *)
Lemma invert_address_involutive_witness :
  invert_address "1101" = OK "0010"%string /\
  String.length "0010" = String.length "1101" /\
  invert_address "0010" = OK "1101"%string /\
  (forall i c, String.get i "1101" = Some c ->
               exists c', String.get i "0010" = Some c' /\ c' <> c).
Proof.
  split; [reflexivity|].
  exact (invert_address_involutive "1101" "0010" eq_refl).
Defined.

(** X4, on the bench.  One more data bit and one more address on the cycle
    lists of the test program. *)
Lemma add_data_appends_bits_witness :
  let s := run_state (create_test_cycles bench_probed) in
  length (data_values (cyc s)) = word_size s /\
  length (addr_values (cyc s)) = addr_size s /\
  add_data "1" s =
  OK (tt, set_cyc (set_data_values
                     (zip_with (fun v c => v ++ [bit_of c]) (data_values (cyc s))
                               (list_ascii_of_string "1")) (cyc s)) s) /\
  add_data "10" s = Fatal "Invalid data word size." /\
  add_data "x" s = Fatal "Non-binary data string" /\
  add_address "1" s = Fatal "Invalid address size." /\
  add_address "1x" s = Fatal "Non-binary address string".
Proof.
  cbv zeta.
  assert (Hd : length (data_values (cyc (run_state (create_test_cycles bench_probed)))) =
               word_size (run_state (create_test_cycles bench_probed)))
    by (vm_compute; reflexivity).
  assert (Ha : length (addr_values (cyc (run_state (create_test_cycles bench_probed)))) =
               addr_size (run_state (create_test_cycles bench_probed)))
    by (vm_compute; reflexivity).
  split; [exact Hd|]. split; [exact Ha|].
  split; [exact (proj1 (add_data_appends_bits "1" _ Hd Ha))|].
  split; [exact (proj1 (add_data_appends_bits "10" _ Hd Ha))|].
  split; [exact (proj1 (add_data_appends_bits "x" _ Hd Ha))|].
  split; [exact (proj2 (add_data_appends_bits "1" _ Hd Ha))|].
  exact (proj2 (add_data_appends_bits "1x" _ Hd Ha)).
Defined.

(** X5, on the bench.  A twelfth cycle, a read of address 10, after the test
    program at a period of 5 ns. *)
Lemma add_cycle_keeps_alignment_witness :
  let s := run_state (create_test_cycles (set_period 5 bench_probed)) in
  aligned (word_size s) (addr_size s) 11 (cyc s) /\
  exists s',
    add_read "R extra" "10" "1" s = OK (tt, s') /\
    aligned (word_size s) (addr_size s) 12 (cyc s') /\
    cycle_kind (cyc s') (Z.of_nat 11) = Some Read /\
    cycle_times (cyc s') = cycle_times (cyc s) ++ [t_current (cyc s)] /\
    t_current (cyc s') = (t_current (cyc s) + period s)%Q /\
    bus_at (data_values (cyc s')) (Z.of_nat 11) = bits_of "1" /\
    bus_at (addr_values (cyc s')) (Z.of_nat 11) = bits_of "10" /\
    inputs s' = inputs s.
Proof.
  cbv zeta.
  assert (Hal : aligned (word_size (run_state (create_test_cycles (set_period 5 bench_probed))))
                        (addr_size (run_state (create_test_cycles (set_period 5 bench_probed))))
                        11 (cyc (run_state (create_test_cycles (set_period 5 bench_probed))))).
  { vm_compute. repeat split; repeat constructor. }
  split; [exact Hal|].
  exact (add_cycle_keeps_alignment 11 "R extra" "10" "1" _ Hal eq_refl eq_refl eq_refl eq_refl
           add_read Read (or_intror (or_introl eq_refl))).
Defined.

(** X6, on the bench.  The test program of the bench at a period of 5 ns, run
    twice. *)
Lemma create_test_cycles_idempotent_witness :
  let s := set_period 5 bench_probed in
  let s1 := run_state (create_test_cycles s) in
  create_test_cycles s = OK (tt, s1) /\ create_test_cycles s1 = OK (tt, s1).
Proof.
  cbv zeta.
  assert (H : create_test_cycles (set_period 5 bench_probed) =
              OK (tt, run_state (create_test_cycles (set_period 5 bench_probed))))
    by (vm_compute; reflexivity).
  split; [exact H|]. exact (create_test_cycles_idempotent _ _ H).
Defined.

(** X7, on the bench.  The test program of the bench: probe address 11,
    scratch address 00, one data bit. *)
Lemma create_test_cycles_drives_probe_witness :
  let s := set_period 5 bench_probed in
  let s' := run_state (create_test_cycles s) in
  create_test_cycles s = OK (tt, s') /\
  bus_at (addr_values (cyc s')) (write0_cycle (marks s')) = [OK 1%Z; OK 1%Z] /\
  bus_at (data_values (cyc s')) (write0_cycle (marks s')) = [OK 0%Z] /\
  bus_at (addr_values (cyc s')) (read0_cycle (marks s') - 1) = [OK 0%Z; OK 0%Z].
Proof.
  cbv zeta.
  assert (H : create_test_cycles (set_period 5 bench_probed) =
              OK (tt, run_state (create_test_cycles (set_period 5 bench_probed))))
    by (vm_compute; reflexivity).
  split; [exact H|].
  pose proof (create_test_cycles_drives_probe _ _ H) as T. cbv zeta in T.
  destruct T as (T1 & T2 & _ & _ & _ & _ & _ & (_ & T3) & _).
  split; [exact T1|]. split; [exact T2 | exact T3].
Defined.

(** X8, on the bench.  The delay stimulus of the bench at a period of 5 ns,
    written over an old file and written twice. *)
Lemma write_delay_stimulus_rewrites_witness :
  let s := set_period 5 bench_probed in
  let s1 := run_state (write_delay_stimulus s) in
  write_delay_stimulus s = OK (tt, s1) /\
  (forall old, write_delay_stimulus (set_sf old s) = OK (tt, s1)) /\
  write_delay_stimulus s1 = OK (tt, s1).
Proof.
  cbv zeta.
  assert (H : write_delay_stimulus (set_period 5 bench_probed) =
              OK (tt, run_state (write_delay_stimulus (set_period 5 bench_probed))))
    by (vm_compute; reflexivity).
  split; [exact H|]. exact (write_delay_stimulus_rewrites _ _ H).
Defined.

(** X9, on the bench.  The schedule of the bench at a period of 5 ns. *)
Lemma write_delay_stimulus_schedule_witness :
  let s := set_period 5 bench_probed in
  let s' := run_state (write_delay_stimulus s) in
  write_delay_stimulus s = OK (tt, s') /\
  In (Pulse "CLK" 0 1 5 5 0.05 0.05) (sf s') /\
  cycle_times (cyc s') = accumulated_times Qplus 0%Q 5%Q 11 /\
  exists t4 t9 t_last,
    cycle_times (cyc s') !! 4%nat = Some t4 /\
    cycle_times (cyc s') !! 9%nat = Some t9 /\
    last (cycle_times (cyc s')) = Some t_last /\
    In (MeasDelay "DELAY_HL" "clk" "DOUT[0]" (0.5 * 1) (0.5 * 1) "RISE" "FALL" t4 t4) (sf s') /\
    In (MeasDelay "DELAY_LH" "clk" "DOUT[0]" (0.5 * 1) (0.5 * 1) "RISE" "RISE" t9 t9) (sf s') /\
    In (MeasDelay "SLEW_HL" "DOUT[0]" "DOUT[0]" (0.9 * 1) (0.1 * 1) "FALL" "FALL" t4 t4) (sf s') /\
    In (MeasDelay "SLEW_LH" "DOUT[0]" "DOUT[0]" (0.1 * 1) (0.9 * 1) "RISE" "RISE" t9 t9) (sf s') /\
    last (sf s') = Some (Control (t_last + 5)%Q).
Proof.
  cbv zeta.
  assert (H : write_delay_stimulus (set_period 5 bench_probed) =
              OK (tt, run_state (write_delay_stimulus (set_period 5 bench_probed))))
    by (vm_compute; reflexivity).
  split; [exact H|]. exact (write_delay_stimulus_schedule _ _ H).
Defined.

(** X10, on the bench.  The sources of the bench: one data pin, the address
    pins of the probe address 11. *)
Lemma write_delay_stimulus_sources_witness :
  let s := set_period 5 bench_probed in
  let s' := run_state (write_delay_stimulus s) in
  let pwl sig_name values :=
    Pwl sig_name (edge_times 11 0 5) values 5 0.05 0.05 in
  write_delay_stimulus s = OK (tt, s') /\
  In (pwl "DIN[0]" [0; 1; 0; 0; 0; 0; 1; 0; 0; 0; 0]%Z) (sf s') /\
  In (pwl "A[1]" [0; 0; 1; 0; 1; 0; 1; 0; 0; 1; 1]%Z) (sf s') /\
  In (pwl "csb" [1; 0; 0; 0; 0; 1; 0; 0; 0; 0; 1]%Z) (sf s').
Proof.
  cbv zeta.
  assert (H : write_delay_stimulus (set_period 5 bench_probed) =
              OK (tt, run_state (write_delay_stimulus (set_period 5 bench_probed))))
    by (vm_compute; reflexivity).
  split; [exact H|].
  pose proof (write_delay_stimulus_sources _ _ H) as T. cbv zeta in T.
  destruct T as (T1 & T2 & T3 & _).
  split; [exact (T1 0%nat ltac:(cbn; lia))|].
  split; [exact (T2 1%nat "1"%char eq_refl) | exact T3].
Defined.

(** X11, on the bench.  Four measurements of 0.1 ns are valid at 5 ns, hence
    at 10 ns. *)
Lemma check_valid_delays_monotone_witness :
  let s := set_period 5 bench_probed in
  let t := (Num 0.1e-9, Num 0.1e-9, Num 0.1e-9, Num 0.1e-9) in
  check_valid_delays t s = OK (true, s) /\ (period s <= 10)%Q /\
  check_valid_delays t (set_period 10 s) = OK (true, set_period 10 s) /\
  forall s0, exists valid, check_valid_delays t s0 = OK (valid, s0).
Proof.
  cbv zeta.
  assert (H : check_valid_delays (Num 0.1e-9, Num 0.1e-9, Num 0.1e-9, Num 0.1e-9)
                (set_period 5 bench_probed) = OK (true, set_period 5 bench_probed))
    by (vm_compute; reflexivity).
  assert (Hq : (period (set_period 5 bench_probed) <= 10)%Q) by (cbn; lra).
  split; [exact H|]. split; [exact Hq|].
  exact (check_valid_delays_monotone _ _ 10 H Hq).
Defined.

(** The probe point of the bench is an accepted one, at every period. *)
Lemma bench_accepted p : accepted_probe (set_period p bench_probed).
Proof.
  unfold accepted_probe. split; [reflexivity|]. split; [discriminate|].
  split; [reflexivity|]. exists 0%Z. split; [reflexivity|]. cbn. lia.
Defined.

(** X12, on the bench.  A simulator without power measurements: the delays are
    valid, the run aborts. *)
Lemma run_delay_simulation_power_failed_witness :
  let s := set_period 5 bench_probed in
  accepted_probe s /\
  delays_valid (period s)
    (mock_no_power (delay_stimulus s) "delay_hl") (mock_no_power (delay_stimulus s) "delay_lh")
    (mock_no_power (delay_stimulus s) "slew_hl") (mock_no_power (delay_stimulus s) "slew_lh")
    = true /\
  mock_no_power (delay_stimulus s) "read0_power" = Failed /\
  run_delay_simulation mock_no_power s = Fatal "TypeError".
Proof.
  cbv zeta. split; [apply bench_accepted|].
  split; [vm_compute; reflexivity|]. split; [reflexivity|].
  apply (run_delay_simulation_power_failed mock_no_power (set_period 5 bench_probed)
           "read0_power" (bench_accepted 5)).
  - vm_compute; reflexivity.
  - left; reflexivity.
  - reflexivity.
Defined.


(** X14, on the bench.  At 5 ns the bench passes [try_period] against delays
    of 0.1 ns, and a [run_delay_simulation] there succeeds. *)
Lemma try_period_stricter_witness :
  let s := set_period 5 bench_probed in
  try_period (mock 0.2 0) 0.1 0.1 s = OK (true, run_state (try_period (mock 0.2 0) 0.1 0.1 s)) /\
  forall r s2, run_delay_simulation (mock 0.2 0) s = OK (r, s2) -> fst r = true.
Proof.
  cbv zeta.
  assert (H : try_period (mock 0.2 0) 0.1 0.1 (set_period 5 bench_probed) =
              OK (true, run_state (try_period (mock 0.2 0) 0.1 0.1 (set_period 5 bench_probed))))
    by (vm_compute; reflexivity).
  split; [exact H|].
  exact (try_period_stricter (mock 0.2 0) 0.1 0.1 _ _ H).
Defined.

(** X15, on the bench.  The two leakage simulations of the bench: 0.08 mW on
    the full netlist, 0.05 mW on the trimmed one. *)
Lemma run_power_simulation_outcome_witness :
  let s := set_period 5 bench_probed in
  accepted_probe s /\
  In (Include "sram.sp") (stim_lines (power_stimulus false s)) /\
  In (Include "reduced.sp") (stim_lines (power_stimulus true s)) /\
  exists s',
    run_power_simulation (mock 0.2 0) s = OK ((0.08e-3 * 1e3, 0.05e-3 * 1e3)%Q, s') /\
    sims s' = power_stimulus true s :: power_stimulus false s :: sims s /\
    inputs s' = inputs s.
Proof.
  cbv zeta. split; [apply bench_accepted|].
  pose proof (run_power_simulation_outcome (mock 0.2 0) _ (bench_accepted 5)) as T.
  destruct T as (T1 & T2 & T3).
  split; [exact T1|]. split; [exact T2|].
  assert (E1 : mock 0.2 0 (power_stimulus false (set_period 5 bench_probed)) "leakage_power"
               = Num 0.08e-3) by (vm_compute; reflexivity).
  assert (E2 : mock 0.2 0 (power_stimulus true (set_period 5 bench_probed)) "leakage_power"
               = Num 0.05e-3) by (vm_compute; reflexivity).
  rewrite E1, E2 in T3. exact T3.
Defined.

(** X16, on the bench.  The bench with the full netlist in the place of the
    trimmed one. *)
Lemma run_power_simulation_same_netlist_witness :
  let s := set_trim_sp_file "sram.sp" (set_period 5 bench_probed) in
  let run := run_power_simulation (mock 0.2 0) s in
  let full := fst (run_value (0, 0)%Q run) in
  let trim := snd (run_value (0, 0)%Q run) in
  trim_sp_file s = sim_sp_file s /\
  run = OK ((full, trim), run_state run) /\
  full = trim /\
  exists st, sims (run_state run) = st :: st :: sims s.
Proof.
  cbv zeta. split; [reflexivity|].
  assert (H : run_power_simulation (mock 0.2 0)
                (set_trim_sp_file "sram.sp" (set_period 5 bench_probed)) =
              OK ((fst (run_value (0, 0)%Q
                          (run_power_simulation (mock 0.2 0)
                             (set_trim_sp_file "sram.sp" (set_period 5 bench_probed)))),
                   snd (run_value (0, 0)%Q
                          (run_power_simulation (mock 0.2 0)
                             (set_trim_sp_file "sram.sp" (set_period 5 bench_probed))))),
                  run_state (run_power_simulation (mock 0.2 0)
                               (set_trim_sp_file "sram.sp" (set_period 5 bench_probed)))))
    by (vm_compute; reflexivity).
  split; [exact H|].
  exact (run_power_simulation_same_netlist (mock 0.2 0)
           (set_trim_sp_file "sram.sp" (set_period 5 bench_probed)) _ _ _ eq_refl H).
Defined.

(** X17, on the bench.  The binary search of the bench from 10 ns, with a
    simulator that is valid from 0.2 ns on. *)
Lemma find_min_period_bounds_witness :
  let s := set_period 10 bench_probed in
  let run := find_min_period (mock 0.2 0) 0.1 0.1 s in
  let m := run_value 0%Q run in
  let s' := run_state run in
  (0 < period s)%Q /\ run = OK (m, s') /\
  (0 < m)%Q /\ (m <= period s)%Q /\
  (period s' <= m)%Q /\ relative_compare m (period s') 0.05 = true.
Proof.
  cbv zeta.
  assert (Hp : (0 < period (set_period 10 bench_probed))%Q) by (cbn; lra).
  assert (H : find_min_period (mock 0.2 0) 0.1 0.1 (set_period 10 bench_probed) =
              OK (run_value 0%Q (find_min_period (mock 0.2 0) 0.1 0.1
                                   (set_period 10 bench_probed)),
                  run_state (find_min_period (mock 0.2 0) 0.1 0.1
                               (set_period 10 bench_probed))))
    by (vm_compute; reflexivity).
  split; [exact Hp|]. split; [exact H|].
  exact (find_min_period_bounds (mock 0.2 0) 0.1 0.1 _ _ _ Hp H).
Defined.

(** X18, on the bench.  The same search has run between 1 and 24 simulations.
    *)
Lemma find_min_period_budget_witness :
  let s := set_period 10 bench_probed in
  let run := find_min_period (mock 0.2 0) 0.1 0.1 s in
  (0 < period s)%Q /\ run = OK (run_value 0%Q run, run_state run) /\
  exists k, (1 <= k <= 24)%nat /\
            length (sims (run_state run)) = (length (sims s) + k)%nat.
Proof.
  cbv zeta.
  assert (Hp : (0 < period (set_period 10 bench_probed))%Q) by (cbn; lra).
  assert (H : find_min_period (mock 0.2 0) 0.1 0.1 (set_period 10 bench_probed) =
              OK (run_value 0%Q (find_min_period (mock 0.2 0) 0.1 0.1
                                   (set_period 10 bench_probed)),
                  run_state (find_min_period (mock 0.2 0) 0.1 0.1
                               (set_period 10 bench_probed))))
    by (vm_compute; reflexivity).
  split; [exact Hp|]. split; [exact H|].
  exact (find_min_period_budget (mock 0.2 0) 0.1 0.1 _ _ _ Hp H).
Defined.


(** X20, on the bench.  [analyze] of the bench without a slew. *)
Lemma analyze_empty_sweep_witness :
  analyze (mock 0.2 0) 10 (fun x => x) "" true "11" (PyInt 0) [] [1%Q] bench_sram =
  Fatal "ValueError".
Proof.
  exact (analyze_empty_sweep (mock 0.2 0) 10 (fun x => x) "" true "11" (PyInt 0) [] [1%Q]
           bench_sram (or_introl eq_refl)).
Defined.

(** X21, on the bench.  With the simulator that measures 0 the feasible delays
    are 0, and [analyze] refuses them. *)
Lemma analyze_rejects_nonpositive_delay_witness :
  let s1 := set_slew 0.05 (set_load 1 (probed "" true "11" (PyInt 0) bench_sram)) in
  let run := find_feasible_period mock_zero 10 s1 in
  let a := fst (run_value (1, 1)%Q run) in
  let b := snd (run_value (1, 1)%Q run) in
  py_max [1%Q] = OK 1%Q /\ py_max [0.05%Q] = OK 0.05%Q /\
  run = OK ((a, b), run_state run) /\ (a <= 0)%Q /\
  analyze mock_zero 10 (fun x => x) "" true "11" (PyInt 0) [0.05%Q] [1%Q] bench_sram =
  Fatal "Negative delay may not be possible".
Proof.
  cbv zeta.
  assert (H : find_feasible_period mock_zero 10
                (set_slew 0.05 (set_load 1 (probed "" true "11" (PyInt 0) bench_sram))) =
              OK ((fst (run_value (1, 1)%Q
                          (find_feasible_period mock_zero 10
                             (set_slew 0.05 (set_load 1
                                (probed "" true "11" (PyInt 0) bench_sram))))),
                   snd (run_value (1, 1)%Q
                          (find_feasible_period mock_zero 10
                             (set_slew 0.05 (set_load 1
                                (probed "" true "11" (PyInt 0) bench_sram)))))),
                  run_state (find_feasible_period mock_zero 10
                               (set_slew 0.05 (set_load 1
                                  (probed "" true "11" (PyInt 0) bench_sram))))))
    by (vm_compute; reflexivity).
  assert (Ha : (fst (run_value (1, 1)%Q
                       (find_feasible_period mock_zero 10
                          (set_slew 0.05 (set_load 1
                             (probed "" true "11" (PyInt 0) bench_sram))))) <= 0)%Q).
  { vm_compute. intros Hc. discriminate Hc. }
  split; [reflexivity|]. split; [reflexivity|]. split; [exact H|]. split; [exact Ha|].
  exact (analyze_rejects_nonpositive_delay mock_zero 10 (fun x => x) "" true "11" (PyInt 0)
           [0.05%Q] [1%Q] bench_sram 1 0.05 _ _ _ eq_refl eq_refl H (or_introl Ha)).
Defined.

(** X22, on the bench.  The run of [analyze] on the bench with a simulator
    that is valid from 0.2 ns on: one slew, one load. *)
Lemma analyze_searches_at_maximum_witness :
  let run := analyze (mock 0.2 0) 10 (fun x => x) "" true "11" (PyInt 0)
                     [0.05%Q] [1%Q] bench_sram in
  let table := run_value ∅ run in
  run = OK (table, run_state run) /\
  exists max_load max_slew a b s4 m s6,
    (In max_load [1%Q] /\ forall l, In l [1%Q] -> (l <= max_load)%Q) /\
    (In max_slew [0.05%Q] /\ forall sl, In sl [0.05%Q] -> (sl <= max_slew)%Q) /\
    find_feasible_period (mock 0.2 0) 10
      (set_slew max_slew (set_load max_load (probed "" true "11" (PyInt 0) bench_sram)))
      = OK ((a, b), s4) /\
    (0 < a)%Q /\ (0 < b)%Q /\
    load s4 = max_load /\ slew s4 = max_slew /\
    find_min_period (mock 0.2 0) a b (set_slew max_slew (set_load max_load s4)) = OK (m, s6) /\
    table !! "min_period" = Some (Scalar m).
Proof.
  cbv zeta.
  assert (H : analyze (mock 0.2 0) 10 (fun x => x) "" true "11" (PyInt 0)
                      [0.05%Q] [1%Q] bench_sram =
              OK (run_value ∅ (analyze (mock 0.2 0) 10 (fun x => x) "" true "11" (PyInt 0)
                                       [0.05%Q] [1%Q] bench_sram),
                  run_state (analyze (mock 0.2 0) 10 (fun x => x) "" true "11" (PyInt 0)
                                     [0.05%Q] [1%Q] bench_sram)))
    by (vm_compute; reflexivity).
  split; [exact H|].
  exact (analyze_searches_at_maximum (mock 0.2 0) 10 (fun x => x) "" true "11" (PyInt 0)
           [0.05%Q] [1%Q] bench_sram _ _ H).
Defined.

(** X23, on the bench.  The same run with trimming disabled. *)
Lemma analyze_untrimmed_power_witness :
  let run := analyze (mock 0.2 0) 10 (fun x => x) "" false "11" (PyInt 0)
                     [0.05%Q] [1%Q] bench_sram in
  let table := run_value ∅ run in
  let s' := run_state run in
  run = OK (table, s') /\
  exists max_load max_slew leak_raw,
    py_max [1%Q] = OK max_load /\ py_max [0.05%Q] = OK max_slew /\
    power_stimulus true (set_slew max_slew (set_load max_load s')) =
    power_stimulus false (set_slew max_slew (set_load max_load s')) /\
    mock 0.2 0 (power_stimulus false (set_slew max_slew (set_load max_load s')))
         "leakage_power" = Num leak_raw /\
    table !! "leakage_power" = Some (Scalar (leak_raw * 1e3)%Q) /\
    forall k,
      In k ["read0_power"; "read1_power"; "write0_power"; "write1_power"]%string ->
      exists raws,
        Forall2 (fun point raw => mock 0.2 0 (sweep_stimulus s' point) k = Num raw)
                (sweep_pairs [0.05%Q] [1%Q]) raws /\
        table !! k =
        Some (Lst (map (fun raw => (raw * 1e3 - leak_raw * 1e3 + leak_raw * 1e3)%Q) raws)).
Proof.
  cbv zeta.
  assert (H : analyze (mock 0.2 0) 10 (fun x => x) "" false "11" (PyInt 0)
                      [0.05%Q] [1%Q] bench_sram =
              OK (run_value ∅ (analyze (mock 0.2 0) 10 (fun x => x) "" false "11" (PyInt 0)
                                       [0.05%Q] [1%Q] bench_sram),
                  run_state (analyze (mock 0.2 0) 10 (fun x => x) "" false "11" (PyInt 0)
                                     [0.05%Q] [1%Q] bench_sram)))
    by (vm_compute; reflexivity).
  split; [exact H|].
  exact (analyze_untrimmed_power (mock 0.2 0) 10 (fun x => x) "" false "11" (PyInt 0)
           [0.05%Q] [1%Q] bench_sram _ _ eq_refl H).
Defined.

(** X24, on the bench.  The table of the run on the bench, with two slews and
    two loads. *)
Lemma analyze_table_columns_witness :
  let run := analyze (mock 0.2 0) 10 (fun x => x) "" true "11" (PyInt 0)
                     [0.05%Q; 0.1%Q] [1%Q; 2%Q] bench_sram in
  let table := run_value ∅ run in
  let s' := run_state run in
  run = OK (table, s') /\
  (exists history,
     sims s' = rev (map (sweep_stimulus s') (sweep_pairs [0.05%Q; 0.1%Q] [1%Q; 2%Q]))
               ++ history) /\
  (forall k, In k result_keys ->
     exists l, table !! k = Some (Lst l) /\ length l = (2 * 2)%nat) /\
  (forall k, In k ["delay_lh"; "delay_hl"; "slew_lh"; "slew_hl"]%string ->
     exists raws,
       Forall2 (fun point raw => mock 0.2 0 (sweep_stimulus s' point) k = Num raw)
               (sweep_pairs [0.05%Q; 0.1%Q] [1%Q; 2%Q]) raws /\
       table !! k = Some (Lst (map (fun raw => (raw * 1e9)%Q) raws))) /\
  (forall k, ~ In k ("min_period" :: "leakage_power" :: result_keys)%string ->
     table !! k = None).
Proof.
  cbv zeta.
  assert (H : analyze (mock 0.2 0) 10 (fun x => x) "" true "11" (PyInt 0)
                      [0.05%Q; 0.1%Q] [1%Q; 2%Q] bench_sram =
              OK (run_value ∅ (analyze (mock 0.2 0) 10 (fun x => x) "" true "11" (PyInt 0)
                                       [0.05%Q; 0.1%Q] [1%Q; 2%Q] bench_sram),
                  run_state (analyze (mock 0.2 0) 10 (fun x => x) "" true "11" (PyInt 0)
                                     [0.05%Q; 0.1%Q] [1%Q; 2%Q] bench_sram)))
    by (vm_compute; reflexivity).
  split; [exact H|].
  exact (analyze_table_columns (mock 0.2 0) 10 (fun x => x) "" true "11" (PyInt 0)
           [0.05%Q; 0.1%Q] [1%Q; 2%Q] bench_sram _ _ H).
Defined.

(** X25, on the bench.  The analytical table of the bench without a load. *)
Lemma analytical_delay_empty_sweep_witness :
  analytical_delay bench_model [0.05%Q] [] bench_sram =
  Fatal "NameError: name 'load' is not defined".
Proof.
  exact (analytical_delay_empty_sweep bench_model [0.05%Q] [] bench_sram (or_intror eq_refl)).
Defined.

(** X27, on the bench.  At a period of 0.1 ns the simulator that is valid
    from 0.2 ns on measures nothing, and the sweep aborts at its first
    point. *)
Lemma sweep_aborts_on_invalid_point_witness :
  let s := set_period 0.1 bench_probed in
  accepted_probe s /\
  delays_valid (period s)
    (mock 0.2 0 (sweep_stimulus s (0.05, 1)%Q) "delay_hl")
    (mock 0.2 0 (sweep_stimulus s (0.05, 1)%Q) "delay_lh")
    (mock 0.2 0 (sweep_stimulus s (0.05, 1)%Q) "slew_hl")
    (mock 0.2 0 (sweep_stimulus s (0.05, 1)%Q) "slew_lh") = false /\
  sweep (mock 0.2 0) 0 0 [0.05%Q; 0.1%Q] [1%Q; 2%Q] ∅ s =
  Fatal "Couldn't run a simulation.".
Proof.
  cbv zeta.
  assert (Hv : delays_valid (period (set_period 0.1 bench_probed))
                 (mock 0.2 0 (sweep_stimulus (set_period 0.1 bench_probed) (0.05, 1)%Q) "delay_hl")
                 (mock 0.2 0 (sweep_stimulus (set_period 0.1 bench_probed) (0.05, 1)%Q) "delay_lh")
                 (mock 0.2 0 (sweep_stimulus (set_period 0.1 bench_probed) (0.05, 1)%Q) "slew_hl")
                 (mock 0.2 0 (sweep_stimulus (set_period 0.1 bench_probed) (0.05, 1)%Q) "slew_lh")
               = false) by (vm_compute; reflexivity).
  split; [apply bench_accepted|]. split; [exact Hv|].
  exact (sweep_aborts_on_invalid_point (mock 0.2 0) 0 0 0.05 [0.1%Q] 1 [2%Q] ∅
           (set_period 0.1 bench_probed) (bench_accepted 0.1) Hv).
Defined.
